(** * NNumpy: the module caching protocol and gradient accumulation

    A shallow embedding of [Assignment3/nnumpy/loss.py] (the classes
    [Parameter] and [Module], the modules [Tanh], [Identity], [Sum], [Mean]
    and the function [get_reduction]; [tanh.py] holds the same [Parameter],
    [Module] and [Tanh] code).

    Modelling choices, all stated where they are made:
    - Python exceptions are values of [exn]; a call returns a [result].
    - NumPy arrays are a shape with row-major data over an abstract scalar
      type (class [Scalar]): rounding of IEEE floats is outside the
      model, the two laws a theorem needs are in class [ScalarLaws].
    - Objects that are compared with [is] live in a heap of objects
      addressed by locations ([Section ParameterModel]). *)

From Stdlib Require Import ZArith.
From stdpp Require Import base list strings relations.


(** ** Exceptions and results *)

(** The exception classes the code raises or lets through.
    [TypeErrorSub] stands for any class deriving from [TypeError] (an
    [except TypeError] clause catches it), [OtherError] for any class
    that does not. *)
Inductive exn_class :=
  | TypeError
  | TypeErrorSub (name : string)
  | ValueError
  | IndexError
  | AxisError
  | AttributeError
  | NotImplementedError
  | OtherError (name : string).

(** One element of [e.args]: a string, or an object that [+] cannot
    concatenate with a string. *)
Inductive exn_arg :=
  | ArgStr (s : string)
  | ArgObj.

Record exn := Exn { exn_cls : exn_class; exn_args : list exn_arg }.

(** [isinstance(e, TypeError)] *)
Definition is_TypeError (e : exn) : bool :=
  match exn_cls e with
  | TypeError | TypeErrorSub _ => true
  | _ => false
  end.

Inductive result (A : Type) :=
  | Ok (a : A)
  | Raise (e : exn).
Arguments Ok {A} a.
Arguments Raise {A} e.

#[global] Instance result_ret : MRet result := fun A a => Ok a.
#[global] Instance result_bind : MBind result := fun A B f r =>
  match r with
  | Ok a => f a
  | Raise e => Raise e
  end.

Definition raise {A} (c : exn_class) (msg : string) : result A :=
  Raise (Exn c [ArgStr msg]).

Definition newline : string := String (Ascii.ascii_of_nat 10) EmptyString.

(** ** Python lists used as stacks *)

(** [l.append(x)] *)
Definition list_append {A} (l : list A) (x : A) : list A := l ++ [x].

(** [l.pop()]: the last element and the list without it, [None] standing
    for [IndexError: pop from empty list]. *)
Fixpoint list_pop {A} (l : list A) : option (A * list A) :=
  match l with
  | [] => None
  | x :: l' =>
      match list_pop l' with
      | None => Some (x, [])
      | Some (y, r) => Some (y, x :: r)
      end
  end.

(** ** Scalars *)

(** The element type of the arrays, with the operations the code applies
    to it.  [seq0 x] is the test [x == 0], [sof_nat n] the conversion of a
    Python int used as a divisor. *)
Class Scalar (F : Type) := {
  s0 : F;
  s1 : F;
  sadd : F -> F -> F;
  ssub : F -> F -> F;
  smul : F -> F -> F;
  sdiv : F -> F -> F;
  stanh : F -> F;
  seq0 : F -> bool;
  sof_nat : nat -> F
}.

(** The laws used by the theorems on [Tanh], [Sum] and [Mean]: adding to
    a zero accumulator and multiplying by a gradient of one are exact. *)
Class ScalarLaws (F : Type) `{Scalar F} : Prop := {
  sadd_0_l : forall x : F, sadd s0 x = x;
  smul_1_l : forall x : F, smul s1 x = x
}.

(** Integer scalars, to run the model on concrete arrays. [stanh] is the
    sign function, the integer rounding of tanh away from the origin. *)
#[global] Instance Z_Scalar : Scalar Z := {|
  s0 := 0%Z;
  s1 := 1%Z;
  sadd := Z.add;
  ssub := Z.sub;
  smul := Z.mul;
  sdiv := Z.div;
  stanh := Z.sgn;
  seq0 := fun x => Z.eqb x 0;
  sof_nat := Z.of_nat
|}.

(** ** NumPy arrays *)

Section NdArray.
Context {F : Type} `{Scalar F}.

(** An array: its shape and its elements in row-major (C) order. *)
Record ndarray := NdArray { shape : list nat; data : list F }.

(** Number of elements of an array of shape [s]. *)
Definition numel (s : list nat) : nat := foldr Nat.mul 1 s.

Definition wf_array (a : ndarray) : Prop :=
  length (data a) = numel (shape a).

(** [np.zeros(s)], [np.ones(s)] *)
Definition np_zeros (s : list nat) : ndarray :=
  NdArray s (replicate (numel s) s0).
Definition np_ones (s : list nat) : ndarray :=
  NdArray s (replicate (numel s) s1).

(** A Python number seen as a 0-d array. *)
Definition np_scalar (x : F) : ndarray := NdArray [] [x].

(** [np.all(a == 0)] *)
Definition np_all_eq0 (a : ndarray) : bool := forallb seq0 (data a).

(** [m] consecutive blocks of [k] elements. *)
Fixpoint chunks (k m : nat) (d : list F) : list (list F) :=
  match m with
  | 0 => []
  | S m' => take k d :: chunks k m' (drop k d)
  end.

(** Broadcasting: [src] is the source shape padded on the left with
    ones to the length of the target shape [dst]; a source axis of
    length one is repeated, any other axis is copied block by block. *)
Fixpoint bcast_data (src dst : list nat) (d : list F) : list F :=
  match src, dst with
  | m :: src', n :: dst' =>
      if Nat.eqb m n
      then concat (map (bcast_data src' dst') (chunks (numel src') m d))
      else concat (replicate n (bcast_data src' dst' d))
  | _, _ => d
  end.

Definition lpad (s : list nat) (n : nat) : list nat :=
  replicate (n - length s) 1 ++ s.

Fixpoint dims_compatible (src dst : list nat) : bool :=
  match src, dst with
  | [], [] => true
  | m :: src', n :: dst' =>
      (Nat.eqb m n || Nat.eqb m 1) && dims_compatible src' dst'
  | _, _ => false
  end.

(** Can an array of shape [src] be broadcast to shape [dst]? *)
Definition can_broadcast (src dst : list nat) : bool :=
  (length src <=? length dst) && dims_compatible (lpad src (length dst)) dst.

Definition bcast (a : ndarray) (s : list nat) : list F :=
  bcast_data (lpad (shape a) (length s)) s (data a).

(** [np.broadcast_to(a, s)] *)
Definition np_broadcast_to (a : ndarray) (s : list nat) : result ndarray :=
  if can_broadcast (shape a) s
  then Ok (NdArray s (bcast a s))
  else raise ValueError "operands could not be broadcast together".

(** The shape two operands broadcast to. *)
Fixpoint join_dims (s1 s2 : list nat) : option (list nat) :=
  match s1, s2 with
  | [], [] => Some []
  | m :: s1', n :: s2' =>
      r ← join_dims s1' s2';
      if Nat.eqb m n then Some (m :: r)
      else if Nat.eqb m 1 then Some (n :: r)
      else if Nat.eqb n 1 then Some (m :: r)
      else None
  | _, _ => None
  end.

Definition broadcast_shapes (s1 s2 : list nat) : option (list nat) :=
  let n := length s1 `max` length s2 in
  join_dims (lpad s1 n) (lpad s2 n).

(** An elementwise binary operation [a op b], with broadcasting. *)
Definition np_binop (f : F -> F -> F) (a b : ndarray) : result ndarray :=
  match broadcast_shapes (shape a) (shape b) with
  | Some s => Ok (NdArray s (zip_with f (bcast a s) (bcast b s)))
  | None => raise ValueError "operands could not be broadcast together"
  end.

(** [a += b]: in place, so [b] has to broadcast to the shape of [a]. *)
Definition np_iadd (a b : ndarray) : result ndarray :=
  if can_broadcast (shape b) (shape a)
  then Ok (NdArray (shape a) (zip_with sadd (data a) (bcast b (shape a))))
  else raise ValueError "non-broadcastable output operand".

(** An elementwise unary operation. *)
Definition np_map (f : F -> F) (a : ndarray) : ndarray :=
  NdArray (shape a) (map f (data a)).

(** [np.tanh(a)], [a ** 2], [1 - a], [a / n] for a Python int [n] *)
Definition np_tanh (a : ndarray) : ndarray := np_map stanh a.
Definition np_square (a : ndarray) : ndarray := np_map (fun x => smul x x) a.
Definition np_one_minus (a : ndarray) : ndarray := np_map (ssub s1) a.
Definition np_div_int (a : ndarray) (n : nat) : ndarray :=
  np_map (fun x => sdiv x (sof_nat n)) a.

(** An axis argument counted from the end when negative. *)
Definition normalize_axis (axis : Z) (ndim : nat) : option nat :=
  if ((- Z.of_nat ndim <=? axis) && (axis <? Z.of_nat ndim))%Z
  then Some (Z.to_nat (if (axis <? 0)%Z then axis + Z.of_nat ndim else axis))
  else None.

(** [np.expand_dims(a, axis)] *)
Definition np_expand_dims (a : ndarray) (axis : Z) : result ndarray :=
  match normalize_axis axis (S (length (shape a))) with
  | Some k => Ok (NdArray (take k (shape a) ++ 1 :: drop k (shape a)) (data a))
  | None => raise AxisError "axis is out of bounds"
  end.

(** Sum of the blocks of [d] along axis [k] of shape [s]. *)
Fixpoint sum_axis (k : nat) (s : list nat) (d : list F) : list F :=
  match s with
  | [] => d
  | n :: s' =>
      match k with
      | 0 => foldl (zip_with sadd) (replicate (numel s') s0)
                   (chunks (numel s') n d)
      | S k' => concat (map (sum_axis k' s') (chunks (numel s') n d))
      end
  end.

(** [np.sum(a, axis=axis)].  The reduction accepts the axes 0 and -1 on
    a 0-d array too, and the sum is then the number itself. *)
Definition np_sum (a : ndarray) (axis : Z) : result ndarray :=
  match normalize_axis axis (length (shape a)) with
  | Some k => Ok (NdArray (delete k (shape a)) (sum_axis k (shape a) (data a)))
  | None =>
      match shape a with
      | [] =>
          if ((axis =? 0) || (axis =? -1))%Z then Ok (NdArray [] (data a))
          else raise AxisError "axis is out of bounds"
      | _ :: _ => raise AxisError "axis is out of bounds"
      end
  end.

(** [np.mean(a, axis=axis)] *)
Definition np_mean (a : ndarray) (axis : Z) : result ndarray :=
  match normalize_axis axis (length (shape a)) with
  | Some k =>
      Ok (np_div_int (NdArray (delete k (shape a)) (sum_axis k (shape a) (data a)))
                     (nth k (shape a) 0))
  | None => raise AxisError "axis is out of bounds"
  end.

(** [s[axis]] on a tuple *)
Definition tuple_index (s : list nat) (axis : Z) : result nat :=
  match normalize_axis axis (length s) with
  | Some k => Ok (nth k s 0)
  | None => raise IndexError "tuple index out of range"
  end.

(** Position of a multi-index in row-major data, and the element there. *)
Fixpoint ravel (s idx : list nat) : nat :=
  match s, idx with
  | _ :: s', i :: idx' => i * numel s' + ravel s' idx'
  | _, _ => 0
  end.

Definition np_get (a : ndarray) (idx : list nat) : option F :=
  data a !! ravel (shape a) idx.

(** [idx] is a valid multi-index of an array of shape [s]. *)
Definition valid_index (s idx : list nat) : Prop := Forall2 lt idx s.
End NdArray.

Arguments ndarray F : clear implicits.

(** ** Values handed between [compute_grads] and [backward] *)

Section PyValues.
Context {F : Type} `{Scalar F}.

(** What [compute_grads] returns and what [backward] returns: one array,
    or a tuple of arrays. *)
Inductive grads_val :=
  | GArray (a : ndarray F)
  | GTuple (l : list (ndarray F)).

(** [np.asarray] of a tuple of arrays: the arrays stacked along a new
    first axis, when they all have one shape. *)
Definition np_stack (l : list (ndarray F)) : result (ndarray F) :=
  match l with
  | [] => Ok (NdArray [0] [])
  | a :: _ =>
      if forallb (fun b => bool_decide (shape b = shape a)) l
      then Ok (NdArray (length l :: shape a) (concat (map data l)))
      else raise ValueError "inhomogeneous shape"
  end.

(** The array operand that [dx_acc += dx] sees. *)
Definition np_asarray (v : grads_val) : result (ndarray F) :=
  match v with
  | GArray a => Ok a
  | GTuple l => np_stack l
  end.

(** [iter(v)]: the elements of a tuple, the sub-arrays along the first
    axis of an array. *)
Definition py_iter (v : grads_val) : result (list (ndarray F)) :=
  match v with
  | GTuple l => Ok l
  | GArray a =>
      match shape a with
      | [] => raise TypeError "iteration over a 0-d array"
      | n :: s' => Ok (NdArray s' <$> chunks (numel s') n (data a))
      end
  end.
End PyValues.

Arguments grads_val F : clear implicits.

(** ** The base class [Module] *)

Definition zero_grad_hint : string :=
  newline +:+ "Did you forget to call zero_grad()?".

(** [raise TypeError(e.args[0] + "\nDid you forget to call zero_grad()?")]:
    the exception that evaluating this statement raises. *)
Definition raise_with_hint (e : exn) : exn :=
  match exn_args e with
  | ArgStr m :: _ => Exn TypeError [ArgStr (m +:+ zero_grad_hint)]
  | ArgObj :: _ => Exn TypeError [ArgStr "unsupported operand type(s) for +"]
  | [] => Exn IndexError [ArgStr "tuple index out of range"]
  end.

Section ModuleProtocol.
Context {F : Type} `{Scalar F}.

(** [W] is what the methods of a subclass read and update besides the
    caches: the registered parameters and their gradients.  [Cache] is
    the type of the values a subclass caches, [Out] of its outputs. *)
Context {W Cache Out : Type}.

(** The two methods a subclass supplies. *)
Variable compute_outputs :
  list (ndarray F) -> W -> result (Out * Cache) * W.
Variable compute_grads :
  ndarray F -> Cache -> W -> result (grads_val F) * W.

(** The two methods as the base class has them:
    [raise NotImplementedError()]. *)
Definition Module_compute_outputs (inputs : list (ndarray F)) (w : W)
  : result (Out * Cache) * W :=
  (Raise (Exn NotImplementedError []), w).
Definition Module_compute_grads (grads : ndarray F) (cache : Cache) (w : W)
  : result (grads_val F) * W :=
  (Raise (Exn NotImplementedError []), w).

(** The attributes set by [Module.__init__]. *)
Record ModuleObj := MkModule {
  predicting : bool;
  _parameters : W;
  _forward_cache : list Cache;
  _shape_cache : list (list (list nat))
}.

Definition set_predicting (b : bool) (st : ModuleObj) : ModuleObj :=
  MkModule b (_parameters st) (_forward_cache st) (_shape_cache st).
Definition set_parameters (w : W) (st : ModuleObj) : ModuleObj :=
  MkModule (predicting st) w (_forward_cache st) (_shape_cache st).
Definition set_forward_cache (c : list Cache) (st : ModuleObj) : ModuleObj :=
  MkModule (predicting st) (_parameters st) c (_shape_cache st).
Definition set_shape_cache (c : list (list (list nat))) (st : ModuleObj)
  : ModuleObj :=
  MkModule (predicting st) (_parameters st) (_forward_cache st) c.

(** [Module.__init__], followed by the registrations of the subclass
    that give the registry [w]. *)
Definition Module_init (w : W) : ModuleObj := MkModule false w [] [].

Definition train (st : ModuleObj) : ModuleObj := set_predicting false st.
Definition eval (st : ModuleObj) : ModuleObj := set_predicting true st.

Definition forward (inputs : list (ndarray F)) (st : ModuleObj)
  : result Out * ModuleObj :=
  let st1 := set_shape_cache (list_append (_shape_cache st) (shape <$> inputs)) st in
  match compute_outputs inputs (_parameters st1) with
  | (Raise e, w) => (Raise e, set_parameters w st1)
  | (Ok (out, cache), w) =>
      let st2 := set_parameters w st1 in
      (Ok out, set_forward_cache (list_append (_forward_cache st2) cache) st2)
  end.

(** [Module.__call__] *)
Definition call (inputs : list (ndarray F)) (st : ModuleObj)
  : result Out * ModuleObj :=
  if predicting st
  then match compute_outputs inputs (_parameters st) with
       | (Raise e, w) => (Raise e, set_parameters w st)
       | (Ok (out, _), w) => (Ok out, set_parameters w st)
       end
  else forward inputs st.

(** [for dx_acc, dx in zip(dx_accs, dxs): dx_acc += dx] *)
Fixpoint accumulate (dx_accs : list (ndarray F)) (dxs : list (grads_val F))
  : result (list (ndarray F)) :=
  match dx_accs, dxs with
  | acc :: accs', dx :: dxs' =>
      b ← np_asarray dx;
      acc' ← np_iadd acc b;
      rest ← accumulate accs' dxs';
      mret (acc' :: rest)
  | _, _ => Ok dx_accs
  end.

(** The sequence that [zip] walks: [[dxs]] for a module with one
    input, the elements of [dxs] otherwise. *)
Definition dxs_list (shapes : list (list nat)) (dxs : grads_val F)
  : result (list (grads_val F)) :=
  if length shapes =? 1 then Ok [dxs]
  else py_iter dxs ≫= λ l : list (ndarray F), Ok (GArray <$> l).

(** The loop [for grad in grads] of [backward]. *)
Fixpoint grad_loop (shapes : list (list nat)) (cache : Cache)
    (grads : list (ndarray F)) (dx_accs : list (ndarray F)) (w : W)
  : result (list (ndarray F)) * W :=
  match grads with
  | [] => (Ok dx_accs, w)
  | grad :: grads' =>
      match compute_grads grad cache w with
      | (Raise e, w') => (Raise e, w')
      | (Ok dxs, w') =>
          match dxs_list shapes dxs ≫= accumulate dx_accs with
          | Raise e => (Raise e, w')
          | Ok dx_accs' => grad_loop shapes cache grads' dx_accs' w'
          end
      end
  end.

(** [dx_accs[0] if len(dx_accs) == 1 else dx_accs] *)
Definition backward_result (dx_accs : list (ndarray F)) : grads_val F :=
  match dx_accs with
  | [a] => GArray a
  | _ => GTuple dx_accs
  end.

(** [backward] from the [try] on: [st] is the module after the two pops
    that gave [shapes] and [cache].  The accumulators [dx_accs] are built
    between the two pops; building them changes nothing, so they are
    built here. *)
Definition backward_with (shapes : list (list nat)) (cache : Cache)
    (grads : list (ndarray F)) (st : ModuleObj)
  : result (grads_val F) * ModuleObj :=
  let dx_accs := np_zeros <$> shapes in
  match grad_loop shapes cache grads dx_accs (_parameters st) with
  | (Ok accs, w) => (Ok (backward_result accs), set_parameters w st)
  | (Raise e, w) =>
      let st' := set_parameters w st in
      if is_TypeError e then
        let st1 := set_shape_cache (list_append (_shape_cache st') shapes) st' in
        let st2 := set_forward_cache (list_append (_forward_cache st1) cache) st1 in
        (Raise (raise_with_hint e), st2)
      else (Raise e, st')
  end.

Definition backward (grads : list (ndarray F)) (st : ModuleObj)
  : result (grads_val F) * ModuleObj :=
  if predicting st
  then (raise ValueError "module not in training mode", st)
  else
    match list_pop (_shape_cache st) with
    | None => (raise IndexError "pop from empty list", st)
    | Some (shapes, sc) =>
        let st1 := set_shape_cache sc st in
        match list_pop (_forward_cache st1) with
        | None => (raise IndexError "pop from empty list", st1)
        | Some (cache, fc) =>
            backward_with shapes cache grads (set_forward_cache fc st1)
        end
    end.

(** The shape cache is pushed first and popped first: it is never the
    shorter of the two. *)
Definition caches_ordered (st : ModuleObj) : Prop :=
  length (_forward_cache st) <= length (_shape_cache st).

(** One method call on a module object.  [step_parameters] stands for
    the methods that only touch the registry and the gradients
    ([register_parameter], [deregister_parameter], [reset_parameters],
    [zero_grad] and the attribute accessors). *)
Inductive module_step : ModuleObj -> ModuleObj -> Prop :=
  | step_forward inputs st : module_step st (forward inputs st).2
  | step_backward grads st : module_step st (backward grads st).2
  | step_call inputs st : module_step st (call inputs st).2
  | step_train st : module_step st (train st)
  | step_eval st : module_step st (eval st)
  | step_parameters w st : module_step st (set_parameters w st).

(** The module objects that a freshly built module can become. *)
Definition reachable (st : ModuleObj) : Prop :=
  exists w, rtc module_step (Module_init w) st.
End ModuleProtocol.

Arguments ModuleObj W Cache : clear implicits.

(** ** The modules [Tanh], [Identity], [Sum] and [Mean] *)

Section ConcreteModules.
Context {F : Type} `{Scalar F} {W : Type}.

(** Calling [compute_outputs(self, x)] with another number of inputs. *)
Definition arity_error {A} : result A :=
  raise TypeError "compute_outputs() takes 2 positional arguments".

(** [Tanh]: the cache is the input. *)
Definition Tanh_compute_outputs (inputs : list (ndarray F)) (w : W)
  : result (ndarray F * ndarray F) * W :=
  match inputs with
  | [s] => (Ok (np_tanh s, s), w)
  | _ => (arity_error, w)
  end.

Definition Tanh_compute_grads (grads cache : ndarray F) (w : W)
  : result (grads_val F) * W :=
  (np_binop smul grads (np_one_minus (np_square (np_tanh cache)))
     ≫= λ r, Ok (GArray r), w).

(** [Identity]: the cache is [None]. *)
Definition Identity_compute_outputs (inputs : list (ndarray F)) (w : W)
  : result (ndarray F * unit) * W :=
  match inputs with
  | [s] => (Ok (s, ()), w)
  | _ => (arity_error, w)
  end.

Definition Identity_compute_grads (grads : ndarray F) (cache : unit) (w : W)
  : result (grads_val F) * W :=
  (Ok (GArray grads), w).

(** [Sum(axis)]: the cache is the shape of the input. *)
Definition Sum_compute_outputs (axis : Z) (inputs : list (ndarray F)) (w : W)
  : result (ndarray F * list nat) * W :=
  match inputs with
  | [x] => (np_sum x axis ≫= λ r, Ok (r, shape x), w)
  | _ => (arity_error, w)
  end.

Definition Sum_compute_grads (axis : Z) (grads : ndarray F)
    (shape : list nat) (w : W) : result (grads_val F) * W :=
  (np_expand_dims grads axis ≫= λ grads,
   np_broadcast_to grads shape ≫= λ r, Ok (GArray r), w).

(** [Mean(axis)] *)
Definition Mean_compute_outputs (axis : Z) (inputs : list (ndarray F)) (w : W)
  : result (ndarray F * list nat) * W :=
  match inputs with
  | [x] => (np_mean x axis ≫= λ r, Ok (r, shape x), w)
  | _ => (arity_error, w)
  end.

Definition Mean_compute_grads (axis : Z) (grads : ndarray F)
    (shape : list nat) (w : W) : result (grads_val F) * W :=
  (np_expand_dims grads axis ≫= λ grads,
   np_broadcast_to grads shape ≫= λ b,
   tuple_index shape axis ≫= λ n, Ok (GArray (np_div_int b n)), w).
End ConcreteModules.

(** ** [get_reduction] *)

(** [c.lower()] on an ASCII character. *)
Definition ascii_lower (c : Ascii.ascii) : Ascii.ascii :=
  let n := Ascii.nat_of_ascii c in
  if (65 <=? n) && (n <=? 90) then Ascii.ascii_of_nat (n + 32) else c.

(** [s.lower()] *)
Fixpoint str_lower (s : string) : string :=
  match s with
  | EmptyString => EmptyString
  | String c s' => String (ascii_lower c) (str_lower s')
  end.

(** The module that [get_reduction] builds: its class and the argument
    of its constructor. *)
Inductive reduction_module :=
  | Identity
  | Sum (axis : Z)
  | Mean (axis : Z).

(** [get_reduction(name, axis)], [name] being the string [str(name)]. *)
Definition get_reduction (name : string) (axis : Z) : result reduction_module :=
  let name := str_lower name in
  if String.eqb name "" || String.eqb name "none" then Ok Identity
  else if String.eqb name "sum" then Ok (Sum axis)
  else if String.eqb name "mean" || String.eqb name "avg"
          || String.eqb name "average" then Ok (Mean axis)
  else raise ValueError ("unknown aggregation: " +:+ name).

(** ** The class [Parameter] *)

(** Arrays are objects: [value is self._grad] compares two references.
    The heap holds the array objects; a location is an index in it. *)
Abbreviation loc := nat (only parsing).

(** A plain [np.ndarray], or a [Parameter] with its attribute [_grad]
    ([None], or a reference to the gradient array). *)
Inductive object (F : Type) :=
  | ArrayObj (a : ndarray F)
  | ParameterObj (a : ndarray F) (_grad : option loc).
Arguments ArrayObj {F} a.
Arguments ParameterObj {F} a _grad.

Abbreviation heap F := (list (object F)).

Section ParameterModel.
Context {F : Type} `{Scalar F}.

(** A value assigned to [p.grad]: [None], a reference to an array
    object, or a Python number. *)
Inductive pyvalue :=
  | PyNone
  | PyRef (l : loc)
  | PyNum (x : F).

Definition obj_array (o : object F) : ndarray F :=
  match o with
  | ArrayObj a => a
  | ParameterObj a _ => a
  end.

(** The object with new elements (an in-place update keeps the class
    and the attributes). *)
Definition set_array (o : object F) (a : ndarray F) : object F :=
  match o with
  | ArrayObj _ => ArrayObj a
  | ParameterObj _ g => ParameterObj a g
  end.

(** A new object, at the next free location. *)
Definition alloc (o : object F) (h : heap F) : loc * heap F :=
  (length h, h ++ [o]).

(** The array operand that NumPy makes of a value. *)
Definition array_of (h : heap F) (v : pyvalue) : option (ndarray F) :=
  match v with
  | PyNone => None
  | PyRef l => obj_array <$> (h !! l)
  | PyNum x => Some (np_scalar x)
  end.

(** [value is self._grad], for a gradient slot holding [g] *)
Definition is_same_object (g : loc) (value : pyvalue) : bool :=
  match value with
  | PyRef l => Nat.eqb l g
  | _ => false
  end.

(** Raised where Python cannot get: [self] is not a [Parameter], or a
    reference points outside the heap. *)
Definition bad_reference {A} : result A :=
  raise AttributeError "not a Parameter object".

(** The getter of [Parameter.grad] *)
Definition grad_get (self : loc) (h : heap F) : result pyvalue :=
  match h !! self with
  | Some (ParameterObj _ (Some g)) => Ok (PyRef g)
  | Some (ParameterObj _ None) => Ok PyNone
  | _ => bad_reference
  end.

(** The deleter of [Parameter.grad] *)
Definition grad_del (self : loc) (h : heap F) : result unit * heap F :=
  match h !! self with
  | Some (ParameterObj a _) => (Ok (), <[self := ParameterObj a None]> h)
  | _ => (bad_reference, h)
  end.

(** [Parameter.zero_grad]: [np.zeros_like(self)] is a new object of the
    class of [self], whose own [_grad] is set to [None] by
    [__array_finalize__]. *)
Definition zero_grad (self : loc) (h : heap F) : result unit * heap F :=
  match h !! self with
  | Some (ParameterObj a _) =>
      let '(g, h1) := alloc (ParameterObj (np_zeros (shape a)) None) h in
      (Ok (), <[self := ParameterObj a (Some g)]> h1)
  | _ => (bad_reference, h)
  end.

(** The setter of [Parameter.grad] *)
Definition grad_set (self : loc) (value : pyvalue) (h : heap F)
  : result unit * heap F :=
  match value with
  | PyNone => grad_del self h
  | _ =>
      match array_of h value with
      | None => (bad_reference, h)
      | Some v =>
          if np_all_eq0 v then zero_grad self h
          else
            match h !! self with
            | Some (ParameterObj _ None) =>
                (raise ValueError "Gradients have not yet been initialised!", h)
            | Some (ParameterObj _ (Some g)) =>
                if is_same_object g value then (Ok (), h)
                else
                  match h !! g with
                  | Some og =>
                      match np_iadd (obj_array og) v with
                      | Ok r => (Ok (), <[g := set_array og r]> h)
                      | Raise e => (Raise e, h)
                      end
                  | None => (bad_reference, h)
                  end
            | _ => (bad_reference, h)
            end
      end
  end.

(** A sequence of assignments [p.grad = v], stopping at the first
    exception. *)
Fixpoint grad_set_all (self : loc) (values : list pyvalue) (h : heap F)
  : result unit * heap F :=
  match values with
  | [] => (Ok (), h)
  | v :: values' =>
      match grad_set self v h with
      | (Ok _, h') => grad_set_all self values' h'
      | (Raise e, h') => (Raise e, h')
      end
  end.

(** The gradient array of the parameter at [self], when it has one. *)
Definition grad_array (self : loc) (h : heap F) : option (ndarray F) :=
  match h !! self with
  | Some (ParameterObj _ (Some g)) => obj_array <$> (h !! g)
  | _ => None
  end.

(** The gradient slot of the parameter at [self]. *)
Definition grad_slot (self : loc) (h : heap F) : option (option loc) :=
  match h !! self with
  | Some (ParameterObj _ g) => Some g
  | _ => None
  end.

(** [acc + v], [v] broadcast to the shape of [acc]: what [acc += v]
    leaves in [acc]. *)
Definition np_add_into (acc v : ndarray F) : ndarray F :=
  NdArray (shape acc) (zip_with sadd (data acc) (bcast v (shape acc))).

(** What a value contributes when it is assigned: it is an array that is
    not entirely zero, it is another object than the gradient array at
    [g], and it broadcasts to the shape [s] of the gradient. *)
Definition contributes (h : heap F) (g : loc) (s : list nat)
    (value : pyvalue) (v : ndarray F) : Prop :=
  array_of h value = Some v /\
  np_all_eq0 v = false /\
  value <> PyRef g /\
  can_broadcast (shape v) s = true.
End ParameterModel.

Arguments pyvalue F : clear implicits.

(** ** Modules and parameters over integer arrays

    The objects on which the theorems below are run. *)

Definition ex_s : ndarray Z := NdArray [3] [-2; 0; 5]%Z.
Definition ex_x : ndarray Z := NdArray [2; 3] [1; 2; 3; 4; 5; 6]%Z.
Definition ex_g : ndarray Z := NdArray [2] [10; 20]%Z.

(** A new [Module()], whose two methods are those of the base class. *)
Definition ex_module : ModuleObj unit unit := Module_init ().

(** A new [Tanh()], and a new [Sum(axis)] or [Mean(axis)]. *)
Definition ex_tanh : ModuleObj unit (ndarray Z) := Module_init ().
Definition ex_reduction : ModuleObj unit (list nat) := Module_init ().

(** [t = Tanh(); t.forward(ex_s)] *)
Definition ex_tanh_1 : ModuleObj unit (ndarray Z) :=
  (forward Tanh_compute_outputs [ex_s] ex_tanh).2.

(** [t = Tanh(); t.forward(np.array(2))], then [t.forward(a, b)], which
    raises a [TypeError] after the shapes of [a] and [b] were recorded. *)
Definition ex_tanh_2 : ModuleObj unit (ndarray Z) :=
  (forward Tanh_compute_outputs [np_scalar 1%Z; np_scalar 1%Z]
     (forward Tanh_compute_outputs [np_scalar 2%Z] ex_tanh).2).2.

(** A parameter at location 0, whose gradient array at location 1 holds
    [[1, 2]]. *)
Definition ex_grad : ndarray Z := NdArray [2] [1; 2]%Z.
Definition ex_heap : heap Z :=
  [ParameterObj (NdArray [2] [5; 6]%Z) (Some 1); ParameterObj ex_grad None].

(** ** More on results *)

#[global] Instance result_fmap : FMap result := fun A B f r =>
  match r with
  | Ok a => Ok (f a)
  | Raise e => Raise e
  end.

(** ** More on [Parameter] *)

Section ParameterMore.
Context {F : Type} `{Scalar F}.

(** The result [a] of an operation on the object [o]: a new object of
    the class of [o]; for a [Parameter], [__array_finalize__] sets its
    [_grad] to [None]. *)
Definition result_like (o : object F) (a : ndarray F) : object F :=
  match o with
  | ArrayObj _ => ArrayObj a
  | ParameterObj _ _ => ParameterObj a None
  end.

(** [p.grad = p.grad + c] for a number [c], the statement that the
    docstring of the setter warns about: the getter, the sum as a new
    array object of the class of the gradient, then the setter. *)
Definition grad_assign_plus (self : loc) (c : F) (h : heap F)
  : result unit * heap F :=
  match grad_get self h with
  | Ok (PyRef g) =>
      match h !! g with
      | Some og =>
          match np_binop sadd (obj_array og) (np_scalar c) with
          | Ok r =>
              let '(l, h1) := alloc (result_like og r) h in
              grad_set self (PyRef l) h1
          | Raise e => (Raise e, h)
          end
      | None => (bad_reference, h)
      end
  | Ok _ =>
      (raise TypeError "unsupported operand type(s) for +", h)
  | Raise e => (Raise e, h)
  end.
End ParameterMore.

(** ** The parameter registry of [Module] *)

(** [self._parameters]: a Python dict from names to [Parameter] objects.
    A dict keeps its keys in the order in which they were inserted. *)
Abbreviation pydict := (list (string * nat)).

(** [d[k]] ([None] standing for [KeyError]) *)
Fixpoint dict_get (k : string) (d : pydict) : option nat :=
  match d with
  | [] => None
  | (k', v) :: d' => if String.eqb k' k then Some v else dict_get k d'
  end.

(** [d[k] = v]: an existing key keeps its place, a new key goes last. *)
Fixpoint dict_set (k : string) (v : nat) (d : pydict) : pydict :=
  match d with
  | [] => [(k, v)]
  | (k', v') :: d' =>
      if String.eqb k' k then (k, v) :: d' else (k', v') :: dict_set k v d'
  end.

(** [d.pop(k)] ([None] standing for [KeyError]) *)
Fixpoint dict_pop (k : string) (d : pydict) : option (nat * pydict) :=
  match d with
  | [] => None
  | (k', v) :: d' =>
      if String.eqb k' k then Some (v, d')
      else '(x, r) ← dict_pop k d'; Some (x, (k', v) :: r)
  end.

(** The keys of a dict are pairwise different. *)
Definition dict_wf (d : pydict) : Prop := NoDup d.*1.

(** What NumPy makes of [None] as an element of an array of the
    element type: [nan] in an array of floats; [None] stands for the
    element types, such as the integers, where the conversion raises
    [TypeError]. *)
Class NoneValue (F : Type) := np_of_none : option F.

(** Integer arrays do not take [None]. *)
#[global] Instance Z_NoneValue : NoneValue Z := None.

(** [except KeyError] *)
Definition is_KeyError (e : exn) : bool :=
  match exn_cls e with
  | OtherError name => String.eqb name "KeyError"
  | _ => false
  end.

(** [object.__delattr__(self, name)] on a module, [attrs] being the names
    of the ordinary attributes of the instance (the keys of
    [self.__dict__]).  The class [Module] has no data descriptor: the name
    is deleted when it is one of them, and [AttributeError] is raised
    when it is not (the message is the interpreter's). *)
Definition object_delattr (cls name : string) (attrs : list string)
  : result unit * list string :=
  if bool_decide (name ∈ attrs)
  then (Ok (), filter (fun n => n <> name) attrs)
  else (raise AttributeError
          ("'" +:+ cls +:+ "' object has no attribute '" +:+ name +:+ "'"),
        attrs).

Section Registry.
Context {F : Type} `{Scalar F} `{NoneValue F}.

(** The array objects, with for each of them the buffer that holds its
    elements.  Objects on one buffer are views of one another:
    [np.asarray(a)] and [a.view(cls)] make a new object on the buffer of
    [a], and writing into one object writes into all objects on its
    buffer.  A buffer is named by the location of the object that was
    made with it. *)
Record world := World { objs : heap F; bufs : list nat }.

(** A new object with a buffer of its own. *)
Definition new_object (o : object F) (w : world) : loc * world :=
  (length (objs w), World (objs w ++ [o]) (bufs w ++ [length (objs w)])).

(** A new object on the buffer [b]. *)
Definition new_view (o : object F) (b : nat) (w : world) : loc * world :=
  (length (objs w), World (objs w ++ [o]) (bufs w ++ [b])).

(** The world after a method of [Parameter] ran on the heap: the objects
    it made have buffers of their own. *)
Definition with_heap (w : world) (h : heap F) : world :=
  World h (bufs w ++ seq (length (bufs w)) (length h - length (bufs w))).

(** Writing the array [a] into the buffer [b]. *)
Definition write_buffer (b : nat) (a : ndarray F) (w : world) : world :=
  World (zip_with (fun o b' => if Nat.eqb b' b then set_array o a else o)
                  (objs w) (bufs w))
        (bufs w).

(** What [register_parameter] accepts as values: an array object or a
    number.  ([None], for which [Parameter] makes an array of
    uninitialised memory, is left out.) *)
Inductive array_like :=
  | ALRef (l : loc)
  | ALNum (x : F).

(** [Parameter(value)]: [np.asarray(value).view(Parameter)], with [_grad]
    set to [None].  For an array object, the new parameter is a view of
    it. *)
Definition Parameter_new (value : array_like) (w : world)
  : result loc * world :=
  match value with
  | ALRef l =>
      match objs w !! l, bufs w !! l with
      | Some o, Some b =>
          let '(p, w') := new_view (ParameterObj (obj_array o) None) b w in
          (Ok p, w')
      | _, _ => (bad_reference, w)
      end
  | ALNum x =>
      let '(p, w') := new_object (ParameterObj (np_scalar x) None) w in
      (Ok p, w')
  end.

(** [Module.register_parameter] *)
Definition register_parameter (name : string) (value : array_like)
    (ps : pydict) (w : world) : result loc * pydict * world :=
  match Parameter_new value w with
  | (Ok param, w') => (Ok param, dict_set name param ps, w')
  | (Raise e, w') => (Raise e, ps, w')
  end.

(** [KeyError(name)] *)
Definition key_error {A} (name : string) : result A :=
  Raise (Exn (OtherError "KeyError") [ArgStr name]).

(** [Module.deregister_parameter]: the value returned is a plain array
    that is a view of the parameter. *)
Definition deregister_parameter (name : string) (ps : pydict) (w : world)
  : result loc * pydict * world :=
  match dict_pop name ps with
  | None => (key_error name, ps, w)
  | Some (par, ps') =>
      match objs w !! par, bufs w !! par with
      | Some o, Some b =>
          let '(l, w') := new_view (ArrayObj (obj_array o)) b w in
          (Ok l, ps', w')
      | _, _ => (bad_reference, ps', w)
      end
  end.

(** [Module.__getattr__], which Python calls for a name that is no
    ordinary attribute; [cls] is the name of the class of the module. *)
Definition getattr (cls : string) (name : string) (ps : pydict) : result loc :=
  match dict_get name ps with
  | Some par => Ok par
  | None =>
      raise AttributeError
        ("'" +:+ cls +:+ "' object has no attribute '" +:+ name +:+ "'")
  end.

(** The array that NumPy makes of a value that is assigned into an
    array: as [array_of], but [None] is converted to the element type,
    which gives [nan] in an array of floats and raises [TypeError] in an
    array of integers (the message is NumPy's). *)
Definition assigned_array (h : heap F) (value : pyvalue F)
  : result (ndarray F) :=
  match value with
  | PyNone =>
      match np_of_none with
      | Some x => Ok (np_scalar x)
      | None =>
          raise TypeError
            "int() argument must be a string, a bytes-like object or a real number, not 'NoneType'"
      end
  | _ =>
      match array_of h value with
      | Some v => Ok v
      | None => bad_reference
      end
  end.

(** [par[...] = value]: [value] is broadcast to the shape of [par] and
    written into its buffer. *)
Definition setitem_all (par : loc) (value : pyvalue F) (w : world)
  : result unit * world :=
  match objs w !! par, bufs w !! par with
  | Some o, Some b =>
      match assigned_array (objs w) value with
      | Ok v =>
          let s := shape (obj_array o) in
          if can_broadcast (shape v) s
          then (Ok (), write_buffer b (NdArray s (bcast v s)) w)
          else (raise ValueError "could not broadcast input array", w)
      | Raise e => (Raise e, w)
      end
  | _, _ => (bad_reference, w)
  end.

(** [isinstance(value, Parameter)] *)
Definition is_Parameter (value : pyvalue F) (w : world) : bool :=
  match value with
  | PyRef l =>
      match objs w !! l with
      | Some (ParameterObj _ _) => true
      | _ => false
      end
  | _ => false
  end.

(** What [Module.__setattr__] did: it assigned to a registered
    parameter, it registered a new parameter, or it handed the
    assignment over to [object.__setattr__], which is not modelled. *)
Inductive setattr_outcome :=
  | ParameterAssigned
  | ParameterRegistered (param : loc)
  | PlainAttribute.

(** [Module.__setattr__] *)
Definition setattr (name : string) (value : pyvalue F)
    (ps : pydict) (w : world) : result setattr_outcome * pydict * world :=
  match dict_get name ps with
  | None =>
      match value with
      | PyRef l =>
          if is_Parameter value w
          then match register_parameter name (ALRef l) ps w with
               | (Ok param, ps', w') => (Ok (ParameterRegistered param), ps', w')
               | (Raise e, ps', w') => (Raise e, ps', w')
               end
          else (Ok PlainAttribute, ps, w)
      | _ => (Ok PlainAttribute, ps, w)
      end
  | Some par =>
      let '(r, w1) :=
        if is_same_object par value then (Ok (), w)
        else setitem_all par value w in
      match r with
      | Raise e => (Raise e, ps, w1)
      | Ok _ =>
          match grad_del par (objs w1) with
          | (Ok _, h) => (Ok ParameterAssigned, ps, with_heap w1 h)
          | (Raise e, h) => (Raise e, ps, with_heap w1 h)
          end
      end
  end.

(** What [Module.__delattr__] did: it deregistered a parameter, or
    [object.__delattr__] deleted an ordinary attribute. *)
Inductive delattr_outcome :=
  | ParameterDeregistered (arr : loc)
  | PlainDeletion.

(** [Module.__delattr__]: [deregister_parameter], and on [KeyError]
    [object.__delattr__].  [cls] is the name of the class of the module,
    [attrs] are the names of its ordinary attributes.  (Deleting the
    attribute [_parameters] detaches the registry from the module; [ps]
    is then the dict that was attached.) *)
Definition delattr (cls name : string) (ps : pydict) (attrs : list string)
    (w : world)
  : result delattr_outcome * pydict * list string * world :=
  match deregister_parameter name ps w with
  | (Ok l, ps', w') => (Ok (ParameterDeregistered l), ps', attrs, w')
  | (Raise e, ps', w') =>
      if is_KeyError e
      then match object_delattr cls name attrs with
           | (Ok _, attrs') => (Ok PlainDeletion, ps', attrs', w')
           | (Raise e', attrs') => (Raise e', ps', attrs', w')
           end
      else (Raise e, ps', attrs, w')
  end.

(** [Module.named_parameters] and [Module.parameters], as the lists of
    what they yield. *)
Definition named_parameters (ps : pydict) : list (string * loc) := ps.
Definition parameters (ps : pydict) : list loc := (named_parameters ps).*2.

(** [Module.zero_grad]: [param.zero_grad()] for every parameter. *)
Fixpoint zero_grad_all (params : list loc) (w : world) : result unit * world :=
  match params with
  | [] => (Ok (), w)
  | param :: params' =>
      match zero_grad param (objs w) with
      | (Ok _, h) => zero_grad_all params' (with_heap w h)
      | (Raise e, h) => (Raise e, with_heap w h)
      end
  end.

Definition Module_zero_grad (ps : pydict) (w : world) : result unit * world :=
  zero_grad_all (parameters ps) w.

(** [Module.reset_parameters]: [self.__setattr__(name, 0)] for every
    name. *)
Fixpoint setattr_all (names : list string) (value : pyvalue F)
    (ps : pydict) (w : world) : result unit * pydict * world :=
  match names with
  | [] => (Ok (), ps, w)
  | name :: names' =>
      match setattr name value ps w with
      | (Ok _, ps', w') => setattr_all names' value ps' w'
      | (Raise e, ps', w') => (Raise e, ps', w')
      end
  end.

Definition reset_parameters (ps : pydict) (w : world)
  : result unit * pydict * world :=
  setattr_all (named_parameters ps).*1 (PyNum s0) ps w.

(** The world is well formed: every object has a buffer, buffers are
    named by locations of the heap, and the objects on one buffer hold
    the same array. *)
Definition world_wf (w : world) : Prop :=
  length (bufs w) = length (objs w) /\
  Forall (fun b => b < length (objs w)) (bufs w) /\
  forall l1 l2 o1 o2 b,
    objs w !! l1 = Some o1 -> objs w !! l2 = Some o2 ->
    bufs w !! l1 = Some b -> bufs w !! l2 = Some b ->
    obj_array o1 = obj_array o2.

(** Every registered name stands for a [Parameter] object of the heap. *)
Definition registry_wf (ps : pydict) (w : world) : Prop :=
  Forall (fun l => exists a g, objs w !! l = Some (ParameterObj a g)) ps.*2.

(** The array of the parameter registered under [name]. *)
Definition param_array (name : string) (ps : pydict) (w : world)
  : option (ndarray F) :=
  l ← dict_get name ps; obj_array <$> (objs w !! l).

(** The gradient slot of the parameter registered under [name]. *)
Definition param_grad_slot (name : string) (ps : pydict) (w : world)
  : option (option loc) :=
  dict_get name ps ≫= fun l => grad_slot l (objs w).

(** What one step of [reset_parameters] leaves of an object: its class,
    an array of its shape that is the one it held or zeros, and the
    gradient slot it had or none. *)
Definition reset_of (o o' : object F) : Prop :=
  (obj_array o' = obj_array o \/
   obj_array o' = np_zeros (shape (obj_array o))) /\
  match o with
  | ArrayObj _ => exists a', o' = ArrayObj a'
  | ParameterObj _ g => exists a' g', o' = ParameterObj a' g' /\ (g' = g \/ g' = None)
  end.

End Registry.

Arguments world F : clear implicits.
Arguments array_like F : clear implicits.

(** ** [LossFunction] and [MSE] *)

(** The type of what a reduction module caches: [None] for [Identity],
    the shape of its input for [Sum] and [Mean]. *)
Definition red_cache (r : reduction_module) : Type :=
  match r with
  | Identity => unit
  | Sum _ | Mean _ => list nat
  end.

Section LossFunctions.
Context {F : Type} `{Scalar F} {W Cache : Type}.

(** The two methods of the module that [get_reduction] built.  The
    reduction modules register no parameter: their registry is [()]. *)
Definition reduction_compute_outputs (r : reduction_module)
  : list (ndarray F) -> unit -> result (ndarray F * red_cache r) * unit :=
  match r with
  | Identity => Identity_compute_outputs
  | Sum axis => Sum_compute_outputs axis
  | Mean axis => Mean_compute_outputs axis
  end.

Definition reduction_compute_grads (r : reduction_module)
  : ndarray F -> red_cache r -> unit -> result (grads_val F) * unit :=
  match r with
  | Identity => Identity_compute_grads
  | Sum axis => Sum_compute_grads axis
  | Mean axis => Mean_compute_grads axis
  end.

(** The reduction that the constructor got from [get_reduction]. *)
Variable r : reduction_module.

(** The two methods of a loss class.  [compute_grads] of every loss
    class of the file ([LossFunction], [LogitCrossEntropy], [MSE]) makes
    no use of its argument [grads]; [loss_grads] is that method without
    this argument. *)
Variable loss_outputs :
  list (ndarray F) -> W -> result (ndarray F * Cache) * W.
Variable loss_grads : Cache -> W -> result (grads_val F) * W.

(** A loss object: the attributes of [Module], [disable_target_grads]
    and the reduction module. *)
Record LossObj := MkLoss {
  loss_base : ModuleObj W Cache;
  disable_target_grads : bool;
  reduction : ModuleObj unit (red_cache r)
}.

Definition set_loss_base (b : ModuleObj W Cache) (st : LossObj) : LossObj :=
  MkLoss b (disable_target_grads st) (reduction st).
Definition set_reduction (m : ModuleObj unit (red_cache r)) (st : LossObj)
  : LossObj :=
  MkLoss (loss_base st) (disable_target_grads st) m.

(** [LossFunction.__init__], once [get_reduction] has returned [r] *)
Definition LossFunction_init (target_grads : bool) (w : W) : LossObj :=
  MkLoss (Module_init w) (negb target_grads) (Module_init ()).

(** [train] and [eval] are those of [Module]: they set [predicting] of
    the loss object, not of its reduction module. *)
Definition Loss_train (st : LossObj) : LossObj :=
  set_loss_base (train (loss_base st)) st.
Definition Loss_eval (st : LossObj) : LossObj :=
  set_loss_base (eval (loss_base st)) st.

(** [LossFunction.forward] *)
Definition Loss_forward (predictions targets : ndarray F) (st : LossObj)
  : result (ndarray F) * LossObj :=
  match forward loss_outputs [predictions; targets] (loss_base st) with
  | (Raise e, b) => (Raise e, set_loss_base b st)
  | (Ok out, b) =>
      let '(res, m) :=
        forward (reduction_compute_outputs r) [out] (reduction st) in
      (res, set_reduction m (set_loss_base b st))
  end.

(** [LossFunction.__call__] *)
Definition Loss_call (predictions targets : ndarray F) (st : LossObj)
  : result (ndarray F) * LossObj :=
  if predicting (loss_base st)
  then
    match loss_outputs [predictions; targets] (_parameters (loss_base st)) with
    | (Raise e, w) => (Raise e, set_loss_base (set_parameters w (loss_base st)) st)
    | (Ok (out, _), w) =>
        let st' := set_loss_base (set_parameters w (loss_base st)) st in
        match reduction_compute_outputs r [out] (_parameters (reduction st)) with
        | (Raise e, u) =>
            (Raise e, set_reduction (set_parameters u (reduction st)) st')
        | (Ok (res, _), u) =>
            (Ok res, set_reduction (set_parameters u (reduction st)) st')
        end
    end
  else Loss_forward predictions targets st.

(** The gradient that [super().backward(grad)] hands to [compute_grads],
    which does not look at it: the array, and for a tuple a stand-in. *)
Definition grad_argument (v : grads_val F) : ndarray F :=
  match v with
  | GArray a => a
  | GTuple _ => np_scalar s0
  end.

(** [LossFunction.backward] *)
Definition Loss_backward (grads : list (ndarray F)) (st : LossObj)
  : result (grads_val F) * LossObj :=
  match backward (reduction_compute_grads r) grads (reduction st) with
  | (Raise e, m) => (Raise e, set_reduction m st)
  | (Ok grad, m) =>
      let '(res, b) :=
        backward (fun _ => loss_grads) [grad_argument grad] (loss_base st) in
      (res, set_loss_base b (set_reduction m st))
  end.
End LossFunctions.

Arguments LossObj W Cache r : clear implicits.
Arguments MkLoss {W Cache r} loss_base disable_target_grads reduction.
Arguments loss_base {W Cache r} l.
Arguments disable_target_grads {W Cache r} l.
Arguments reduction {W Cache r} l.
Arguments set_loss_base {W Cache r} b st.
Arguments set_reduction {W Cache r} m st.

Section MSELoss.
Context {F : Type} `{Scalar F} {W : Type}.

(** The cache of [MSE]: the dict with the keys ['targets'] and
    ['logits']. *)
Record MSE_cache := MkMSECache {
  cache_targets : ndarray F;
  cache_logits : ndarray F
}.

(** [a * x] for a Python float [a] *)
Definition np_scale (c : F) (a : ndarray F) : ndarray F := np_map (smul c) a.

Definition MSE_compute_outputs (inputs : list (ndarray F)) (w : W)
  : result (ndarray F * MSE_cache) * W :=
  match inputs with
  | [logits; targets] =>
      (np_binop ssub logits targets ≫= fun d =>
       Ok (np_square d, MkMSECache targets logits), w)
  | _ => (arity_error, w)
  end.

(** [float(2/cache['logits'].shape[0])] *)
Definition MSE_factor (logits : ndarray F) : result F :=
  tuple_index (shape logits) 0 ≫= fun n =>
  if Nat.eqb n 0
  then Raise (Exn (OtherError "ZeroDivisionError") [ArgStr "division by zero"])
  else Ok (sdiv (sof_nat 2) (sof_nat n)).

(** [MSE.compute_grads]: [grads] is not used. *)
Definition MSE_compute_grads (cache : MSE_cache) (w : W)
  : result (grads_val F) * W :=
  (MSE_factor (cache_logits cache) ≫= fun c1 =>
   np_binop ssub (cache_logits cache) (cache_targets cache) ≫= fun d1 =>
   let dlogits := np_scale c1 d1 in
   MSE_factor (cache_logits cache) ≫= fun c2 =>
   np_binop ssub (cache_logits cache) (cache_targets cache) ≫= fun d2 =>
   let dtargets := np_scale c2 d2 in
   Ok (GTuple [dlogits; dtargets]), w).
End MSELoss.

Arguments MSE_cache F : clear implicits.


(** ** [CachedDownload] (the file [data-checkpoint.py])

    The parts of the class that compute: the URL that [__init__] builds,
    the loop of [_read_file] and [__len__].  Opening the URL and the file
    is outside the model; a file open for reading is the list of the
    bytes not read yet. *)

(** The character [/]. *)
Definition slash : Ascii.ascii := Ascii.ascii_of_nat 47.

(** [s.rstrip('/')] *)
Fixpoint rstrip_slash (s : string) : string :=
  match s with
  | EmptyString => EmptyString
  | String c s' =>
      match rstrip_slash s' with
      | EmptyString =>
          if Ascii.eqb c slash then EmptyString else String c EmptyString
      | t => String c t
      end
  end.

(** The last character of a string, if it has one. *)
Fixpoint str_last (s : string) : option Ascii.ascii :=
  match s with
  | EmptyString => None
  | String c s' =>
      match str_last s' with
      | None => Some c
      | Some c' => Some c'
      end
  end.

(** [self.url = '/'.join([base_url.rstrip('/'), file_name])] *)
Definition CachedDownload_url (base_url file_name : string) : string :=
  rstrip_slash base_url +:+ "/" +:+ file_name.

(** [fp.read(n)] on a file opened in binary mode: the bytes read and the
    bytes left.  The size -1 reads to the end of the file; a size below -1
    raises [ValueError] (the message is the interpreter's). *)
Definition file_read (n : Z) (content : list Byte.byte)
  : result (list Byte.byte * list Byte.byte) :=
  if (n <? -1)%Z
  then raise ValueError "read length must be non-negative or -1"
  else if (n <? 0)%Z then Ok (content, [])
  else Ok (take (Z.to_nat n) content, drop (Z.to_nat n) content).

(** What running the generator [_read_file] to its end gives, as
    [list(self._read_file())] does: the chunks it yields, or the
    exception it raises.  [chunk = fp.read(block_size)], then
    [while chunk:] yield it and read again.  [None]: the fuel ran out
    before the loop ended. *)
Fixpoint read_file_loop (fuel : nat) (block_size : Z)
    (content : list Byte.byte) : option (result (list (list Byte.byte))) :=
  match fuel with
  | 0 => None
  | S fuel' =>
      match file_read block_size content with
      | Raise e => Some (Raise e)
      | Ok (chunk, rest) =>
          match chunk with
          | [] => Some (Ok [])
          | _ :: _ =>
              match read_file_loop fuel' block_size rest with
              | Some (Ok chunks) => Some (Ok (chunk :: chunks))
              | Some (Raise e) => Some (Raise e)
              | None => None
              end
          end
      end
  end.

(** [__len__], [content_length] being the integer that [int] made of
    the header.  Python's [//] rounds down, as [Z.div] does for a positive
    divisor, and raises for the divisor 0 (the message is the
    interpreter's). *)
Definition CachedDownload_len (content_length block_size : Z) : result Z :=
  if (block_size =? 0)%Z
  then Raise (Exn (OtherError "ZeroDivisionError")
                [ArgStr "integer division or modulo by zero"])
  else Ok (1 + (content_length - 1) / block_size)%Z.

(** ** More example objects *)

(** [i = Identity(); i.forward(ex_s)] *)
Definition ex_identity_1 : ModuleObj unit unit :=
  (forward Identity_compute_outputs [ex_s] ex_module).2.

(** Predictions and targets for two samples, and an [MSE] seen as a plain
    module after [forward] on them. *)
Definition ex_logits : ndarray Z := NdArray [2] [5; 6]%Z.
Definition ex_targets : ndarray Z := NdArray [2] [1; 4]%Z.
Definition ex_mse_1 : ModuleObj unit (MSE_cache Z) :=
  (forward MSE_compute_outputs [ex_logits; ex_targets] (Module_init ())).2.

(** An [MSE] module whose last [forward] was on two numbers. *)
Definition ex_mse_0d : ModuleObj unit (MSE_cache Z) :=
  (forward MSE_compute_outputs [np_scalar 2%Z; np_scalar 1%Z] (Module_init ())).2.

(** [MSE(reduction='mean')], new. *)
Definition ex_loss : LossObj unit (MSE_cache Z) (Mean 0) :=
  LossFunction_init (Mean 0) false ().

(** An array at location 0 and the parameter at location 1 that
    [register_parameter("w", array)] made of it: a view of the array. *)
Definition ex_world : world Z :=
  World [ArrayObj ex_logits] [0].
Definition ex_world_1 : world Z :=
  World [ArrayObj ex_logits; ParameterObj ex_logits None] [0; 0].
Definition ex_registry : pydict := [("w", 1)].

(** The ordinary attributes that [Module.__init__] sets. *)
Definition ex_attrs : list string :=
  ["predicting"; "_parameters"; "_forward_cache"; "_shape_cache"].

(** The five bytes of a cached file. *)
Definition ex_content : list Byte.byte :=
  [Byte.x01; Byte.x02; Byte.x03; Byte.x04; Byte.x05].
(** * Properties *)

#[global] Instance Z_ScalarLaws : ScalarLaws Z.
Proof. split; intros x; simpl; lia. Qed.

(** ** Stacks *)

Lemma list_pop_snoc {A} (l : list A) (x : A) :
  list_pop (l ++ [x]) = Some (x, l).
Proof.
  induction l as [|y l IH]; simpl; [done|]. by rewrite IH.
Qed.

Lemma list_pop_Some {A} (l r : list A) (x : A) :
  list_pop l = Some (x, r) -> l = r ++ [x].
Proof.
  revert r x. induction l as [|y l IH]; intros r x; simpl; [done|].
  destruct (list_pop l) as [[z r']|] eqn:E.
  - intros [= <- <-]. simpl. f_equal. by apply IH.
  - intros [= <- <-]. destruct l as [|z l]; [done|].
    simpl in E. by destruct (list_pop l) as [[? ?]|].
Qed.

Lemma list_pop_None {A} (l : list A) : list_pop l = None -> l = [].
Proof.
  destruct l as [|x l]; [done|]. simpl.
  by destruct (list_pop l) as [[? ?]|].
Qed.

(** ** The caching protocol of [Module] *)

Section ModuleTheory.
Context {F : Type} `{Scalar F} {W Cache Out : Type}.
Variable compute_outputs :
  list (ndarray F) -> W -> result (Out * Cache) * W.
Variable compute_grads :
  ndarray F -> Cache -> W -> result (grads_val F) * W.

Abbreviation forward := (forward compute_outputs).
Abbreviation backward := (backward compute_grads).
Abbreviation backward_with := (backward_with compute_grads).
Abbreviation module_obj := (ModuleObj W Cache).

(** What a call of [forward] does to the module, by the outcome of
    [compute_outputs]. *)
Lemma forward_Ok inputs (st : module_obj) out cache w :
  compute_outputs inputs (_parameters st) = (Ok (out, cache), w) ->
  forward inputs st =
    (Ok out, MkModule (predicting st) w (_forward_cache st ++ [cache])
                      (_shape_cache st ++ [shape <$> inputs])).
Proof. intros E. unfold forward. simpl. by rewrite E. Qed.

Lemma forward_Raise inputs (st : module_obj) e w :
  compute_outputs inputs (_parameters st) = (Raise e, w) ->
  forward inputs st =
    (Raise e, MkModule (predicting st) w (_forward_cache st)
                       (_shape_cache st ++ [shape <$> inputs])).
Proof. intros E. unfold forward. simpl. by rewrite E. Qed.

Lemma forward_inv inputs (st : module_obj) out st' :
  forward inputs st = (Ok out, st') ->
  exists cache w,
    compute_outputs inputs (_parameters st) = (Ok (out, cache), w) /\
    st' = MkModule (predicting st) w (_forward_cache st ++ [cache])
                   (_shape_cache st ++ [shape <$> inputs]).
Proof.
  destruct (compute_outputs inputs (_parameters st)) as [[[o c]|e] w] eqn:E.
  - rewrite (forward_Ok _ _ _ _ _ E). intros [= <- <-]. by exists c, w.
  - by rewrite (forward_Raise _ _ _ _ E).
Qed.

(** [backward] on a module whose caches end with [shapes] and [cache]. *)
Lemma backward_top grads (st : module_obj) sc fc shapes cache :
  predicting st = false ->
  _shape_cache st = sc ++ [shapes] ->
  _forward_cache st = fc ++ [cache] ->
  backward grads st =
    backward_with shapes cache grads
      (MkModule false (_parameters st) fc sc).
Proof.
  intros Hp Hs Hf. unfold backward. rewrite Hp, Hs, list_pop_snoc. simpl.
  rewrite Hf, list_pop_snoc. unfold set_forward_cache, set_shape_cache.
  simpl. by rewrite Hp.
Qed.

(** The outcomes of [backward_with]: the caches of the module are left
    as they are, or the popped entries are put back. *)
Lemma backward_with_caches shapes cache grads (st : module_obj) r st' :
  backward_with shapes cache grads st = (r, st') ->
  predicting st' = predicting st /\
  ((_shape_cache st' = _shape_cache st /\
    _forward_cache st' = _forward_cache st) \/
   ((exists e, r = Raise e) /\
    _shape_cache st' = _shape_cache st ++ [shapes] /\
    _forward_cache st' = _forward_cache st ++ [cache])).
Proof.
  unfold backward_with.
  destruct (grad_loop _ _ _ _ _ _) as [[accs|e] w].
  - intros [= <- <-]. simpl. auto.
  - destruct (is_TypeError e); intros [= <- <-]; simpl; eauto 10.
Qed.

Lemma backward_with_Ok_caches shapes cache grads (st : module_obj) r st' :
  backward_with shapes cache grads st = (Ok r, st') ->
  _shape_cache st' = _shape_cache st /\
  _forward_cache st' = _forward_cache st.
Proof.
  intros E. destruct (backward_with_caches _ _ _ _ _ _ E) as [_ [?|[[e ?] _]]];
    [done|discriminate].
Qed.

Lemma backward_inv grads (st : module_obj) r st' :
  predicting st = false ->
  backward grads st = (Ok r, st') ->
  exists shapes cache,
    _shape_cache st = _shape_cache st' ++ [shapes] /\
    _forward_cache st = _forward_cache st' ++ [cache] /\
    backward_with shapes cache grads
      (MkModule false (_parameters st) (_forward_cache st')
                (_shape_cache st')) = (Ok r, st').
Proof.
  intros Hp E.
  assert (Hb := E). unfold backward in Hb. rewrite Hp in Hb.
  destruct (list_pop (_shape_cache st)) as [[shapes sc]|] eqn:Es;
    [|discriminate].
  simpl in Hb.
  destruct (list_pop (_forward_cache st)) as [[cache fc]|] eqn:Ef;
    [|discriminate].
  apply list_pop_Some in Es. apply list_pop_Some in Ef.
  rewrite (backward_top _ _ _ _ _ _ Hp Es Ef) in E.
  destruct (backward_with_Ok_caches _ _ _ _ _ _ E) as [Hs Hf].
  simpl in Hs, Hf. subst sc fc. by exists shapes, cache.
Qed.

(** A [backward] right after a successful [forward]. *)
Lemma forward_then_backward inputs out grads (st st1 : module_obj) :
  predicting st = false ->
  forward inputs st = (Ok out, st1) ->
  exists cache,
    last (_forward_cache st1) = Some cache /\
    backward grads st1 =
      backward_with (shape <$> inputs) cache grads
        (MkModule false (_parameters st1) (_forward_cache st)
                  (_shape_cache st)) /\
    forall r st2,
      backward grads st1 = (Ok r, st2) ->
      _shape_cache st2 = _shape_cache st /\
      _forward_cache st2 = _forward_cache st /\
      predicting st2 = false.
Proof.
  intros Hp E.
  destruct (forward_inv _ _ _ _ E) as (cache & w & _ & ->).
  exists cache. simpl. split; [apply last_snoc|].
  assert (Hb : backward grads
            (MkModule (predicting st) w (_forward_cache st ++ [cache])
               (_shape_cache st ++ [shape <$> inputs])) =
          backward_with (shape <$> inputs) cache grads
            (MkModule false w (_forward_cache st) (_shape_cache st))).
  { by apply backward_top. }
  split; [done|].
  intros r st2 E2. rewrite Hb in E2.
  destruct (backward_with_caches _ _ _ _ _ _ E2) as [Hp2 _].
  apply backward_with_Ok_caches in E2 as [? ?]. done.
Qed.

(** [backward] on a module whose caches end with [shapes] and [cache],
    by the outcome of the loop over the gradients. *)
Lemma backward_by_loop grads (st : module_obj) sc fc shapes cache :
  predicting st = false ->
  _shape_cache st = sc ++ [shapes] ->
  _forward_cache st = fc ++ [cache] ->
  backward grads st =
    match grad_loop compute_grads shapes cache grads (np_zeros <$> shapes) (_parameters st) with
    | (Ok accs, w) => (Ok (backward_result accs), MkModule false w fc sc)
    | (Raise e, w) =>
        if is_TypeError e
        then (Raise (raise_with_hint e),
              MkModule false w (fc ++ [cache]) (sc ++ [shapes]))
        else (Raise e, MkModule false w fc sc)
    end.
Proof.
  intros Hp Hs Hf. rewrite (backward_top _ _ _ _ _ _ Hp Hs Hf).
  unfold backward_with. simpl.
  destruct (grad_loop _ _ _ _ _ _) as [[accs|e] w]; [done|].
  by destruct (is_TypeError e).
Qed.

(** C1: in training mode, [forward] succeeds exactly when
    [compute_outputs] does, and then appends exactly one entry to the
    shape cache (the shapes of its inputs) and one to the forward cache
    (the cache that [compute_outputs] returned).  [backward] on a module
    whose caches end with [shapes] and [cache] succeeds when the loop over
    the gradients does, and then removes exactly the last entry of each
    cache, whatever lies below; every successful [backward] is of this
    kind.  So a [backward] that follows a [forward] computes from the
    shapes and the cache which that [forward] recorded and leaves both
    caches as they were before it; and after two calls of [forward] and
    one [backward], the caches hold the entry of the first [forward]
    again and the next [backward] works on it. *)
Theorem forward_backward_lifo (st : module_obj) :
  predicting st = false ->
  (forall inputs out cache w,
     compute_outputs inputs (_parameters st) = (Ok (out, cache), w) ->
     forward inputs st =
       (Ok out, MkModule false w (_forward_cache st ++ [cache])
                         (_shape_cache st ++ [shape <$> inputs]))) /\
  (forall inputs out st',
     forward inputs st = (Ok out, st') ->
     exists cache w,
       compute_outputs inputs (_parameters st) = (Ok (out, cache), w) /\
       _shape_cache st' = _shape_cache st ++ [shape <$> inputs] /\
       _forward_cache st' = _forward_cache st ++ [cache] /\
       predicting st' = false) /\
  (forall sc fc shapes cache grads accs w,
     _shape_cache st = sc ++ [shapes] ->
     _forward_cache st = fc ++ [cache] ->
     grad_loop compute_grads shapes cache grads (np_zeros <$> shapes) (_parameters st)
       = (Ok accs, w) ->
     backward grads st =
       (Ok (backward_result accs), MkModule false w fc sc)) /\
  (forall grads r st',
     backward grads st = (Ok r, st') ->
     exists shapes cache,
       _shape_cache st = _shape_cache st' ++ [shapes] /\
       _forward_cache st = _forward_cache st' ++ [cache] /\
       backward_with shapes cache grads
         (MkModule false (_parameters st) (_forward_cache st')
                   (_shape_cache st')) = (Ok r, st')) /\
  (forall inputs out cache w grads accs w',
     compute_outputs inputs (_parameters st) = (Ok (out, cache), w) ->
     grad_loop compute_grads (shape <$> inputs) cache grads
       (np_zeros <$> (shape <$> inputs)) w = (Ok accs, w') ->
     backward grads (forward inputs st).2 =
       (Ok (backward_result accs),
        MkModule false w' (_forward_cache st) (_shape_cache st))) /\
  (forall inputs1 out1 cache1 w1 inputs2 out2 cache2 w2 grads2 accs2 w3 grads1,
     compute_outputs inputs1 (_parameters st) = (Ok (out1, cache1), w1) ->
     compute_outputs inputs2 w1 = (Ok (out2, cache2), w2) ->
     grad_loop compute_grads (shape <$> inputs2) cache2 grads2
       (np_zeros <$> (shape <$> inputs2)) w2 = (Ok accs2, w3) ->
     let st2 := (forward inputs2 (forward inputs1 st).2).2 in
     backward grads2 st2 =
       (Ok (backward_result accs2),
        MkModule false w3 (_forward_cache st ++ [cache1])
                 (_shape_cache st ++ [shape <$> inputs1])) /\
     backward grads1 (backward grads2 st2).2 =
       backward_with (shape <$> inputs1) cache1 grads1
         (MkModule false w3 (_forward_cache st) (_shape_cache st))).
Proof.
  intros Hp.
  assert (Hfw : forall inputs out cache w,
    compute_outputs inputs (_parameters st) = (Ok (out, cache), w) ->
    forward inputs st =
      (Ok out, MkModule false w (_forward_cache st ++ [cache])
                        (_shape_cache st ++ [shape <$> inputs]))).
  { intros inputs out cache w E.
    by rewrite (forward_Ok _ _ _ _ _ E), Hp. }
  split; [exact Hfw|]. split.
  { intros inputs out st' E.
    destruct (forward_inv _ _ _ _ E) as (cache & w & Hc & ->).
    by exists cache, w. }
  split.
  { intros sc fc shapes cache grads accs w Hs Hf Hl.
    by rewrite (backward_by_loop _ _ _ _ _ _ Hp Hs Hf), Hl. }
  split.
  { intros grads r st' E. by apply backward_inv. }
  split.
  { intros inputs out cache w grads accs w' E Hl.
    rewrite (Hfw _ _ _ _ E). cbn [snd].
    by erewrite backward_by_loop; [|done|reflexivity|reflexivity];
      cbn [_parameters]; rewrite Hl. }
  intros inputs1 out1 cache1 w1 inputs2 out2 cache2 w2 grads2 accs2 w3 grads1
    E1 E2 Hl st2.
  assert (Hb2 : backward grads2 st2 =
    (Ok (backward_result accs2),
     MkModule false w3 (_forward_cache st ++ [cache1])
              (_shape_cache st ++ [shape <$> inputs1]))).
  { unfold st2. rewrite (Hfw _ _ _ _ E1). cbn [snd].
    erewrite forward_Ok by (cbn [_parameters]; exact E2). cbn [snd].
    by erewrite backward_by_loop; [|done|reflexivity|reflexivity];
      cbn [_parameters]; rewrite Hl. }
  split; [exact Hb2|].
  rewrite Hb2. cbn [snd]. by apply backward_top.
Qed.

(** *** Errors in [forward] and [backward] *)

Lemma backward_empty grads (st : module_obj) :
  predicting st = false ->
  _shape_cache st = [] ->
  backward grads st = (raise IndexError "pop from empty list", st).
Proof. intros Hp Hs. unfold backward. by rewrite Hp, Hs. Qed.

(** C2: in training mode, [backward] on a module whose two caches are
    empty raises [IndexError: pop from empty list] and leaves the module as
    it is; in particular, after one [forward] on such a module and one
    successful [backward], a second [backward] raises that error. *)
Theorem backward_without_forward_underflow grads (st : module_obj) :
  predicting st = false ->
  _shape_cache st = [] ->
  _forward_cache st = [] ->
  backward grads st = (raise IndexError "pop from empty list", st) /\
  (forall inputs out st1 grads1 r st2,
     forward inputs st = (Ok out, st1) ->
     backward grads1 st1 = (Ok r, st2) ->
     backward grads st2 = (raise IndexError "pop from empty list", st2)).
Proof.
  intros Hp Hs Hf. split; [by apply backward_empty|].
  intros inputs out st1 grads1 r st2 E1 E2.
  destruct (forward_then_backward inputs out grads1 st st1 Hp E1)
    as (cache & _ & _ & Hok).
  destruct (Hok r st2 E2) as (Hs2 & _ & Hp2).
  apply backward_empty; congruence.
Qed.

(** C3 (amended): in training mode, with an entry on top of each cache,
    when the loop over the incoming gradients fails with a [TypeError]
    whose first argument is a string [m], [backward] puts the popped shapes
    and cache back, so that both caches hold exactly what they held before
    the call, and raises a [TypeError] whose message is [m] followed by the
    hint about [zero_grad]. *)
Theorem backward_TypeError_restores grads (st : module_obj)
    sc fc shapes cache e w m rest :
  predicting st = false ->
  _shape_cache st = sc ++ [shapes] ->
  _forward_cache st = fc ++ [cache] ->
  grad_loop compute_grads shapes cache grads (np_zeros <$> shapes)
            (_parameters st) = (Raise e, w) ->
  is_TypeError e = true ->
  exn_args e = ArgStr m :: rest ->
  exists st',
    backward grads st =
      (Raise (Exn TypeError [ArgStr (m +:+ zero_grad_hint)]), st') /\
    _shape_cache st' = _shape_cache st /\
    _forward_cache st' = _forward_cache st /\
    predicting st' = predicting st /\
    _parameters st' = w.
Proof.
  intros Hp Hs Hf Hloop Hty Hargs.
  rewrite (backward_top _ _ _ _ _ _ Hp Hs Hf).
  unfold backward_with. simpl. rewrite Hloop, Hty.
  unfold raise_with_hint. rewrite Hargs.
  eexists. split; [reflexivity|]. simpl. by rewrite Hs, Hf, Hp.
Qed.

Lemma module_step_ordered (st st' : module_obj) :
  module_step compute_outputs compute_grads st st' ->
  caches_ordered st -> caches_ordered st'.
Proof.
  unfold caches_ordered.
  assert (Hfw : forall inputs (s : module_obj),
    length (_forward_cache s) <= length (_shape_cache s) ->
    length (_forward_cache (forward inputs s).2) <=
    length (_shape_cache (forward inputs s).2)).
  { intros inputs s Hle.
    destruct (compute_outputs inputs (_parameters s)) as [[[o c]|e] w] eqn:E.
    - rewrite (forward_Ok _ _ _ _ _ E). simpl. rewrite !length_app. simpl. lia.
    - rewrite (forward_Raise _ _ _ _ E). simpl. rewrite !length_app. simpl. lia. }
  intros Hstep Hle.
  destruct Hstep as [inputs st|grads st|inputs st|st|st|w st]; [..|done].
  - by apply Hfw.
  - unfold backward. destruct (predicting st); [done|].
    destruct (list_pop (_shape_cache st)) as [[shapes sc]|] eqn:Es; [|done].
    simpl.
    destruct (list_pop (_forward_cache st)) as [[cache fc]|] eqn:Ef;
      [|apply list_pop_None in Ef; simpl; rewrite Ef; simpl; lia].
    apply list_pop_Some in Es. apply list_pop_Some in Ef.
    rewrite Es, Ef, !length_app in Hle. simpl in Hle.
    destruct (backward_with shapes cache grads _) as [r st'] eqn:E.
    apply backward_with_caches in E as [_ [[Hs' Hf']|(_ & Hs' & Hf')]];
      simpl in *; rewrite Hs', Hf'.
    + lia.
    + rewrite !length_app. simpl. lia.
  - unfold call. destruct (predicting st); [|by apply Hfw].
    by destruct (compute_outputs inputs (_parameters st)) as [[[o c]|e] w].
  - done.
  - done.
Qed.

Lemma reachable_ordered (st : module_obj) :
  reachable compute_outputs compute_grads st -> caches_ordered st.
Proof.
  intros [w Hrtc]. revert st Hrtc. apply rtc_ind_r.
  - unfold caches_ordered. simpl. lia.
  - intros y z _ Hstep IH. by apply (module_step_ordered y z).
Qed.

(** C9: when [compute_outputs] raises inside [forward], the exception
    leaves [forward] with the shapes of the inputs appended to the shape
    cache and the forward cache untouched; on any module object that
    method calls can produce the two caches then differ in length. *)
Theorem forward_not_atomic inputs (st : module_obj) e w :
  reachable compute_outputs compute_grads st ->
  predicting st = false ->
  compute_outputs inputs (_parameters st) = (Raise e, w) ->
  exists st',
    forward inputs st = (Raise e, st') /\
    _shape_cache st' = _shape_cache st ++ [shape <$> inputs] /\
    _forward_cache st' = _forward_cache st /\
    length (_shape_cache st') <> length (_forward_cache st').
Proof.
  intros Hr _ E. apply reachable_ordered in Hr. unfold caches_ordered in Hr.
  rewrite (forward_Raise _ _ _ _ E). eexists. split; [reflexivity|].
  simpl. rewrite length_app. simpl. repeat split. lia.
Qed.
End ModuleTheory.


(** ** Selecting a reduction by name *)

(** C8 (amended): with [n] the lower-cased name, [get_reduction] builds
    [Identity] when [n] is empty or ['none'], [Sum] when [n] is ['sum'],
    [Mean] when [n] is ['mean'], ['avg'] or ['average'], and for every
    other name raises the [ValueError] "unknown aggregation: n"; so the
    names ['none'], ['sum'] and ['mean'] select [Identity], [Sum] and
    [Mean]. *)
Theorem get_reduction_by_name (name : string) (axis : Z) :
  let n := str_lower name in
  (n = "" \/ n = "none" -> get_reduction name axis = Ok Identity) /\
  (n = "sum" -> get_reduction name axis = Ok (Sum axis)) /\
  (n = "mean" \/ n = "avg" \/ n = "average" ->
   get_reduction name axis = Ok (Mean axis)) /\
  (n <> "" -> n <> "none" -> n <> "sum" ->
   n <> "mean" -> n <> "avg" -> n <> "average" ->
   get_reduction name axis =
     raise ValueError ("unknown aggregation: " +:+ n)) /\
  get_reduction "none" axis = Ok Identity /\
  get_reduction "sum" axis = Ok (Sum axis) /\
  get_reduction "mean" axis = Ok (Mean axis).
Proof.
  intros n. unfold get_reduction. fold n.
  repeat match goal with
         | |- _ /\ _ => split
         end; try reflexivity.
  - intros [-> | ->]; reflexivity.
  - intros ->; reflexivity.
  - intros [-> | [-> | ->]]; reflexivity.
  - intros H1 H2 H3 H4 H5 H6.
    repeat match goal with
           | |- context [String.eqb n ?s] =>
               destruct (String.eqb_spec n s); [congruence|]
           end.
    reflexivity.
Qed.


(** ** Gradient accumulation in [Parameter] *)

Section ParameterTheory.
Context {F : Type} `{Scalar F}.

Implicit Types (h : heap F) (o og : object F) (v : ndarray F)
  (value : pyvalue F) (self g l : loc).

Lemma obj_array_set_array o v : obj_array (set_array o v) = v.
Proof. by destruct o. Qed.

Lemma set_array_set_array o v v' :
  set_array (set_array o v) v' = set_array o v'.
Proof. by destruct o. Qed.

Lemma set_array_obj_array o : set_array o (obj_array o) = o.
Proof. by destruct o. Qed.

Lemma grad_slot_Some self h a (slot : option loc) :
  h !! self = Some (ParameterObj a slot) -> grad_slot self h = Some slot.
Proof. unfold grad_slot. by intros ->. Qed.

Lemma grad_slot_inv self h (slot : option loc) :
  grad_slot self h = Some slot ->
  exists a, h !! self = Some (ParameterObj a slot).
Proof.
  unfold grad_slot. destruct (h !! self) as [[a|a g']|]; try done.
  intros [= <-]. by exists a.
Qed.

(** An in-place update of the gradient array keeps every gradient slot. *)
Lemma grad_slot_insert_set_array self g h og v :
  h !! g = Some og ->
  grad_slot self (<[g := set_array og v]> h) = grad_slot self h.
Proof.
  intros Hg. unfold grad_slot. destruct (decide (self = g)) as [->|Hne].
  - rewrite list_lookup_insert_eq by (by eapply lookup_lt_Some).
    rewrite Hg. by destruct og.
  - by rewrite list_lookup_insert_ne.
Qed.

Lemma array_of_insert_ne h g o value :
  value <> PyRef g -> array_of (<[g := o]> h) value = array_of h value.
Proof.
  intros Hne. destruct value as [|l|x]; simpl; try done.
  rewrite list_lookup_insert_ne; [done|congruence].
Qed.

Lemma is_same_object_true g value :
  is_same_object g value = true <-> value = PyRef g.
Proof.
  destruct value as [|l|x]; simpl; try (split; [done|congruence]).
  rewrite Nat.eqb_eq. split; congruence.
Qed.

Lemma is_same_object_false g value :
  is_same_object g value = false <-> value <> PyRef g.
Proof.
  rewrite <- is_same_object_true. by destruct (is_same_object g value).
Qed.

(** The setter on a value that is neither [None] nor entirely zero. *)
Lemma grad_set_nonzero self value h v :
  array_of h value = Some v ->
  np_all_eq0 v = false ->
  grad_set self value h =
    match h !! self with
    | Some (ParameterObj _ None) =>
        (raise ValueError "Gradients have not yet been initialised!", h)
    | Some (ParameterObj _ (Some g)) =>
        if is_same_object g value then (Ok (), h)
        else
          match h !! g with
          | Some og =>
              match np_iadd (obj_array og) v with
              | Ok r => (Ok (), <[g := set_array og r]> h)
              | Raise e => (Raise e, h)
              end
          | None => (bad_reference, h)
          end
    | _ => (bad_reference, h)
    end.
Proof.
  intros Hv Hnz. unfold grad_set. rewrite Hv, Hnz.
  by destruct value.
Qed.

Lemma np_iadd_Ok (a b : ndarray F) :
  can_broadcast (shape b) (shape a) = true ->
  np_iadd a b = Ok (np_add_into a b).
Proof. unfold np_iadd. by intros ->. Qed.

Lemma np_iadd_Raise (a b : ndarray F) :
  can_broadcast (shape b) (shape a) = false ->
  np_iadd a b = raise ValueError "non-broadcastable output operand".
Proof. unfold np_iadd. by intros ->. Qed.

(** The setter accumulating another object into the gradient array. *)
Lemma grad_set_accumulate self value h g og v :
  grad_slot self h = Some (Some g) ->
  h !! g = Some og ->
  array_of h value = Some v ->
  np_all_eq0 v = false ->
  value <> PyRef g ->
  can_broadcast (shape v) (shape (obj_array og)) = true ->
  grad_set self value h =
    (Ok (), <[g := set_array og (np_add_into (obj_array og) v)]> h).
Proof.
  intros Hs Hg Hv Hnz Hne Hbc. apply grad_slot_inv in Hs as [a Hs].
  rewrite (grad_set_nonzero _ _ _ _ Hv Hnz), Hs.
  apply is_same_object_false in Hne. rewrite Hne, Hg.
  by rewrite np_iadd_Ok.
Qed.

(** C4 (amended): assigning [None] clears the gradient slot; assigning a
    value that is entirely zero sets the slot to a new zero array of the
    shape of the parameter; assigning a value that is not entirely zero
    to a parameter whose slot is [None] raises the [ValueError] asking for
    initialisation and changes nothing; otherwise a value that is another
    object than the gradient array and broadcasts to its shape is added
    in place into the gradient array, whereas assigning the gradient array
    itself changes nothing and a value that does not broadcast raises a
    [ValueError] and changes nothing. *)
Theorem grad_setter_by_cases self value h a (slot : option loc) :
  h !! self = Some (ParameterObj a slot) ->
  (value = PyNone ->
   exists h',
     grad_set self value h = (Ok (), h') /\
     h' = <[self := ParameterObj a None]> h /\
     grad_slot self h' = Some None) /\
  (forall v,
     array_of h value = Some v -> np_all_eq0 v = true ->
     exists h',
       grad_set self value h = (Ok (), h') /\
       h' = <[self := ParameterObj a (Some (length h))]>
              (h ++ [ParameterObj (np_zeros (shape a)) None]) /\
       grad_slot self h' = Some (Some (length h)) /\
       grad_array self h' = Some (np_zeros (shape a))) /\
  (forall v,
     array_of h value = Some v -> np_all_eq0 v = false -> slot = None ->
     grad_set self value h =
       (raise ValueError "Gradients have not yet been initialised!", h)) /\
  (forall v g og,
     array_of h value = Some v -> np_all_eq0 v = false ->
     slot = Some g -> h !! g = Some og ->
     (value = PyRef g -> grad_set self value h = (Ok (), h)) /\
     (value <> PyRef g ->
      can_broadcast (shape v) (shape (obj_array og)) = true ->
      exists h',
        grad_set self value h = (Ok (), h') /\
        h' = <[g := set_array og (np_add_into (obj_array og) v)]> h /\
        grad_slot self h' = Some (Some g) /\
        grad_array self h' = Some (np_add_into (obj_array og) v)) /\
     (value <> PyRef g ->
      can_broadcast (shape v) (shape (obj_array og)) = false ->
      grad_set self value h =
        (raise ValueError "non-broadcastable output operand", h))).
Proof.
  intros Hself.
  assert (Hlt : self < length h) by (by eapply lookup_lt_Some).
  split; [|split; [|split]].
  - intros ->. eexists. simpl. unfold grad_del. rewrite Hself.
    split; [reflexivity|]. split; [reflexivity|].
    unfold grad_slot. by rewrite list_lookup_insert_eq.
  - intros v Hv Hz. eexists.
    assert (Hset : grad_set self value h = zero_grad self h).
    { unfold grad_set. rewrite Hv, Hz. destruct value; try done. }
    rewrite Hset. unfold zero_grad, alloc. rewrite Hself.
    split; [reflexivity|]. split; [reflexivity|].
    assert (Hlt' : self < length (h ++ [ParameterObj (np_zeros (shape a)) None])).
    { rewrite length_app. simpl. lia. }
    unfold grad_slot, grad_array.
    rewrite list_lookup_insert_eq by done. split; [done|].
    rewrite list_lookup_insert_ne by lia.
    rewrite lookup_app_r by lia. by rewrite Nat.sub_diag.
  - intros v Hv Hnz ->. by rewrite (grad_set_nonzero _ _ _ _ Hv Hnz), Hself.
  - intros v g og Hv Hnz -> Hg.
    rewrite (grad_set_nonzero _ _ _ _ Hv Hnz), Hself, Hg.
    split; [|split].
    + intros Heq. apply is_same_object_true in Heq. by rewrite Heq.
    + intros Hne Hbc. apply is_same_object_false in Hne. rewrite Hne.
      rewrite np_iadd_Ok by done. eexists.
      split; [reflexivity|]. split; [reflexivity|].
      assert (Hs' : grad_slot self
                (<[g := set_array og (np_add_into (obj_array og) v)]> h) =
              Some (Some g)).
      { rewrite grad_slot_insert_set_array by done.
        by eapply grad_slot_Some. }
      split; [done|].
      unfold grad_array. apply grad_slot_inv in Hs' as [a' ->].
      rewrite list_lookup_insert_eq by (by eapply lookup_lt_Some).
      simpl. by rewrite obj_array_set_array.
    + intros Hne Hbc. apply is_same_object_false in Hne. rewrite Hne.
      by rewrite np_iadd_Raise.
Qed.
Lemma shape_np_add_into (acc v : ndarray F) :
  shape (np_add_into acc v) = shape acc.
Proof. done. Qed.

Lemma shape_foldl_np_add_into (vs : list (ndarray F)) (acc : ndarray F) :
  shape (foldl np_add_into acc vs) = shape acc.
Proof.
  revert acc. induction vs as [|v vs IH]; intros acc; simpl; [done|].
  by rewrite IH.
Qed.

(** A run of accumulating assignments adds every value, in order, into
    the one gradient array. *)
Lemma grad_set_all_accumulate self g values vs : forall h og,
  grad_slot self h = Some (Some g) ->
  h !! g = Some og ->
  Forall2 (contributes h g (shape (obj_array og))) values vs ->
  grad_set_all self values h =
    (Ok (), <[g := set_array og (foldl np_add_into (obj_array og) vs)]> h).
Proof.
  revert vs. induction values as [|value values IH]; intros vs h og Hs Hg Hall.
  - apply Forall2_nil_inv_l in Hall as ->. simpl.
    by rewrite set_array_obj_array, list_insert_id.
  - apply Forall2_cons_inv_l in Hall as (v & vs' & Hc & Hall & ->).
    destruct Hc as (Hv & Hnz & Hne & Hbc). simpl.
    rewrite (grad_set_accumulate self value h g og v) by done.
    set (og1 := set_array og (np_add_into (obj_array og) v)).
    rewrite (IH vs' (<[g := og1]> h) og1).
    + unfold og1. rewrite list_insert_insert_eq.
      by rewrite set_array_set_array, obj_array_set_array.
    + unfold og1. by rewrite grad_slot_insert_set_array.
    + apply list_lookup_insert_eq. by eapply lookup_lt_Some.
    + unfold og1. rewrite obj_array_set_array, shape_np_add_into.
      eapply Forall2_impl; [exact Hall|].
      intros value' v' (Hv' & Hnz' & Hne' & Hbc').
      repeat split; try done. by rewrite array_of_insert_ne.
Qed.

(** C5 (amended): on a parameter with an initialised gradient, assigning
    a value that is neither [None] nor entirely zero keeps the same
    gradient array object in the slot, and leaves in it either what it
    held or what it held plus the value; and a run of such assignments,
    of values that are other objects than the gradient array and broadcast
    to its shape, leaves the gradient equal to what it held plus all the
    assigned values, added in order. *)
Theorem grad_only_accumulates self h g og :
  grad_slot self h = Some (Some g) ->
  h !! g = Some og ->
  (forall value v,
     array_of h value = Some v -> np_all_eq0 v = false ->
     exists r h',
       grad_set self value h = (r, h') /\
       grad_slot self h' = Some (Some g) /\
       (grad_array self h' = Some (obj_array og) \/
        r = Ok () /\
        grad_array self h' = Some (np_add_into (obj_array og) v))) /\
  (forall values vs,
     Forall2 (contributes h g (shape (obj_array og))) values vs ->
     exists h',
       grad_set_all self values h = (Ok (), h') /\
       grad_slot self h' = Some (Some g) /\
       grad_array self h' = Some (foldl np_add_into (obj_array og) vs)).
Proof.
  intros Hs Hg.
  assert (Hga : grad_array self h = Some (obj_array og)).
  { unfold grad_array. apply grad_slot_inv in Hs as [a ->]. by rewrite Hg. }
  assert (Hupd : forall v',
    grad_slot self (<[g := set_array og v']> h) = Some (Some g) /\
    grad_array self (<[g := set_array og v']> h) = Some v').
  { intros v'.
    assert (Hs' : grad_slot self (<[g := set_array og v']> h) = Some (Some g)).
    { by rewrite grad_slot_insert_set_array. }
    split; [done|]. unfold grad_array.
    apply grad_slot_inv in Hs' as [a' ->].
    rewrite list_lookup_insert_eq by (by eapply lookup_lt_Some).
    simpl. by rewrite obj_array_set_array. }
  split.
  - intros value v Hv Hnz.
    rewrite (grad_set_nonzero _ _ _ _ Hv Hnz).
    destruct (grad_slot_inv _ _ _ Hs) as [a Hself]. rewrite Hself.
    destruct (is_same_object g value); [by eauto 10|].
    rewrite Hg. unfold np_iadd.
    destruct (can_broadcast _ _); [|by eauto 10].
    destruct (Hupd (np_add_into (obj_array og) v)) as [? ?].
    do 2 eexists. split; [reflexivity|]. eauto.
  - intros values vs Hall.
    rewrite (grad_set_all_accumulate self g values vs h og) by done.
    destruct (Hupd (foldl np_add_into (obj_array og) vs)) as [? ?].
    eauto.
Qed.

(** C10: on a parameter whose gradient is initialised and not entirely
    zero, [p.grad] is a reference to the gradient array, and assigning it
    back with [p.grad = p.grad] returns normally with the heap, and so the
    gradient, exactly as it was. *)
Theorem grad_self_assignment_is_identity self h a g og :
  h !! self = Some (ParameterObj a (Some g)) ->
  h !! g = Some og ->
  np_all_eq0 (obj_array og) = false ->
  grad_get self h = Ok (PyRef g) /\
  grad_set self (PyRef g) h = (Ok (), h) /\
  grad_array self (grad_set self (PyRef g) h).2 = Some (obj_array og).
Proof.
  intros Hself Hg Hnz.
  assert (Hset : grad_set self (PyRef g) h = (Ok (), h)).
  { rewrite (grad_set_nonzero self (PyRef g) h (obj_array og)); [|by simpl; rewrite Hg|done].
    rewrite Hself. simpl. by rewrite Nat.eqb_refl. }
  split; [|split].
  - unfold grad_get. by rewrite Hself.
  - done.
  - rewrite Hset. simpl. unfold grad_array. by rewrite Hself, Hg.
Qed.
End ParameterTheory.


(** ** Arrays: blocks, broadcasting and indexing *)

Section ArrayTheory.
Context {F : Type} `{Scalar F}.

Implicit Types (d c : list F) (s src dst idx : list nat).

Lemma length_chunks k m d : length (chunks k m d) = m.
Proof. revert d. induction m as [|m IH]; intros d; simpl; [done|]. by rewrite IH. Qed.

Lemma Forall_length_chunks k m d :
  m * k <= length d -> Forall (fun c => length c = k) (chunks k m d).
Proof.
  revert d. induction m as [|m IH]; intros d Hle; simpl; constructor.
  - rewrite length_take. lia.
  - apply IH. rewrite length_drop. lia.
Qed.

Lemma concat_chunks k m d : length d = m * k -> concat (chunks k m d) = d.
Proof.
  revert d. induction m as [|m IH]; intros d Hlen; simpl.
  - by destruct d.
  - rewrite IH; [apply take_drop|]. rewrite length_drop. lia.
Qed.

Lemma lookup_chunks k m d i :
  i < m -> chunks k m d !! i = Some (take k (drop (i * k) d)).
Proof.
  revert d i. induction m as [|m IH]; intros d i Hlt; [lia|].
  destruct i as [|i]; simpl; [done|].
  rewrite IH by lia. by rewrite drop_drop.
Qed.

Lemma length_concat_uniform (ls : list (list F)) k :
  Forall (fun c => length c = k) ls -> length (concat ls) = length ls * k.
Proof.
  induction 1 as [|c ls Hc _ IH]; simpl; [done|].
  rewrite length_app, IH, Hc. lia.
Qed.

Lemma lookup_concat_uniform (ls : list (list F)) k i j :
  Forall (fun c => length c = k) ls ->
  j < k ->
  concat ls !! (i * k + j) = ls !! i ≫= (fun c => c !! j).
Proof.
  intros Hall Hj. revert i. induction Hall as [|c ls Hc _ IH]; intros i.
  - simpl. by rewrite !lookup_nil.
  - destruct i as [|i]; simpl.
    + rewrite lookup_app_l by lia. done.
    + rewrite lookup_app_r by lia.
      replace (k + i * k + j - length c) with (i * k + j) by lia.
      apply IH.
Qed.

Lemma numel_cons n s : numel (n :: s) = n * numel s.
Proof. done. Qed.

(** Shapes that broadcast to themselves. *)
Lemma lpad_same s : lpad s (length s) = s.
Proof. unfold lpad. by rewrite Nat.sub_diag. Qed.

Lemma dims_compatible_refl s : dims_compatible s s = true.
Proof. induction s as [|n s IH]; simpl; [done|]. by rewrite Nat.eqb_refl, IH. Qed.

Lemma can_broadcast_refl s : can_broadcast s s = true.
Proof.
  unfold can_broadcast. rewrite lpad_same, dims_compatible_refl.
  by rewrite Nat.leb_refl.
Qed.

Lemma join_dims_refl s : join_dims s s = Some s.
Proof. induction s as [|n s IH]; simpl; [done|]. by rewrite IH, Nat.eqb_refl. Qed.

Lemma broadcast_shapes_refl s : broadcast_shapes s s = Some s.
Proof.
  unfold broadcast_shapes. rewrite Nat.max_id, lpad_same. apply join_dims_refl.
Qed.

Lemma dims_compatible_length src dst :
  dims_compatible src dst = true -> length src = length dst.
Proof.
  revert dst. induction src as [|m src IH]; intros [|n dst]; simpl; try done.
  intros [_ ?]%andb_true_iff. f_equal. by apply IH.
Qed.

(** Broadcasting fills the target shape. *)
Lemma length_bcast_data src dst d :
  dims_compatible src dst = true ->
  length d = numel src ->
  length (bcast_data src dst d) = numel dst.
Proof.
  revert dst d. induction src as [|m src IH]; intros [|n dst] d; simpl; try done.
  intros [Hmn Hc]%andb_true_iff Hlen.
  destruct (Nat.eqb_spec m n) as [->|Hne].
  - rewrite (length_concat_uniform _ (numel dst)).
    + by rewrite length_map, length_chunks.
    + apply Forall_fmap. eapply Forall_impl.
      * apply Forall_length_chunks. lia.
      * intros c Hlc. simpl. by apply IH.
  - rewrite (length_concat_uniform _ (numel dst)).
    + by rewrite length_replicate.
    + apply Forall_replicate. apply IH; [done|].
      destruct (Nat.eqb_spec m 1) as [->|]; [lia|done].
Qed.

(** Broadcasting to the own shape copies the data. *)
Lemma bcast_data_same s d : length d = numel s -> bcast_data s s d = d.
Proof.
  revert d. induction s as [|n s IH]; intros d Hlen; simpl; [done|].
  rewrite Nat.eqb_refl.
  rewrite <- (concat_chunks (numel s) n d) at 2 by (simpl in Hlen; lia).
  f_equal. rewrite <- (map_id (chunks (numel s) n d)) at 2.
  apply map_ext_Forall. eapply Forall_impl.
  - apply (Forall_length_chunks (numel s) n d). simpl in Hlen. lia.
  - intros c Hc. by apply IH.
Qed.

Lemma bcast_same (a : ndarray F) :
  wf_array a -> bcast a (shape a) = data a.
Proof. intros Hwf. unfold bcast. rewrite lpad_same. by apply bcast_data_same. Qed.

Lemma ravel_lt s idx : valid_index s idx -> ravel s idx < numel s.
Proof.
  unfold valid_index. intros Hv. induction Hv as [|i n idx s Hi _ IH]; simpl.
  - lia.
  - fold (numel s). nia.
Qed.

Lemma expand_shape k s :
  k < length s ->
  take k (delete k s) ++ 1 :: drop k (delete k s) = <[k := 1]> s.
Proof.
  revert s. induction k as [|k IH]; intros [|n s] Hlt; simpl in *; try lia.
  - by rewrite drop_0.
  - f_equal. apply IH. lia.
Qed.

Lemma numel_insert_1 k s :
  k < length s -> numel (<[k := 1]> s) = numel (delete k s).
Proof.
  revert s. induction k as [|k IH]; intros [|n s] Hlt; simpl in *; try lia.
  fold (numel (<[k := 1]> s)) (numel (delete k s)). rewrite IH; lia.
Qed.

Lemma dims_compatible_insert_1 k s : dims_compatible (<[k := 1]> s) s = true.
Proof.
  revert s. induction k as [|k IH]; intros [|n s]; simpl; try done.
  - by rewrite dims_compatible_refl, orb_true_r.
  - by rewrite Nat.eqb_refl, IH.
Qed.

(** Broadcasting along an axis of length one: the element at a
    multi-index of the target is the source element at the same
    multi-index without its coordinate on that axis. *)
Lemma lookup_bcast_data_insert_1 k : forall s d idx,
  k < length s ->
  valid_index s idx ->
  length d = numel (delete k s) ->
  bcast_data (<[k := 1]> s) s d !! ravel s idx =
  d !! ravel (delete k s) (delete k idx).
Proof.
  induction k as [|k IH]; intros [|n s] d idx Hlt Hv Hlen;
    simpl in Hlt; try lia;
    apply Forall2_cons_inv_r in Hv as (i & idx' & Hi & Hv & ->).
  - simpl in Hlen. cbn -[Nat.eqb chunks numel Nat.mul].
    assert (Hj := ravel_lt _ _ Hv).
    destruct (Nat.eqb_spec 1 n) as [<-|Hne].
    + simpl. rewrite take_ge by lia. rewrite bcast_data_same by done.
      rewrite app_nil_r. replace i with 0 by lia. by rewrite Nat.add_0_l.
    + rewrite bcast_data_same by done.
      rewrite (lookup_concat_uniform _ (numel s));
        [|by apply Forall_replicate|done].
      by rewrite lookup_replicate_2.
  - cbn -[Nat.eqb chunks numel Nat.mul]. rewrite Nat.eqb_refl.
    change (length d = n * numel (delete k s)) in Hlen.
    assert (Hj := ravel_lt _ _ Hv).
    assert (Hv' : valid_index (delete k s) (delete k idx'))
      by (by apply Forall2_delete).
    assert (Hj' := ravel_lt _ _ Hv').
    rewrite numel_insert_1 by lia.
    rewrite (lookup_concat_uniform _ (numel s)); [| |done].
    + rewrite list_lookup_fmap, lookup_chunks by done. simpl.
      rewrite IH; [|lia|done|rewrite length_take, length_drop; nia].
      rewrite lookup_take_lt by done. by rewrite lookup_drop.
    + apply Forall_fmap. eapply Forall_impl.
      * apply Forall_length_chunks. lia.
      * intros c Hc. simpl. apply length_bcast_data.
        -- apply dims_compatible_insert_1.
        -- by rewrite numel_insert_1 by lia.
Qed.

Lemma zip_with_replicate_l (f : F -> F -> F) (z : F) n d :
  (forall x, f z x = x) -> length d <= n ->
  zip_with f (replicate n z) d = d.
Proof.
  intros Hf. revert n. induction d as [|x d IH]; intros n Hle.
  - by destruct n.
  - destruct n as [|n]; simpl in *; [lia|]. rewrite Hf, IH; [done|lia].
Qed.

Lemma wf_np_zeros s : wf_array (np_zeros s).
Proof. unfold wf_array. simpl. apply length_replicate. Qed.

Lemma wf_np_ones s : wf_array (np_ones s).
Proof. unfold wf_array. simpl. apply length_replicate. Qed.

Lemma wf_np_map (f : F -> F) (a : ndarray F) :
  wf_array a -> wf_array (np_map f a).
Proof. unfold wf_array. simpl. by rewrite length_map. Qed.

(** Adding an array of its shape into a zero accumulator gives the array. *)
Lemma np_iadd_zeros `{!ScalarLaws F} (r : ndarray F) :
  wf_array r -> np_iadd (np_zeros (shape r)) r = Ok r.
Proof.
  intros Hwf. unfold np_iadd. simpl. rewrite can_broadcast_refl.
  rewrite bcast_same by done.
  rewrite zip_with_replicate_l; [by destruct r|apply sadd_0_l|].
  by rewrite Hwf.
Qed.

(** Multiplying by an array of ones of the same shape gives the array. *)
Lemma np_mul_ones `{!ScalarLaws F} (a : ndarray F) :
  wf_array a -> np_binop smul (np_ones (shape a)) a = Ok a.
Proof.
  intros Hwf. unfold np_binop. simpl. rewrite broadcast_shapes_refl.
  rewrite (bcast_same a) by done.
  replace (bcast (np_ones (shape a)) (shape a)) with (data (np_ones (shape a)))
    by (symmetry; apply (bcast_same (np_ones (shape a))), wf_np_ones).
  simpl. rewrite zip_with_replicate_l; [by destruct a|apply smul_1_l|].
  by rewrite Hwf.
Qed.
(** A Python number broadcasts to every shape. *)
Lemma numel_replicate_1 n : numel (replicate n 1) = 1.
Proof. induction n as [|n IH]; simpl; [done|]. fold (numel (replicate n 1)). lia. Qed.

Lemma concat_replicate_replicate (x : F) n m :
  concat (replicate n (replicate m x)) = replicate (n * m) x.
Proof.
  induction n as [|n IH]; simpl; [done|]. by rewrite IH, replicate_add.
Qed.

Lemma bcast_data_scalar s (x : F) :
  bcast_data (replicate (length s) 1) s [x] = replicate (numel s) x.
Proof.
  induction s as [|n s IH]; [done|].
  cbn -[Nat.eqb chunks numel Nat.mul]. rewrite numel_replicate_1.
  destruct (Nat.eqb_spec 1 n) as [<-|Hne].
  - simpl. rewrite IH, app_nil_r. fold (numel s). f_equal. lia.
  - by rewrite IH, concat_replicate_replicate.
Qed.

Lemma bcast_np_scalar s (x : F) :
  bcast (np_scalar x) s = replicate (numel s) x.
Proof.
  unfold bcast, lpad. simpl. rewrite Nat.sub_0_r, app_nil_r.
  apply bcast_data_scalar.
Qed.

Lemma join_dims_ones_l s : join_dims (replicate (length s) 1) s = Some s.
Proof.
  induction s as [|n s IH]; [done|].
  cbn -[Nat.eqb]. rewrite IH. cbn -[Nat.eqb].
  destruct (Nat.eqb_spec 1 n) as [<-|Hne]; [done|].
  by rewrite Nat.eqb_refl.
Qed.

Lemma broadcast_shapes_scalar_l s : broadcast_shapes [] s = Some s.
Proof.
  unfold broadcast_shapes, lpad. simpl.
  rewrite Nat.sub_0_r, Nat.sub_diag, app_nil_r. apply join_dims_ones_l.
Qed.

(** Multiplying by the number one gives the array. *)
Lemma np_mul_one_scalar `{!ScalarLaws F} (a : ndarray F) :
  wf_array a -> np_binop smul (np_scalar s1) a = Ok a.
Proof.
  intros Hwf. unfold np_binop. simpl. rewrite broadcast_shapes_scalar_l.
  rewrite bcast_np_scalar, (bcast_same a) by done.
  rewrite zip_with_replicate_l; [by destruct a|apply smul_1_l|].
  by rewrite Hwf.
Qed.
End ArrayTheory.


(** ** [Tanh], [Sum] and [Mean] through [forward] and [backward] *)

Section ConcreteTheory.
Context {F : Type} `{Scalar F} `{!ScalarLaws F} {W : Type}.

(** [backward] of a module with one input, when [compute_grads] returns
    one array of the shape of that input. *)
Lemma backward_with_one_input {Cache : Type}
    (compute_grads : ndarray F -> Cache -> W -> result (grads_val F) * W)
    (s : list nat) (cache : Cache) (g r : ndarray F)
    (st : ModuleObj W Cache) (w : W) :
  compute_grads g cache (_parameters st) = (Ok (GArray r), w) ->
  shape r = s ->
  wf_array r ->
  backward_with compute_grads [s] cache [g] st =
    (Ok (GArray r), set_parameters w st).
Proof.
  intros Hcg <- Hwf. unfold backward_with. simpl. rewrite Hcg. simpl.
  by rewrite np_iadd_zeros.
Qed.

(** A [forward] on one input followed by a [backward] on one gradient,
    for a module in training mode whose two methods succeed. *)
Lemma forward_backward_one_input {Cache : Type}
    (compute_outputs :
       list (ndarray F) -> W -> result (ndarray F * Cache) * W)
    (compute_grads : ndarray F -> Cache -> W -> result (grads_val F) * W)
    (x g out r : ndarray F) (cache : Cache) (st : ModuleObj W Cache) :
  predicting st = false ->
  compute_outputs [x] (_parameters st) = (Ok (out, cache), _parameters st) ->
  compute_grads g cache (_parameters st) = (Ok (GArray r), _parameters st) ->
  shape r = shape x ->
  wf_array r ->
  exists st1,
    forward compute_outputs [x] st = (Ok out, st1) /\
    _shape_cache st1 = _shape_cache st ++ [[shape x]] /\
    _forward_cache st1 = _forward_cache st ++ [cache] /\
    backward compute_grads [g] st1 = (Ok (GArray r), st).
Proof.
  intros Hp Hco Hcg Hs Hwf. eexists.
  rewrite (forward_Ok _ _ _ _ _ _ Hco). split; [reflexivity|]. simpl.
  split; [done|]. split; [done|].
  erewrite backward_top; [|done|reflexivity|reflexivity]. simpl.
  erewrite backward_with_one_input; [|exact Hcg|done|done].
  destruct st; simpl in *. by subst.
Qed.

(** C6: for every array [s], [forward] of [Tanh] on [s] followed by
    [backward] with a gradient of ones of the shape of [s], or with the
    number one as gradient, returns the array of the shape of [s] whose
    elements are [1 - tanh(x) * tanh(x)] for the elements [x] of [s], and
    leaves the module as it was. *)
Theorem tanh_backward_ones (s : ndarray F) (st : ModuleObj W (ndarray F)) :
  predicting st = false ->
  wf_array s ->
  let ds := NdArray (shape s)
              (map (fun x => ssub s1 (smul (stanh x) (stanh x))) (data s)) in
  exists st1,
    forward Tanh_compute_outputs [s] st = (Ok (np_tanh s), st1) /\
    backward Tanh_compute_grads [np_ones (shape s)] st1 = (Ok (GArray ds), st) /\
    backward Tanh_compute_grads [np_scalar s1] st1 = (Ok (GArray ds), st).
Proof.
  intros Hp Hwf ds.
  set (r := np_one_minus (np_square (np_tanh s))).
  assert (Hr : wf_array r) by (by do 3 apply wf_np_map).
  assert (Hds : r = ds).
  { unfold r, ds, np_one_minus, np_square, np_tanh, np_map. simpl.
    by rewrite !map_map. }
  destruct (forward_backward_one_input Tanh_compute_outputs Tanh_compute_grads
              s (np_ones (shape s)) (np_tanh s) r s st)
    as (st1 & Hf & _ & _ & Hb); try done.
  { unfold Tanh_compute_grads. fold r.
    change (shape s) with (shape r). by rewrite np_mul_ones. }
  destruct (forward_backward_one_input Tanh_compute_outputs Tanh_compute_grads
              s (np_scalar s1) (np_tanh s) r s st)
    as (st1' & Hf' & _ & _ & Hb'); try done.
  { unfold Tanh_compute_grads. fold r. by rewrite np_mul_one_scalar. }
  assert (st1' = st1) as -> by congruence.
  exists st1. rewrite <- Hds. done.
Qed.

Lemma normalize_axis_lt axis n k :
  normalize_axis axis n = Some k -> k < n.
Proof.
  unfold normalize_axis.
  destruct (_ && _) eqn:E; [|done]. intros [= <-].
  apply andb_true_iff in E as [?%Z.leb_le ?%Z.ltb_lt].
  destruct (Z.ltb_spec axis 0); lia.
Qed.

(** The gradient of a reduction has one axis less than its input: the
    axis that [expand_dims] puts back is the axis that was reduced. *)
Lemma np_expand_dims_reduced (g : ndarray F) axis k s :
  normalize_axis axis (length s) = Some k ->
  shape g = delete k s ->
  np_expand_dims g axis = Ok (NdArray (<[k := 1]> s) (data g)).
Proof.
  intros Hax Hs. assert (Hk := normalize_axis_lt _ _ _ Hax).
  unfold np_expand_dims. rewrite Hs, length_delete by (apply lookup_lt_is_Some; lia).
  replace (S (length s - 1)) with (length s) by lia.
  rewrite Hax. by rewrite expand_shape.
Qed.

Lemma can_broadcast_insert_1 k s : can_broadcast (<[k := 1]> s) s = true.
Proof.
  unfold can_broadcast. rewrite length_insert, Nat.leb_refl. simpl.
  rewrite <- (length_insert s k 1) at 1. rewrite lpad_same.
  apply dims_compatible_insert_1.
Qed.

(** What [Sum.compute_grads] returns on the gradient of its output. *)
Lemma Sum_compute_grads_reduced (g : ndarray F) axis k s (w : W) :
  normalize_axis axis (length s) = Some k ->
  shape g = delete k s ->
  Sum_compute_grads axis g s w =
    (Ok (GArray (NdArray s (bcast_data (<[k := 1]> s) s (data g)))), w).
Proof.
  intros Hax Hs. unfold Sum_compute_grads.
  rewrite (np_expand_dims_reduced g axis k s) by done. simpl.
  unfold np_broadcast_to. simpl. rewrite can_broadcast_insert_1.
  unfold bcast. simpl.
  rewrite <- (length_insert s k 1) at 1. by rewrite lpad_same.
Qed.

Lemma Mean_compute_grads_reduced (g : ndarray F) axis k s (w : W) :
  normalize_axis axis (length s) = Some k ->
  shape g = delete k s ->
  Mean_compute_grads axis g s w =
    (Ok (GArray (np_div_int
                   (NdArray s (bcast_data (<[k := 1]> s) s (data g)))
                   (nth k s 0))), w).
Proof.
  intros Hax Hs. unfold Mean_compute_grads.
  rewrite (np_expand_dims_reduced g axis k s) by done. simpl.
  unfold np_broadcast_to. simpl. rewrite can_broadcast_insert_1.
  unfold bcast, tuple_index. simpl. rewrite Hax. simpl.
  rewrite <- (length_insert s k 1) at 1. by rewrite lpad_same.
Qed.

Lemma wf_bcast_insert_1 (g : ndarray F) k s :
  k < length s ->
  shape g = delete k s ->
  wf_array g ->
  wf_array (NdArray s (bcast_data (<[k := 1]> s) s (data g))).
Proof.
  intros Hk Hs Hwf. unfold wf_array. simpl. apply length_bcast_data.
  - apply dims_compatible_insert_1.
  - rewrite numel_insert_1 by done. by rewrite <- Hs.
Qed.

Lemma np_get_np_map (f : F -> F) (a : ndarray F) idx :
  np_get (np_map f a) idx = f <$> np_get a idx.
Proof. unfold np_get. simpl. apply list_lookup_fmap. Qed.

(** C7: let [x] be reduced along the axis [k] of length [N], and let [g]
    be a gradient of the shape of the reduced output.  After [forward] on
    [x], [backward] on [g] returns an array [dx] of the shape of [x]: for
    [Sum], the element of [dx] at any multi-index is the element of [g] at
    that multi-index without its coordinate on axis [k]; for [Mean], it is
    that element divided by [N]. *)
Theorem sum_mean_backward_broadcast (x g : ndarray F) (axis : Z) (k N : nat)
    (st : ModuleObj W (list nat)) :
  predicting st = false ->
  normalize_axis axis (length (shape x)) = Some k ->
  shape x !! k = Some N ->
  shape g = delete k (shape x) ->
  wf_array g ->
  (exists out st1 dx,
     forward (Sum_compute_outputs axis) [x] st = (Ok out, st1) /\
     shape out = shape g /\
     backward (Sum_compute_grads axis) [g] st1 = (Ok (GArray dx), st) /\
     shape dx = shape x /\
     wf_array dx /\
     forall idx,
       valid_index (shape x) idx ->
       np_get dx idx = np_get g (delete k idx)) /\
  (exists out st1 dx,
     forward (Mean_compute_outputs axis) [x] st = (Ok out, st1) /\
     shape out = shape g /\
     backward (Mean_compute_grads axis) [g] st1 = (Ok (GArray dx), st) /\
     shape dx = shape x /\
     wf_array dx /\
     forall idx,
       valid_index (shape x) idx ->
       np_get dx idx =
         (fun y => sdiv y (sof_nat N)) <$> np_get g (delete k idx)).
Proof.
  intros Hp Hax HN Hs Hwf.
  assert (Hk := normalize_axis_lt _ _ _ Hax).
  set (b := NdArray (shape x) (bcast_data (<[k := 1]> (shape x)) (shape x) (data g))).
  assert (Hb : wf_array b) by (by apply wf_bcast_insert_1).
  assert (Hget : forall idx, valid_index (shape x) idx ->
                             np_get b idx = np_get g (delete k idx)).
  { intros idx Hv. unfold np_get. simpl. rewrite Hs.
    apply lookup_bcast_data_insert_1; [done|done|]. by rewrite <- Hs. }
  split.
  - destruct (forward_backward_one_input
                (Sum_compute_outputs axis) (Sum_compute_grads axis)
                x g (NdArray (delete k (shape x))
                       (sum_axis k (shape x) (data x)))
                b (shape x) st) as (st1 & Hf & _ & _ & Hbw); try done.
    + unfold Sum_compute_outputs, np_sum. by rewrite Hax.
    + by apply Sum_compute_grads_reduced.
    + by eauto 10.
  - assert (HnN : nth k (shape x) 0 = N) by (by apply nth_lookup_Some with (d := 0) in HN).
    destruct (forward_backward_one_input
                (Mean_compute_outputs axis) (Mean_compute_grads axis)
                x g (np_div_int (NdArray (delete k (shape x))
                                   (sum_axis k (shape x) (data x))) N)
                (np_div_int b N) (shape x) st) as (st1 & Hf & _ & _ & Hbw);
      try done.
    + unfold Mean_compute_outputs, np_mean. by rewrite Hax, HnN.
    + rewrite <- HnN. by apply Mean_compute_grads_reduced.
    + by apply wf_np_map.
    + do 3 eexists. split; [exact Hf|]. split; [done|].
      split; [exact Hbw|]. split; [done|]. split; [by apply wf_np_map|].
      intros idx Hv. unfold np_div_int. by rewrite np_get_np_map, Hget.
Qed.
End ConcreteTheory.


(** ** The theorems on integer arrays *)

(** C1 on a new [Tanh]: [forward] on [ex_s] records one entry in each
    cache, and [backward] removes them again. *)
Lemma forward_backward_lifo_witness :
  predicting ex_tanh = false /\
  _shape_cache ex_tanh = [] /\
  _forward_cache ex_tanh = [] /\
  forward Tanh_compute_outputs [ex_s] ex_tanh =
    (Ok (np_tanh ex_s), MkModule false () [ex_s] [[[3]]]) /\
  backward Tanh_compute_grads [np_ones [3]]
      (forward Tanh_compute_outputs [ex_s] ex_tanh).2 =
    (Ok (GArray (NdArray [3] [0; 1; 0]%Z)), MkModule false () [] []).
Proof.
  do 3 (split; [reflexivity|]).
  destruct (forward_backward_lifo Tanh_compute_outputs Tanh_compute_grads
              ex_tanh eq_refl) as (Hpush & _ & _ & _ & Hlifo & _).
  split.
  - exact (Hpush [ex_s] (np_tanh ex_s) ex_s () eq_refl).
  - exact (Hlifo [ex_s] (np_tanh ex_s) ex_s () [np_ones [3]]
             [NdArray [3] [0; 1; 0]%Z] () eq_refl eq_refl).
Defined.

(** C2 on a new [Tanh]: [backward] before any [forward]. *)
Lemma backward_without_forward_underflow_witness :
  predicting ex_tanh = false /\
  _shape_cache ex_tanh = [] /\
  _forward_cache ex_tanh = [] /\
  backward Tanh_compute_grads [np_ones [3]] ex_tanh =
    (raise IndexError "pop from empty list", ex_tanh).
Proof.
  split; [reflexivity|]. split; [reflexivity|]. split; [reflexivity|].
  apply (backward_without_forward_underflow
           Tanh_compute_outputs Tanh_compute_grads [np_ones [3]] ex_tanh
           eq_refl eq_refl eq_refl).
Defined.

(** C3 on [ex_tanh_2]: the loop of [backward] iterates over a 0-d array,
    which raises a [TypeError]; both caches are as before the call. *)
Lemma backward_TypeError_restores_witness :
  predicting ex_tanh_2 = false /\
  _shape_cache ex_tanh_2 = [[[]]; [[]; []]] /\
  _forward_cache ex_tanh_2 = [np_scalar 2%Z] /\
  exists st',
    backward Tanh_compute_grads [np_scalar 1%Z] ex_tanh_2 =
      (Raise (Exn TypeError
                [ArgStr ("iteration over a 0-d array" +:+ zero_grad_hint)]),
       st') /\
    _shape_cache st' = _shape_cache ex_tanh_2 /\
    _forward_cache st' = _forward_cache ex_tanh_2.
Proof.
  split; [reflexivity|]. split; [reflexivity|]. split; [reflexivity|].
  destruct (backward_TypeError_restores Tanh_compute_grads
              [np_scalar 1%Z] ex_tanh_2 [[[]]] [] [[]; []] (np_scalar 2%Z)
              (Exn TypeError [ArgStr "iteration over a 0-d array"]) ()
              "iteration over a 0-d array" []
              eq_refl eq_refl eq_refl eq_refl eq_refl eq_refl)
    as (st' & Hb & Hs & Hf & _).
  exists st'. auto.
Defined.

(** C3, as stated, fails: [Tanh] after [forward] on an array of shape
    (3,), given a gradient of shape (2,).  The product in [compute_grads]
    raises a [ValueError]; [backward] lets it through without the hint and
    with both caches left popped. *)
Lemma backward_ValueError_not_restored :
  let e := Exn ValueError [ArgStr "operands could not be broadcast together"] in
  predicting ex_tanh_1 = false /\
  _shape_cache ex_tanh_1 = [[[3]]] /\
  _forward_cache ex_tanh_1 = [ex_s] /\
  grad_loop Tanh_compute_grads [[3]] ex_s [np_ones [2]] [np_zeros [3]] ()
    = (Raise e, ()) /\
  backward Tanh_compute_grads [np_ones [2]] ex_tanh_1 =
    (Raise e, ex_tanh) /\
  _shape_cache ex_tanh <> _shape_cache ex_tanh_1 /\
  _forward_cache ex_tanh <> _forward_cache ex_tanh_1.
Proof. repeat split; discriminate. Qed.

(** C9 on a new [Module()]: [forward] on [ex_s] raises the
    [NotImplementedError] of the base class. *)
Lemma forward_not_atomic_witness :
  reachable (Module_compute_outputs (Out := unit)) Module_compute_grads
            ex_module /\
  predicting ex_module = false /\
  exists st',
    forward (Module_compute_outputs (Out := unit)) [ex_s] ex_module =
      (Raise (Exn NotImplementedError []), st') /\
    _shape_cache st' = [[[3]]] /\
    _forward_cache st' = [] /\
    length (_shape_cache st') <> length (_forward_cache st').
Proof.
  assert (Hr : reachable (Module_compute_outputs (Out := unit))
                 Module_compute_grads ex_module).
  { exists (). apply rtc_refl. }
  split; [exact Hr|]. split; [reflexivity|].
  exact (forward_not_atomic Module_compute_outputs Module_compute_grads
           [ex_s] ex_module _ () Hr eq_refl eq_refl).
Defined.

(** C8, as stated, fails: ['avg'] is none of ['none'], ['sum'] and
    ['mean'], and selects [Mean] instead of raising. *)
Lemma get_reduction_avg_is_Mean :
  "avg" <> "none" /\ "avg" <> "sum" /\ "avg" <> "mean" /\
  get_reduction "avg" 0 = Ok (Mean 0).
Proof. repeat split; discriminate. Qed.

(** C8 on the name ["Average"]. *)
Lemma get_reduction_by_name_witness :
  str_lower "Average" = "average" /\
  get_reduction "Average" 0 = Ok (Mean 0).
Proof.
  split; [reflexivity|].
  destruct (get_reduction_by_name "Average" 0) as (_ & _ & HMean & _).
  apply HMean. right. right. reflexivity.
Defined.

(** C4 on [ex_heap]: assigning the number 3 adds it to the gradient. *)
Lemma grad_setter_by_cases_witness :
  ex_heap !! 0 = Some (ParameterObj (NdArray [2] [5; 6]%Z) (Some 1)) /\
  exists h',
    grad_set 0 (PyNum 3%Z) ex_heap = (Ok (), h') /\
    grad_array 0 h' = Some (NdArray [2] [4; 5]%Z).
Proof.
  split; [reflexivity|].
  destruct (grad_setter_by_cases 0 (PyNum 3%Z) ex_heap _ _ eq_refl)
    as (_ & _ & _ & Hacc).
  destruct (Hacc (np_scalar 3%Z) 1 (ParameterObj ex_grad None)
              eq_refl eq_refl eq_refl eq_refl) as (_ & Hadd & _).
  destruct Hadd as (h' & Hset & _ & _ & Hga); [discriminate|reflexivity|].
  exists h'. split; [exact Hset|exact Hga].
Defined.

(** C4, as stated, fails in its last case: the value assigned is the
    gradient array itself.  It is not [None], it is not entirely zero and
    the slot is initialised, yet nothing is added: the gradient stays
    [[1, 2]] and does not become [[2, 4]]. *)
Lemma grad_set_own_gradient_not_accumulated :
  array_of ex_heap (PyRef 1) = Some ex_grad /\
  np_all_eq0 ex_grad = false /\
  grad_array 0 ex_heap = Some ex_grad /\
  grad_array 0 (grad_set 0 (PyRef 1) ex_heap).2 = Some ex_grad /\
  np_add_into ex_grad ex_grad = NdArray [2] [2; 4]%Z /\
  ex_grad <> np_add_into ex_grad ex_grad.
Proof. repeat split; discriminate. Qed.

(** C5 on [ex_heap]: assigning the number 3, then the parameter itself,
    adds both to the gradient [[1, 2]]. *)
Lemma grad_only_accumulates_witness :
  grad_slot 0 ex_heap = Some (Some 1) /\
  ex_heap !! 1 = Some (ParameterObj ex_grad None) /\
  exists h',
    grad_set_all 0 [PyNum 3%Z; PyRef 0] ex_heap = (Ok (), h') /\
    grad_slot 0 h' = Some (Some 1) /\
    grad_array 0 h' = Some (NdArray [2] [9; 11]%Z).
Proof.
  split; [reflexivity|]. split; [reflexivity|].
  destruct (grad_only_accumulates 0 ex_heap 1 (ParameterObj ex_grad None)
              eq_refl eq_refl) as [_ Hrun].
  apply (Hrun [PyNum 3%Z; PyRef 0]
              [np_scalar 3%Z; NdArray [2] [5; 6]%Z]).
  repeat constructor; discriminate.
Defined.

(** C5, as stated, fails: one assignment, of the gradient array itself,
    which is not entirely zero, leaves the gradient [[1, 2]] and not the
    sum [[1, 2] + [1, 2]] of what it held and what was assigned. *)
Lemma grad_set_all_own_gradient_not_summed :
  grad_array 0 ex_heap = Some ex_grad /\
  array_of ex_heap (PyRef 1) = Some ex_grad /\
  np_all_eq0 ex_grad = false /\
  grad_set_all 0 [PyRef 1] ex_heap = (Ok (), ex_heap) /\
  grad_array 0 (grad_set_all 0 [PyRef 1] ex_heap).2 <>
    Some (foldl np_add_into ex_grad [ex_grad]).
Proof. repeat split; discriminate. Qed.

(** C10 on [ex_heap]: [p.grad = p.grad]. *)
Lemma grad_self_assignment_is_identity_witness :
  ex_heap !! 0 = Some (ParameterObj (NdArray [2] [5; 6]%Z) (Some 1)) /\
  np_all_eq0 ex_grad = false /\
  grad_get 0 ex_heap = Ok (PyRef 1) /\
  grad_set 0 (PyRef 1) ex_heap = (Ok (), ex_heap).
Proof.
  split; [reflexivity|]. split; [reflexivity|].
  destruct (grad_self_assignment_is_identity (H := Z_Scalar) 0 ex_heap _ 1
              (ParameterObj ex_grad None) eq_refl eq_refl eq_refl)
    as (Hget & Hset & _).
  split; [exact Hget|exact Hset].
Defined.

(** C6 on [ex_s], with integer scalars. *)
Lemma tanh_backward_ones_witness :
  predicting ex_tanh = false /\
  wf_array ex_s /\
  exists st1,
    forward Tanh_compute_outputs [ex_s] ex_tanh = (Ok (np_tanh ex_s), st1) /\
    backward Tanh_compute_grads [np_ones [3]] st1 =
      (Ok (GArray (NdArray [3] [0; 1; 0]%Z)), ex_tanh) /\
    backward Tanh_compute_grads [np_scalar 1%Z] st1 =
      (Ok (GArray (NdArray [3] [0; 1; 0]%Z)), ex_tanh).
Proof.
  split; [reflexivity|]. split; [reflexivity|].
  exact (tanh_backward_ones ex_s ex_tanh eq_refl eq_refl).
Defined.

(** C7 on [ex_x], reduced along its last axis. *)
Lemma sum_mean_backward_broadcast_witness :
  predicting ex_reduction = false /\
  normalize_axis (-1) (length (shape ex_x)) = Some 1 /\
  shape ex_x !! 1 = Some 3 /\
  shape ex_g = delete 1 (shape ex_x) /\
  wf_array ex_g /\
  exists out st1 dx,
    forward (Sum_compute_outputs (-1)) [ex_x] ex_reduction = (Ok out, st1) /\
    backward (Sum_compute_grads (-1)) [ex_g] st1 = (Ok (GArray dx), ex_reduction) /\
    np_get dx [1; 2] = np_get ex_g [1].
Proof.
  do 5 (split; [reflexivity|]).
  destruct (sum_mean_backward_broadcast ex_x ex_g (-1) 1 3 ex_reduction
              eq_refl eq_refl eq_refl eq_refl eq_refl) as [HSum _].
  destruct HSum as (out & st1 & dx & Hf & _ & Hb & _ & _ & Hget).
  exists out, st1, dx. split; [exact Hf|]. split; [exact Hb|].
  apply (Hget [1; 2]). repeat constructor.
Defined.


(** * Further properties *)

(** ** [Module]: evaluation mode and the outcomes of [backward] *)

Section ModuleMore.
Context {F : Type} `{Scalar F} {W Cache Out : Type}.
Variable compute_outputs :
  list (ndarray F) -> W -> result (Out * Cache) * W.
Variable compute_grads :
  ndarray F -> Cache -> W -> result (grads_val F) * W.

Abbreviation forward := (forward compute_outputs).
Abbreviation call := (call compute_outputs).
Abbreviation backward := (backward compute_grads).
Abbreviation backward_with := (backward_with compute_grads).
Abbreviation grad_loop := (grad_loop compute_grads).
Abbreviation module_obj := (ModuleObj W Cache).

(** X1: evaluation mode is honoured by [__call__] and [backward] only.
    On a module in training mode that is put in evaluation mode, a call
    returns what [compute_outputs] returns and leaves both caches as they
    are, and [backward] raises the [ValueError] without touching the
    module; so once the module is back in training mode, [backward] works
    on the entries that were recorded before.  A direct [forward] in
    evaluation mode records its entries all the same. *)
Theorem eval_mode_keeps_caches (st : module_obj) inputs :
  predicting st = false ->
  let st' := (call inputs (eval st)).2 in
  (call inputs (eval st)).1 = fst <$> (compute_outputs inputs (_parameters st)).1 /\
  _shape_cache st' = _shape_cache st /\
  _forward_cache st' = _forward_cache st /\
  (forall grads,
     backward grads st' =
       (raise ValueError "module not in training mode", st')) /\
  (forall grads,
     backward grads (train st') =
       backward grads (set_parameters (_parameters st') st)) /\
  _shape_cache (forward inputs (eval st)).2 =
    _shape_cache st ++ [shape <$> inputs].
Proof.
  intros Hp st'. unfold st', call, eval. simpl.
  destruct (compute_outputs inputs (_parameters st)) as [[[out c]|e] w] eqn:E;
    simpl.
  - repeat split; try done.
    + intros grads. unfold train, set_predicting, set_parameters. simpl.
      by rewrite <- Hp.
    + unfold forward. simpl. by rewrite E.
  - repeat split; try done.
    + intros grads. unfold train, set_predicting, set_parameters. simpl.
      by rewrite <- Hp.
    + unfold forward. simpl. by rewrite E.
Qed.

(** X2: when the loop over the gradients fails with an exception that is
    not a [TypeError], [backward] lets that exception through unchanged and
    the two entries it popped are gone: each cache is one entry shorter
    than before the call. *)
Theorem backward_other_error_drops_entries grads (st : module_obj)
    sc fc shapes cache e w :
  predicting st = false ->
  _shape_cache st = sc ++ [shapes] ->
  _forward_cache st = fc ++ [cache] ->
  grad_loop shapes cache grads (np_zeros <$> shapes) (_parameters st)
    = (Raise e, w) ->
  is_TypeError e = false ->
  backward grads st = (Raise e, MkModule false w fc sc) /\
  length (_shape_cache (backward grads st).2) + 1 = length (_shape_cache st) /\
  length (_forward_cache (backward grads st).2) + 1 = length (_forward_cache st).
Proof.
  intros Hp Hs Hf Hloop Hty.
  rewrite (backward_by_loop _ _ _ _ _ _ _ Hp Hs Hf), Hloop, Hty. simpl.
  rewrite Hs, Hf, !length_app. simpl. done.
Qed.

(** X3: when the loop over the gradients fails with a [TypeError], or
    with an exception of a class derived from it, [backward] puts the two
    popped entries back whatever the exception carries.  What it raises is
    a plain [TypeError] when the first argument of the caught exception
    exists, and an [IndexError] when the caught exception has no
    argument, the hint not being built then. *)
Theorem backward_TypeError_any_args grads (st : module_obj)
    sc fc shapes cache e w :
  predicting st = false ->
  _shape_cache st = sc ++ [shapes] ->
  _forward_cache st = fc ++ [cache] ->
  grad_loop shapes cache grads (np_zeros <$> shapes) (_parameters st)
    = (Raise e, w) ->
  is_TypeError e = true ->
  exists e',
    backward grads st = (Raise e', MkModule false w (fc ++ [cache]) (sc ++ [shapes])) /\
    match exn_args e with
    | [] => e' = Exn IndexError [ArgStr "tuple index out of range"]
    | ArgStr m :: _ => e' = Exn TypeError [ArgStr (m +:+ zero_grad_hint)]
    | ArgObj :: _ => exn_cls e' = TypeError /\ e' <> e
    end.
Proof.
  intros Hp Hs Hf Hloop Hty.
  rewrite (backward_by_loop _ _ _ _ _ _ _ Hp Hs Hf), Hloop, Hty.
  eexists. split; [reflexivity|]. unfold raise_with_hint.
  by destruct e as [c [|[m|] rest]].
Qed.

(** X4: a [forward] that fails leaves the shapes of its inputs on the
    shape cache.  The next [backward] pairs those shapes with the cache
    of the [forward] before, whose own shapes stay behind; and when there
    is no cache at all, it raises [IndexError] after removing the stray
    shapes. *)
Theorem failed_forward_misaligns_backward (st : module_obj)
    inputs2 e w2 grads :
  predicting st = false ->
  compute_outputs inputs2 (_parameters st) = (Raise e, w2) ->
  let st2 := (forward inputs2 st).2 in
  (forall fc cache1,
     _forward_cache st = fc ++ [cache1] ->
     backward grads st2 =
       backward_with (shape <$> inputs2) cache1 grads
         (MkModule false w2 fc (_shape_cache st))) /\
  (_forward_cache st = [] ->
   backward grads st2 =
     (raise IndexError "pop from empty list",
      MkModule false w2 [] (_shape_cache st))).
Proof.
  intros Hp E st2. unfold st2. rewrite (forward_Raise _ _ _ _ _ E). simpl.
  split.
  - intros fc cache1 Hf. by erewrite backward_top.
  - intros Hf. unfold backward. simpl.
    rewrite Hp, list_pop_snoc, Hf. simpl. done.
Qed.
End ModuleMore.


(** ** [backward]: accumulation over gradients and over inputs *)

Section ModuleAccumulation.
Context {F : Type} `{Scalar F} {W Cache : Type}.
Variable compute_grads :
  ndarray F -> Cache -> W -> result (grads_val F) * W.

(** The loop of a module with one input whose [compute_grads] returns
    the array [f g] for the gradient [g] and leaves the parameters alone. *)
Lemma grad_loop_one_input (f : ndarray F -> ndarray F) s cache w grads :
  (forall g, g ∈ grads -> compute_grads g cache w = (Ok (GArray (f g)), w)) ->
  (forall g, g ∈ grads -> can_broadcast (shape (f g)) s = true) ->
  forall acc, shape acc = s ->
  grad_loop compute_grads [s] cache grads [acc] w =
    (Ok [foldl np_add_into acc (f <$> grads)], w).
Proof.
  induction grads as [|g grads IH]; intros Hcg Hsh acc Hacc; simpl; [done|].
  rewrite Hcg by apply list_elem_of_here. simpl.
  rewrite np_iadd_Ok by (rewrite Hacc; apply Hsh, list_elem_of_here). simpl.
  apply IH; [| |done].
  - intros g' Hg'. apply Hcg. by apply list_elem_of_further.
  - intros g' Hg'. apply Hsh. by apply list_elem_of_further.
Qed.

Lemma np_add_into_zeros `{!ScalarLaws F} (r : ndarray F) :
  wf_array r -> np_add_into (np_zeros (shape r)) r = r.
Proof.
  intros Hwf. unfold np_add_into. simpl. rewrite bcast_same by done.
  rewrite zip_with_replicate_l; [by destruct r|apply sadd_0_l|].
  by rewrite Hwf.
Qed.

(** X5: [backward] of a module with one input, given several gradients,
    adds up what [compute_grads] returns for each of them, starting from
    zeros of the shape of the input: with no gradient it returns those
    zeros without calling [compute_grads], and with the gradients
    [g, g1, ..., gn] it returns [f g + f g1 + ... + f gn]. *)
Theorem backward_sums_over_gradients `{!ScalarLaws F}
    (f : ndarray F -> ndarray F) (st : ModuleObj W Cache) sc fc s cache grads :
  predicting st = false ->
  _shape_cache st = sc ++ [[s]] ->
  _forward_cache st = fc ++ [cache] ->
  (forall g, g ∈ grads ->
     compute_grads g cache (_parameters st) = (Ok (GArray (f g)), _parameters st)) ->
  (forall g, g ∈ grads -> shape (f g) = s /\ wf_array (f g)) ->
  backward compute_grads grads st =
    (Ok (GArray (foldl np_add_into (np_zeros s) (f <$> grads))),
     MkModule false (_parameters st) fc sc) /\
  (grads = [] ->
   backward compute_grads grads st =
     (Ok (GArray (np_zeros s)), MkModule false (_parameters st) fc sc)) /\
  (forall g gs, grads = g :: gs ->
   backward compute_grads grads st =
     (Ok (GArray (foldl np_add_into (f g) (f <$> gs))),
      MkModule false (_parameters st) fc sc)).
Proof.
  intros Hp Hs Hf Hcg Hsh.
  assert (Hb : backward compute_grads grads st =
    (Ok (GArray (foldl np_add_into (np_zeros s) (f <$> grads))),
     MkModule false (_parameters st) fc sc)).
  { rewrite (backward_by_loop _ _ _ _ _ _ _ Hp Hs Hf). simpl.
    rewrite (grad_loop_one_input f s cache (_parameters st) grads); try done.
    intros g Hg. destruct (Hsh g Hg) as [-> _]. apply can_broadcast_refl. }
  split; [done|]. split.
  - intros ->. by rewrite Hb.
  - intros g gs ->. rewrite Hb. simpl.
    destruct (Hsh g (list_elem_of_here _ _)) as [<- Hwf].
    by rewrite np_add_into_zeros.
Qed.

(** The accumulators of a module with several inputs, after one tuple of
    gradients: [zip] stops at the shorter of the two sequences. *)
Lemma accumulate_tuple `{!ScalarLaws F} (shapes : list (list nat)) :
  forall ds : list (ndarray F),
    Forall2 (fun d s => shape d = s /\ wf_array d)
            (take (length shapes) ds) (take (length ds) shapes) ->
    accumulate (np_zeros <$> shapes) (GArray <$> ds) =
      Ok (take (length shapes) ds ++ (np_zeros <$> drop (length ds) shapes)).
Proof.
  induction shapes as [|s shapes IH]; intros ds Hall.
  - by destruct ds.
  - destruct ds as [|d ds]; [done|]. simpl in Hall.
    apply Forall2_cons_1 in Hall as [[<- Hwf] Hall].
    rewrite !fmap_cons. cbn [accumulate np_asarray mbind result_bind].
    rewrite np_iadd_zeros by done. cbn [mbind result_bind].
    rewrite (IH ds Hall). done.
Qed.

(** X6: [backward] of a module that does not have exactly one input walks
    the accumulators and the gradients that [compute_grads] returns
    together and stops at the shorter sequence: it returns a tuple with one
    entry per input, the gradients in order, zeros of the shape of the
    input where [compute_grads] returned no gradient, and drops the
    gradients beyond the number of inputs. *)
Theorem backward_zips_inputs_and_gradients `{!ScalarLaws F}
    (st : ModuleObj W Cache) sc fc shapes cache g ds w :
  predicting st = false ->
  _shape_cache st = sc ++ [shapes] ->
  _forward_cache st = fc ++ [cache] ->
  length shapes <> 1 ->
  compute_grads g cache (_parameters st) = (Ok (GTuple ds), w) ->
  Forall2 (fun d s => shape d = s /\ wf_array d)
          (take (length shapes) ds) (take (length ds) shapes) ->
  backward compute_grads [g] st =
    (Ok (GTuple (take (length shapes) ds ++
                 (np_zeros <$> drop (length ds) shapes))),
     MkModule false w fc sc) /\
  (length ds = length shapes ->
   backward compute_grads [g] st = (Ok (GTuple ds), MkModule false w fc sc)).
Proof.
  intros Hp Hs Hf Hlen Hcg Hall.
  assert (Hb : backward compute_grads [g] st =
    (Ok (GTuple (take (length shapes) ds ++
                 (np_zeros <$> drop (length ds) shapes))),
     MkModule false w fc sc)).
  { rewrite (backward_by_loop _ _ _ _ _ _ _ Hp Hs Hf). simpl.
    rewrite Hcg. unfold dxs_list.
    destruct (Nat.eqb_spec (length shapes) 1) as [?|_]; [done|]. simpl.
    rewrite accumulate_tuple by done. simpl. f_equal. f_equal.
    unfold backward_result.
    set (l := take (length shapes) ds ++ (np_zeros <$> drop (length ds) shapes)).
    assert (Hl : length l = length shapes).
    { unfold l. rewrite length_app, length_fmap, length_take, length_drop.
      apply Forall2_length in Hall. rewrite !length_take in Hall. lia. }
    by destruct l as [|a [|b l]]. }
  split; [done|].
  intros Heq. rewrite Hb, <- Heq, take_ge, drop_ge by lia.
  simpl. by rewrite app_nil_r.
Qed.
End ModuleAccumulation.


(** ** [Tanh], [Identity], [Sum] and [Mean]: other gradients *)

Section ConcreteMore.
Context {F : Type} `{Scalar F} `{!ScalarLaws F} {W : Type}.

Lemma np_binop_same_shape (f : F -> F -> F) (a b : ndarray F) :
  wf_array a -> wf_array b -> shape b = shape a ->
  np_binop f a b = Ok (NdArray (shape a) (zip_with f (data a) (data b))).
Proof.
  intros Ha Hb Hs. unfold np_binop. rewrite Hs, broadcast_shapes_refl.
  rewrite (bcast_same a) by done. rewrite <- Hs.
  by rewrite (bcast_same b).
Qed.

Lemma np_binop_scalar_l (f : F -> F -> F) (c : F) (a : ndarray F) :
  wf_array a ->
  np_binop f (np_scalar c) a = Ok (NdArray (shape a) (f c <$> data a)).
Proof.
  intros Ha. unfold np_binop. simpl. rewrite broadcast_shapes_scalar_l.
  rewrite bcast_np_scalar, (bcast_same a) by done.
  rewrite list.zip_with_replicate_l; [done|]. by rewrite Ha.
Qed.

Lemma numel_lpad s n : numel (lpad s n) = numel s.
Proof.
  unfold lpad. induction (n - length s) as [|k IH]; simpl; [done|].
  fold (numel (replicate k 1 ++ s)). lia.
Qed.

Lemma length_bcast (a : ndarray F) s :
  wf_array a -> can_broadcast (shape a) s = true ->
  length (bcast a s) = numel s.
Proof.
  intros Ha [_ Hc]%andb_true_iff. unfold bcast.
  apply length_bcast_data; [done|]. by rewrite numel_lpad.
Qed.

(** Adding a gradient into a zero accumulator broadcasts the gradient
    to the shape of the accumulator. *)
Lemma np_iadd_zeros_bcast (g : ndarray F) s :
  wf_array g -> can_broadcast (shape g) s = true ->
  np_iadd (np_zeros s) g = Ok (NdArray s (bcast g s)).
Proof.
  intros Hg Hc. unfold np_iadd. simpl. rewrite Hc.
  rewrite zip_with_replicate_l; [done|apply sadd_0_l|].
  by rewrite length_bcast.
Qed.

(** X7: [Tanh] applies the chain rule.  After [forward] on [s], [backward]
    on a gradient [g] of the shape of [s] returns, element by element,
    [g * (1 - tanh(x) * tanh(x))]; on a number [c] as gradient it returns
    [c * (1 - tanh(x) * tanh(x))].  The module is left as before the
    [forward]. *)
Theorem tanh_backward_chain_rule (s g : ndarray F) (c : F)
    (st : ModuleObj W (ndarray F)) :
  predicting st = false ->
  wf_array s ->
  wf_array g ->
  shape g = shape s ->
  let d x := ssub s1 (smul (stanh x) (stanh x)) in
  exists st1,
    forward Tanh_compute_outputs [s] st = (Ok (np_tanh s), st1) /\
    backward Tanh_compute_grads [g] st1 =
      (Ok (GArray (NdArray (shape s)
             (zip_with (fun gi x => smul gi (d x)) (data g) (data s)))), st) /\
    backward Tanh_compute_grads [np_scalar c] st1 =
      (Ok (GArray (NdArray (shape s) ((fun x => smul c (d x)) <$> data s))), st).
Proof.
  intros Hp Hs Hg Hsh d.
  set (r := np_one_minus (np_square (np_tanh s))).
  assert (Hr : wf_array r) by (by do 3 apply wf_np_map).
  assert (Hdr : data r = d <$> data s).
  { unfold r, np_one_minus, np_square, np_tanh, np_map. simpl.
    by rewrite !map_map. }
  destruct (forward_backward_one_input Tanh_compute_outputs Tanh_compute_grads
              s g (np_tanh s)
              (NdArray (shape s) (zip_with smul (data g) (data r))) s st)
    as (st1 & Hf & _ & _ & Hb); try done.
  { unfold Tanh_compute_grads. fold r.
    rewrite np_binop_same_shape by done. by rewrite Hsh. }
  { assert (Hlr : length (data r) = numel (shape s)) by exact Hr.
    unfold wf_array in *. cbn [shape data].
    rewrite length_zip_with, Hlr, Hg, Hsh. lia. }
  destruct (forward_backward_one_input Tanh_compute_outputs Tanh_compute_grads
              s (np_scalar c) (np_tanh s)
              (NdArray (shape s) (smul c <$> data r)) s st)
    as (st1' & Hf' & _ & _ & Hb'); try done.
  { unfold Tanh_compute_grads. fold r. by rewrite np_binop_scalar_l. }
  { assert (Hlr : length (data r) = numel (shape s)) by exact Hr.
    unfold wf_array. cbn [shape data]. by rewrite length_fmap. }
  assert (st1' = st1) as -> by congruence.
  exists st1. split; [done|]. rewrite Hb, Hb', Hdr. split.
  - by rewrite zip_with_fmap_r.
  - by rewrite <- list_fmap_compose.
Qed.

(** X8: [Identity] hands its input through and its gradient back.  After
    [forward] on [x], which returns [x], [backward] on a gradient [g]
    returns [g] broadcast to the shape of [x], that is [g] itself when it
    has that shape; when [g] does not broadcast to the shape of [x] it
    raises a [ValueError], and the entries that [forward] recorded are
    gone. *)
Theorem identity_forward_backward (x g : ndarray F)
    (st : ModuleObj W unit) :
  predicting st = false ->
  wf_array g ->
  exists st1,
    forward Identity_compute_outputs [x] st = (Ok x, st1) /\
    (can_broadcast (shape g) (shape x) = true ->
     backward Identity_compute_grads [g] st1 =
       (Ok (GArray (NdArray (shape x) (bcast g (shape x)))), st)) /\
    (shape g = shape x ->
     backward Identity_compute_grads [g] st1 = (Ok (GArray g), st)) /\
    (can_broadcast (shape g) (shape x) = false ->
     exists e,
       backward Identity_compute_grads [g] st1 = (Raise e, st) /\
       exn_cls e = ValueError).
Proof.
  intros Hp Hg. eexists. split; [reflexivity|].
  assert (Hst : MkModule false (_parameters st) (_forward_cache st)
                  (_shape_cache st) = st).
  { destruct st; simpl in *. by subst. }
  assert (Hb : backward Identity_compute_grads [g]
      (forward Identity_compute_outputs [x] st).2 =
    match np_iadd (np_zeros (shape x)) g with
    | Ok a => (Ok (GArray a), st)
    | Raise e => (Raise e, st)
    end).
  { unfold forward. simpl.
    erewrite backward_by_loop; [|done|reflexivity|reflexivity]. simpl.
    destruct (np_iadd (np_zeros (shape x)) g) as [a|e] eqn:E; simpl.
    - by rewrite Hst.
    - unfold np_iadd in E. destruct (can_broadcast _ _); [done|].
      injection E as <-. simpl. by rewrite Hst. }
  simpl in Hb. split; [|split].
  - intros Hc. simpl. rewrite Hb. by rewrite np_iadd_zeros_bcast.
  - intros Hs. simpl. rewrite Hb, <- Hs. by rewrite np_iadd_zeros.
  - intros Hc. simpl. rewrite Hb. unfold np_iadd. simpl. rewrite Hc.
    by eexists.
Qed.

Lemma dims_compatible_ones s :
  dims_compatible (replicate (length s) 1) s = true.
Proof.
  induction s as [|n s IH]; [done|]. cbn -[Nat.eqb].
  by rewrite IH, Nat.eqb_refl, orb_true_r.
Qed.

(** What [expand_dims] and [broadcast_to] make of a number: an array
    filled with it. *)
Lemma broadcast_scalar_gradient (c : F) axis s :
  normalize_axis axis 1 = Some 0 ->
  s <> [] ->
  np_expand_dims (np_scalar c) axis ≫= (fun g => np_broadcast_to g s) =
    Ok (NdArray s (replicate (numel s) c)).
Proof.
  intros Hax Hs. unfold np_expand_dims. simpl. rewrite Hax. simpl.
  assert (Hl : lpad [1] (length s) = replicate (length s) 1).
  { unfold lpad. destruct s as [|n s]; [done|]. simpl.
    rewrite Nat.sub_0_r. clear. induction (length s); simpl; by f_equal. }
  unfold np_broadcast_to, can_broadcast, bcast. simpl. rewrite Hl.
  rewrite dims_compatible_ones, bcast_data_scalar.
  destruct s; [done|]. done.
Qed.

(** X9: [Sum] and [Mean] on a number as gradient.  For an axis that is 0
    or -1 and an input [x] that has this axis, of length [N]: after
    [forward] on [x], [backward] on the number [c] returns an array of the
    shape of [x] filled with [c] for [Sum], and filled with [c / N] for
    [Mean]. *)
Theorem sum_mean_backward_scalar (x : ndarray F) (c : F) (axis : Z) (k N : nat)
    (st : ModuleObj W (list nat)) :
  predicting st = false ->
  normalize_axis axis 1 = Some 0 ->
  normalize_axis axis (length (shape x)) = Some k ->
  shape x !! k = Some N ->
  (exists out st1,
     forward (Sum_compute_outputs axis) [x] st = (Ok out, st1) /\
     backward (Sum_compute_grads axis) [np_scalar c] st1 =
       (Ok (GArray (NdArray (shape x) (replicate (numel (shape x)) c))), st)) /\
  (exists out st1,
     forward (Mean_compute_outputs axis) [x] st = (Ok out, st1) /\
     backward (Mean_compute_grads axis) [np_scalar c] st1 =
       (Ok (GArray (NdArray (shape x)
              (replicate (numel (shape x)) (sdiv c (sof_nat N))))), st)).
Proof.
  intros Hp Hax1 Hax HN.
  assert (Hne : shape x <> []) by (by intros Heq; rewrite Heq in HN).
  assert (HnN : nth k (shape x) 0 = N)
    by (by apply nth_lookup_Some with (d := 0) in HN).
  assert (Hbc := broadcast_scalar_gradient c axis (shape x) Hax1 Hne).
  split.
  - destruct (forward_backward_one_input
                (Sum_compute_outputs axis) (Sum_compute_grads axis)
                x (np_scalar c)
                (NdArray (delete k (shape x)) (sum_axis k (shape x) (data x)))
                (NdArray (shape x) (replicate (numel (shape x)) c))
                (shape x) st) as (st1 & Hf & _ & _ & Hbw); try done.
    + unfold Sum_compute_outputs, np_sum. by rewrite Hax.
    + unfold Sum_compute_grads.
      destruct (np_expand_dims (np_scalar c) axis) as [g|e]; [|done].
      simpl in Hbc |- *. by rewrite Hbc.
    + unfold wf_array. simpl. apply length_replicate.
    + by eauto.
  - destruct (forward_backward_one_input
                (Mean_compute_outputs axis) (Mean_compute_grads axis)
                x (np_scalar c)
                (np_div_int (NdArray (delete k (shape x))
                               (sum_axis k (shape x) (data x))) N)
                (NdArray (shape x)
                   (replicate (numel (shape x)) (sdiv c (sof_nat N))))
                (shape x) st) as (st1 & Hf & _ & _ & Hbw); try done.
    + unfold Mean_compute_outputs, np_mean. by rewrite Hax, HnN.
    + unfold Mean_compute_grads.
      destruct (np_expand_dims (np_scalar c) axis) as [g|e]; [|done].
      simpl in Hbc |- *. rewrite Hbc. simpl.
      unfold tuple_index. rewrite Hax, HnN. simpl.
      unfold np_div_int, np_map. simpl. by rewrite fmap_replicate.
    + unfold wf_array. simpl. apply length_replicate.
    + by eauto.
Qed.
End ConcreteMore.


(** ** [Parameter]: new gradient arrays *)

Section ParameterMoreTheory.
Context {F : Type} `{Scalar F}.

Implicit Types (h : heap F) (o og : object F) (a : ndarray F).

(** The heap after [zero_grad]. *)
Lemma zero_grad_heap self h a (slot : option loc) :
  h !! self = Some (ParameterObj a slot) ->
  let h' := <[self := ParameterObj a (Some (length h))]>
              (h ++ [ParameterObj (np_zeros (shape a)) None]) in
  zero_grad self h = (Ok (), h') /\
  length h' = S (length h) /\
  h' !! self = Some (ParameterObj a (Some (length h))) /\
  h' !! length h = Some (ParameterObj (np_zeros (shape a)) None) /\
  (forall l, l <> self -> l < length h -> h' !! l = h !! l) /\
  (forall value v,
     array_of h value = Some v -> np_all_eq0 v = true ->
     grad_set self value h = (Ok (), h')).
Proof.
  intros Hself h'.
  assert (Hlt : self < length h) by (by eapply lookup_lt_Some).
  unfold zero_grad, alloc. rewrite Hself. split; [reflexivity|]. unfold h'.
  split; [by rewrite length_insert, length_app; simpl; lia|].
  split; [by rewrite list_lookup_insert_eq by (rewrite length_app; lia)|].
  split.
  { rewrite list_lookup_insert_ne by lia.
    rewrite lookup_app_r by lia. by rewrite Nat.sub_diag. }
  split.
  { intros l Hne Hl. rewrite list_lookup_insert_ne by done.
    by rewrite lookup_app_l. }
  intros value v Hv Hz. unfold grad_set. rewrite Hv, Hz.
  unfold zero_grad, alloc. rewrite Hself. by destruct value.
Qed.

(** X10: [zero_grad] never writes into an existing array.  It puts a new
    zero array of the shape of the parameter at the next free location
    and points the gradient slot to it; every other object, the former
    gradient array included, is as before, and so are the values of the
    parameter.  Assigning an entirely zero value does the same, also when
    the value is the parameter's own, entirely zero, gradient array:
    [p.grad = p.grad] then replaces the gradient object. *)
Theorem zero_grad_allocates self h a (slot : option loc) :
  h !! self = Some (ParameterObj a slot) ->
  exists h',
    zero_grad self h = (Ok (), h') /\
    length h' = S (length h) /\
    h' !! self = Some (ParameterObj a (Some (length h))) /\
    h' !! length h = Some (ParameterObj (np_zeros (shape a)) None) /\
    (forall l, l <> self -> l < length h -> h' !! l = h !! l) /\
    (forall value v,
       array_of h value = Some v -> np_all_eq0 v = true ->
       grad_set self value h = (Ok (), h')) /\
    (forall g og,
       slot = Some g -> h !! g = Some og -> np_all_eq0 (obj_array og) = true ->
       grad_set self (PyRef g) h = (Ok (), h') /\
       grad_slot self h' <> Some (Some g)).
Proof.
  intros Hself.
  destruct (zero_grad_heap self h a slot Hself)
    as (Hzg & Hlen & Hs' & Hnew & Hother & Hset).
  eexists. do 5 (split; [eassumption|]). split; [exact Hset|].
  intros g og -> Hg Hz.
  assert (Hgl : g < length h) by (by eapply lookup_lt_Some).
  split; [apply (Hset (PyRef g) (obj_array og)); [by simpl; rewrite Hg|done]|].
  unfold grad_slot. rewrite Hs'. intros [=]. lia.
Qed.

Lemma join_dims_ones_r s : join_dims s (replicate (length s) 1) = Some s.
Proof.
  induction s as [|n s IH]; [done|].
  cbn -[Nat.eqb]. rewrite IH. cbn -[Nat.eqb].
  destruct (Nat.eqb_spec n 1) as [->|Hne]; [done|].
  by rewrite Nat.eqb_refl.
Qed.

Lemma broadcast_shapes_scalar_r s : broadcast_shapes s [] = Some s.
Proof.
  unfold broadcast_shapes, lpad. simpl.
  rewrite Nat.max_0_r, Nat.sub_0_r, Nat.sub_diag, app_nil_r.
  apply join_dims_ones_r.
Qed.

Lemma np_binop_scalar_r (f : F -> F -> F) (c : F) (a : ndarray F) :
  wf_array a ->
  np_binop f a (np_scalar c) =
    Ok (NdArray (shape a) ((fun x => f x c) <$> data a)).
Proof.
  intros Ha. unfold np_binop. simpl. rewrite broadcast_shapes_scalar_r.
  rewrite bcast_np_scalar, (bcast_same a) by done.
  rewrite zip_with_replicate_r; [done|]. by rewrite Ha.
Qed.

(** X11: the statement [p.grad = p.grad + c] of the setter's docstring.
    On a parameter whose gradient array holds [x] element by element, and
    when [x + c] is not zero everywhere, it leaves [x + (x + c)] in the
    gradient array, in place, not [x + c]; when [x + c] is zero everywhere
    it resets the gradient to a new zero array. *)
Theorem grad_assign_plus_doubles self c h a g og :
  h !! self = Some (ParameterObj a (Some g)) ->
  h !! g = Some og ->
  wf_array (obj_array og) ->
  let xc := NdArray (shape (obj_array og))
              ((fun x => sadd x c) <$> data (obj_array og)) in
  exists h',
    grad_assign_plus self c h = (Ok (), h') /\
    (np_all_eq0 xc = false ->
     grad_slot self h' = Some (Some g) /\
     grad_array self h' =
       Some (NdArray (shape (obj_array og))
               ((fun x => sadd x (sadd x c)) <$> data (obj_array og)))) /\
    (np_all_eq0 xc = true ->
     grad_slot self h' = Some (Some (S (length h))) /\
     grad_array self h' = Some (np_zeros (shape a))).
Proof.
  intros Hself Hg Hwf xc.
  assert (Hgl : g < length h) by (by eapply lookup_lt_Some).
  assert (Hsl : self < length h) by (by eapply lookup_lt_Some).
  unfold grad_assign_plus, grad_get. rewrite Hself, Hg.
  rewrite np_binop_scalar_r by done. fold xc. unfold alloc.
  set (h1 := h ++ [result_like og xc]).
  assert (Hself1 : h1 !! self = Some (ParameterObj a (Some g))).
  { unfold h1. by rewrite lookup_app_l. }
  assert (Hg1 : h1 !! g = Some og).
  { unfold h1. by rewrite lookup_app_l. }
  assert (Hl1 : length h1 = S (length h)).
  { unfold h1. rewrite length_app. simpl. lia. }
  assert (Hnew : array_of h1 (PyRef (length h)) = Some xc).
  { simpl. unfold h1. rewrite lookup_app_r by lia.
    rewrite Nat.sub_diag. simpl. by destruct og. }
  destruct (np_all_eq0 xc) eqn:Hz.
  - destruct (zero_grad_heap self h1 a (Some g) Hself1)
      as (Hzg & Hlen & Hs' & Hnew' & _ & Hset).
    eexists. split; [by apply (Hset _ xc)|]. split; [done|]. intros _.
    unfold grad_slot, grad_array. rewrite Hs', Hl1. split; [done|].
    rewrite Hl1 in Hnew'. by rewrite Hnew'.
  - rewrite (grad_set_accumulate self (PyRef (length h)) h1 g og xc);
      [|by eapply grad_slot_Some|done|done|done|intros [=]; lia
       |apply can_broadcast_refl].
    eexists. split; [reflexivity|]. split; [|done]. intros _.
    assert (Hs' : grad_slot self
              (<[g := set_array og (np_add_into (obj_array og) xc)]> h1) =
            Some (Some g)).
    { rewrite grad_slot_insert_set_array by done. by eapply grad_slot_Some. }
    split; [done|].
    unfold grad_array. apply grad_slot_inv in Hs' as [a' ->].
    rewrite list_lookup_insert_eq by lia. simpl.
    rewrite obj_array_set_array. f_equal. unfold np_add_into. f_equal.
    change (shape (obj_array og)) with (shape xc) at 1.
    rewrite (bcast_same xc) by (unfold wf_array, xc; simpl; by rewrite length_fmap).
    simpl. rewrite zip_with_fmap_r, zip_with_diag. done.
Qed.
End ParameterMoreTheory.


(** ** The parameter registry *)

Section DictTheory.
Implicit Types (d : pydict) (k : string) (v : nat).

Lemma dict_get_set_eq k v d : dict_get k (dict_set k v d) = Some v.
Proof.
  induction d as [|[k' v'] d IH]; simpl.
  - by rewrite String.eqb_refl.
  - destruct (String.eqb_spec k' k) as [->|Hne]; simpl.
    + by rewrite String.eqb_refl.
    + by destruct (String.eqb_spec k' k).
Qed.

Lemma dict_get_set_ne k k' v d :
  k' <> k -> dict_get k' (dict_set k v d) = dict_get k' d.
Proof.
  intros Hne. induction d as [|[k0 v0] d IH]; simpl.
  - by destruct (String.eqb_spec k k').
  - destruct (String.eqb_spec k0 k) as [->|Hne0]; simpl.
    + by destruct (String.eqb_spec k k').
    + by rewrite IH.
Qed.

Lemma dict_set_new k v d :
  dict_get k d = None -> dict_set k v d = d ++ [(k, v)].
Proof.
  induction d as [|[k' v'] d IH]; simpl; [done|].
  destruct (String.eqb_spec k' k); [done|]. intros Hd. by rewrite IH.
Qed.

Lemma dict_set_keys k v d :
  is_Some (dict_get k d) -> (dict_set k v d).*1 = d.*1.
Proof.
  induction d as [|[k' v'] d IH]; cbn [dict_set dict_get]; [by intros [? ?]|].
  destruct (String.eqb_spec k' k) as [->|Hne]; [done|].
  intros Hd. rewrite !fmap_cons. by rewrite IH.
Qed.

Lemma dict_get_None k d : dict_get k d = None <-> k ∉ d.*1.
Proof.
  induction d as [|[k' v'] d IH]; simpl.
  - split; [intros _; apply not_elem_of_nil|done].
  - rewrite not_elem_of_cons.
    destruct (String.eqb_spec k' k) as [->|Hne]; [by split; [|intros [? _]]|].
    rewrite IH. split; [by split|by intros [_ ?]].
Qed.

Lemma dict_get_elem k v d : dict_get k d = Some v -> v ∈ d.*2.
Proof.
  induction d as [|[k' v'] d IH]; simpl; [done|].
  destruct (String.eqb_spec k' k).
  - intros [= ->]. apply list_elem_of_here.
  - intros Hd. apply list_elem_of_further. by apply IH.
Qed.

Lemma dict_pop_None k d : dict_pop k d = None <-> dict_get k d = None.
Proof.
  induction d as [|[k' v'] d IH]; simpl; [done|].
  destruct (String.eqb_spec k' k); [done|].
  rewrite <- IH. by destruct (dict_pop k d) as [[? ?]|].
Qed.

Lemma dict_pop_keys k v d d' :
  dict_pop k d = Some (v, d') -> d'.*1 ⊆ d.*1.
Proof.
  revert d'. induction d as [|[k' v'] d IH]; intros d'; cbn [dict_pop]; [done|].
  destruct (String.eqb_spec k' k).
  - intros [= -> ->]. intros y Hy. simpl.
    by apply list_elem_of_further.
  - destruct (dict_pop k d) as [[x r]|]; simpl; [|done].
    intros [= -> <-]. intros y Hy. simpl in Hy |- *.
    apply elem_of_cons in Hy as [->|Hy]; [apply list_elem_of_here|].
    apply list_elem_of_further. by apply (IH r).
Qed.

Lemma dict_pop_Some k v d d' :
  dict_wf d ->
  dict_pop k d = Some (v, d') ->
  dict_get k d = Some v /\
  dict_get k d' = None /\
  (forall k', k' <> k -> dict_get k' d' = dict_get k' d) /\
  dict_wf d' /\
  d'.*2 ⊆ d.*2.
Proof.
  unfold dict_wf. revert d'.
  induction d as [|[k' v'] d IH]; intros d' Hwf;
    cbn [dict_pop dict_get]; [done|].
  rewrite fmap_cons in Hwf. apply NoDup_cons in Hwf as [Hk' Hwf].
  destruct (String.eqb_spec k' k) as [->|Hne].
  - intros [= -> ->]. split; [done|]. split; [by apply dict_get_None|].
    split; [|split; [done|]].
    + intros k' Hk. cbn [dict_get]. by destruct (String.eqb_spec k k').
    + intros y Hy. simpl. by apply list_elem_of_further.
  - destruct (dict_pop k d) as [[x r]|] eqn:E; simpl; [|done].
    intros [= -> <-].
    destruct (IH r Hwf eq_refl) as (Hg & Hn & Ho & Hwf' & Hsub).
    split; [done|]. cbn [dict_get].
    destruct (String.eqb_spec k' k); [done|]. split; [done|]. split; [|split].
    + intros k0 Hk0. destruct (String.eqb_spec k' k0); [done|]. by apply Ho.
    + simpl. apply NoDup_cons. split; [|done].
      intros Hin. apply Hk'. by apply (dict_pop_keys k v d r).
    + intros y Hy. simpl in Hy |- *.
      apply elem_of_cons in Hy as [->|Hy]; [apply list_elem_of_here|].
      apply list_elem_of_further. by apply Hsub.
Qed.

Lemma dict_pop_set_new k v d :
  dict_get k d = None -> dict_pop k (dict_set k v d) = Some (v, d).
Proof.
  induction d as [|[k' v'] d IH]; simpl.
  - by rewrite String.eqb_refl.
  - destruct (String.eqb_spec k' k) as [->|Hne]; [done|].
    intros Hd. simpl. destruct (String.eqb_spec k' k); [done|].
    by rewrite IH.
Qed.

Lemma dict_set_wf k v d : dict_wf d -> dict_wf (dict_set k v d).
Proof.
  unfold dict_wf. intros Hwf.
  destruct (dict_get k d) as [x|] eqn:E.
  - by rewrite dict_set_keys.
  - rewrite dict_set_new, fmap_app by done. simpl.
    apply NoDup_app. split; [done|]. split; [|apply NoDup_singleton].
    intros y Hy ->%list_elem_of_singleton. by apply dict_get_None in E.
Qed.

Lemma dict_set_values k v d : (dict_set k v d).*2 ⊆ v :: d.*2.
Proof.
  induction d as [|[k' v'] d IH]; simpl.
  - done.
  - destruct (String.eqb_spec k' k); simpl.
    + intros y Hy. apply elem_of_cons in Hy as [->|Hy].
      * apply list_elem_of_here.
      * by do 2 apply list_elem_of_further.
    + intros y Hy. apply elem_of_cons in Hy as [->|Hy].
      * apply list_elem_of_further, list_elem_of_here.
      * apply IH in Hy. apply elem_of_cons in Hy as [->|Hy].
        -- apply list_elem_of_here.
        -- by do 2 apply list_elem_of_further.
Qed.
End DictTheory.

Section RegistryTheory.
Context {F : Type} `{Scalar F} `{NoneValue F}.

Implicit Types (w : world F) (ps : pydict) (o : object F) (a : ndarray F).

(** A new object on the buffer of an object that holds the same array
    keeps the world well formed. *)
Lemma world_wf_new_view w o b l0 o0 :
  world_wf w ->
  objs w !! l0 = Some o0 ->
  bufs w !! l0 = Some b ->
  obj_array o = obj_array o0 ->
  world_wf (new_view o b w).2.
Proof.
  intros (Hlen & Hbufs & Hsame) Hl0 Hb0 Harr. unfold new_view, world_wf. simpl.
  assert (Hb : b < length (objs w)).
  { eapply (Forall_lookup_1 _ _ _ _ Hbufs Hb0). }
  split; [|split].
  - rewrite !length_app. simpl. lia.
  - apply Forall_app. split.
    + eapply Forall_impl; [exact Hbufs|]. intros x Hx. simpl in Hx.
      rewrite length_app. simpl. lia.
    + constructor; [rewrite length_app; simpl; lia|constructor].
  - intros l1 l2 o1 o2 b' H1 H2 B1 B2.
    assert (Hcase : forall l o',
      (objs w ++ [o]) !! l = Some o' -> (bufs w ++ [b]) !! l = Some b' ->
      (objs w !! l = Some o' /\ bufs w !! l = Some b') \/
      (o' = o /\ b' = b)).
    { intros l o' Ho Hb'. destruct (decide (l < length (objs w))) as [Hlt|Hge].
      - left. rewrite lookup_app_l in Ho by done.
        rewrite lookup_app_l in Hb' by lia. done.
      - right. rewrite lookup_app_r in Ho by lia.
        rewrite lookup_app_r in Hb' by lia. rewrite Hlen in Hb'.
        destruct (l - length (objs w)) as [|n]; simpl in *; [|done].
        by simplify_eq. }
    destruct (Hcase l1 o1 H1 B1) as [[? ?]|[-> ->]];
      destruct (Hcase l2 o2 H2 B2) as [[? ?]|[-> Hbb]].
    + by eapply Hsame.
    + subst b'. rewrite Harr. by eapply Hsame.
    + rewrite Harr. by eapply Hsame.
    + done.
Qed.

(** A new object with a buffer of its own keeps the world well formed. *)
Lemma world_wf_new_object w o :
  world_wf w -> world_wf (new_object o w).2.
Proof.
  intros (Hlen & Hbufs & Hsame). unfold new_object, world_wf. simpl.
  split; [|split].
  - rewrite !length_app. simpl. lia.
  - apply Forall_app. split.
    + eapply Forall_impl; [exact Hbufs|]. intros x Hx. simpl in Hx.
      rewrite length_app. simpl. lia.
    + constructor; [rewrite length_app; simpl; lia|constructor].
  - intros l1 l2 o1 o2 b' H1 H2 B1 B2.
    assert (Hcase : forall l o',
      (objs w ++ [o]) !! l = Some o' ->
      (bufs w ++ [length (objs w)]) !! l = Some b' ->
      (objs w !! l = Some o' /\ bufs w !! l = Some b' /\
       b' < length (objs w)) \/
      (o' = o /\ b' = length (objs w))).
    { intros l o' Ho Hb'. destruct (decide (l < length (objs w))) as [Hlt|Hge].
      - left. rewrite lookup_app_l in Ho by done.
        rewrite lookup_app_l in Hb' by lia. split; [done|]. split; [done|].
        eapply (Forall_lookup_1 _ _ _ _ Hbufs Hb').
      - right. rewrite lookup_app_r in Ho by lia.
        rewrite lookup_app_r in Hb' by lia. rewrite Hlen in Hb'.
        destruct (l - length (objs w)) as [|n]; simpl in *; [|done].
        by simplify_eq. }
    destruct (Hcase l1 o1 H1 B1) as [(? & ? & ?)|[-> ->]];
      destruct (Hcase l2 o2 H2 B2) as [(? & ? & ?)|[-> Hbb]]; try lia.
    + by eapply Hsame.
    + done.
Qed.

Lemma registry_wf_grow ps w w' :
  registry_wf ps w ->
  (forall l o, objs w !! l = Some o -> objs w' !! l = Some o) ->
  registry_wf ps w'.
Proof.
  unfold registry_wf. intros Hwf Hgrow. eapply Forall_impl; [exact Hwf|].
  intros l (a & g & Hl). exists a, g. by apply Hgrow.
Qed.

Lemma registry_wf_set name p ps w a g :
  registry_wf ps w ->
  objs w !! p = Some (ParameterObj a g) ->
  registry_wf (dict_set name p ps) w.
Proof.
  unfold registry_wf. rewrite !Forall_forall. intros Hwf Hp l Hl.
  apply dict_set_values, elem_of_cons in Hl as [->|Hl]; [by eauto|].
  by apply Hwf.
Qed.

(** X12: registering and looking up.  [register_parameter] makes a new
    [Parameter] object, with no gradient, that holds the values of
    [value] and, when [value] is an array, is a view on its buffer, not
    that array itself.  The name then stands for the new object, every
    other name for what it stood for; a name that was not registered goes
    last in [named_parameters], a name that was keeps its place;
    deregistering a name right after registering it as a new name gives
    the registry as it was. *)
Theorem register_parameter_getattr cls name value ps w :
  world_wf w ->
  registry_wf ps w ->
  dict_wf ps ->
  match value with
  | ALRef l => is_Some (objs w !! l)
  | ALNum _ => True
  end ->
  let p := length (objs w) in
  exists a ps' w',
    match value with
    | ALRef l => obj_array <$> objs w !! l = Some a /\ bufs w' !! p = bufs w !! l
    | ALNum x => a = np_scalar x /\ bufs w' !! p = Some p
    end /\
    register_parameter name value ps w = (Ok p, ps', w') /\
    objs w' = objs w ++ [ParameterObj a None] /\
    getattr cls name ps' = Ok p /\
    (forall name', name' <> name ->
       getattr cls name' ps' = getattr cls name' ps) /\
    (dict_get name ps = None ->
     named_parameters ps' = named_parameters ps ++ [(name, p)] /\
     (deregister_parameter name ps' w').1.2 = ps) /\
    (is_Some (dict_get name ps) ->
     (named_parameters ps').*1 = (named_parameters ps).*1) /\
    world_wf w' /\ registry_wf ps' w' /\ dict_wf ps'.
Proof.
  intros Hw Hreg Hd Hval p.
  assert (Hlen : length (bufs w) = length (objs w)) by apply Hw.
  assert (Hcommon : forall a w',
    objs w' = objs w ++ [ParameterObj a None] ->
    getattr cls name (dict_set name p ps) = Ok p /\
    (forall name', name' <> name ->
       getattr cls name' (dict_set name p ps) = getattr cls name' ps) /\
    (dict_get name ps = None ->
     named_parameters (dict_set name p ps) = named_parameters ps ++ [(name, p)] /\
     (deregister_parameter name (dict_set name p ps) w').1.2 = ps) /\
    (is_Some (dict_get name ps) ->
     (named_parameters (dict_set name p ps)).*1 = (named_parameters ps).*1) /\
    registry_wf (dict_set name p ps) w' /\ dict_wf (dict_set name p ps)).
  { intros a w' Hobjs. split; [|split; [|split; [|split; [|split]]]].
    - unfold getattr. by rewrite dict_get_set_eq.
    - intros name' Hne. unfold getattr. by rewrite dict_get_set_ne.
    - intros Hnew. split; [by apply dict_set_new|].
      unfold deregister_parameter. rewrite dict_pop_set_new by done.
      rewrite Hobjs. unfold p. rewrite lookup_app_r by lia.
      rewrite Nat.sub_diag. simpl.
      by destruct (bufs w' !! length (objs w)).
    - intros Hold. by apply dict_set_keys.
    - apply (registry_wf_set name p ps w' a None).
      + eapply registry_wf_grow; [exact Hreg|]. intros l o Hl.
        rewrite Hobjs. rewrite lookup_app_l; [done|]. by eapply lookup_lt_Some.
      + rewrite Hobjs. unfold p. rewrite lookup_app_r by lia.
        by rewrite Nat.sub_diag.
    - by apply dict_set_wf. }
  unfold register_parameter, Parameter_new.
  destruct value as [l|x].
  - destruct Hval as [o Ho]. rewrite Ho.
    assert (Hl : l < length (objs w)) by (by eapply lookup_lt_Some).
    destruct (bufs w !! l) as [b|] eqn:Hb;
      [|apply lookup_ge_None in Hb; lia].
    exists (obj_array o), (dict_set name p ps),
      (new_view (ParameterObj (obj_array o) None) b w).2.
    destruct (Hcommon (obj_array o)
                (new_view (ParameterObj (obj_array o) None) b w).2 eq_refl)
      as (? & ? & ? & ? & ? & ?).
    split.
    { split; [done|]. simpl. rewrite lookup_app_r by lia.
      by replace (p - length (bufs w)) with 0 by lia. }
    do 6 (split; [done|]). split; [|done].
    by apply (world_wf_new_view w _ b l o).
  - exists (np_scalar x), (dict_set name p ps),
      (new_object (ParameterObj (np_scalar x) None) w).2.
    destruct (Hcommon (np_scalar x)
                (new_object (ParameterObj (np_scalar x) None) w).2 eq_refl)
      as (? & ? & ? & ? & ? & ?).
    split.
    { split; [done|]. simpl. rewrite lookup_app_r by lia.
      by replace (p - length (bufs w)) with 0 by lia. }
    do 6 (split; [done|]). split; [|done].
    by apply world_wf_new_object.
Qed.

(** X13: deregistering and deleting.  For a name that is not registered,
    [deregister_parameter] raises [KeyError] and changes nothing, and
    [__delattr__] does what [object.__delattr__] does: it deletes the name
    when it is an ordinary attribute of the module (other than the
    registry [_parameters] itself), and raises [AttributeError] when it
    is not; the registry and the arrays stay as they are.  For a registered name both remove the name from the
    registry and return a new plain array that is a view of the parameter
    and holds its values; the ordinary attributes are not touched;
    afterwards [__getattr__] raises [AttributeError] for that name and
    finds every other name as before. *)
Theorem deregister_parameter_cases cls name ps attrs w :
  world_wf w ->
  registry_wf ps w ->
  dict_wf ps ->
  (dict_get name ps = None ->
   deregister_parameter name ps w = (key_error name, ps, w) /\
   (name ∈ attrs ->
    name <> "_parameters" ->
    delattr cls name ps attrs w =
      (Ok PlainDeletion, ps, filter (fun n => n <> name) attrs, w) /\
    (name ∉ filter (fun n => n <> name) attrs) /\
    (forall n, n <> name ->
       (n ∈ filter (fun n => n <> name) attrs) <-> (n ∈ attrs))) /\
   (name ∉ attrs ->
    exists e,
      delattr cls name ps attrs w = (Raise e, ps, attrs, w) /\
      exn_cls e = AttributeError)) /\
  (forall par,
     dict_get name ps = Some par ->
     let arr := length (objs w) in
     exists a ps' w',
       obj_array <$> objs w !! par = Some a /\
       deregister_parameter name ps w = (Ok arr, ps', w') /\
       delattr cls name ps attrs w =
         (Ok (ParameterDeregistered arr), ps', attrs, w') /\
       objs w' = objs w ++ [ArrayObj a] /\
       bufs w' !! arr = bufs w !! par /\
       getattr cls name ps' =
         raise AttributeError
           ("'" +:+ cls +:+ "' object has no attribute '" +:+ name +:+ "'") /\
       (forall name', name' <> name ->
          getattr cls name' ps' = getattr cls name' ps) /\
       world_wf w' /\ registry_wf ps' w' /\ dict_wf ps').
Proof.
  intros Hw Hreg Hd. split.
  - intros Hnone. apply dict_pop_None in Hnone.
    assert (Hdereg : deregister_parameter name ps w = (key_error name, ps, w)).
    { unfold deregister_parameter. by rewrite Hnone. }
    split; [done|]. split.
    + intros Hin _. split; [|split].
      * unfold delattr, object_delattr. rewrite Hdereg. simpl.
        by rewrite bool_decide_eq_true_2.
      * rewrite list_elem_of_filter. intros [Hn _]. by apply Hn.
      * intros n Hn. rewrite list_elem_of_filter.
        split; [by intros [_ Hin']|by intros Hin'].
    + intros Hnot. eexists. split.
      * unfold delattr, object_delattr. rewrite Hdereg. simpl.
        by rewrite bool_decide_eq_false_2.
      * reflexivity.
  - intros par Hget arr.
    destruct (dict_pop name ps) as [[par' ps']|] eqn:Hpop;
      [|apply dict_pop_None in Hpop; congruence].
    destruct (dict_pop_Some name par' ps ps' Hd Hpop)
      as (Hget' & Hgone & Hother & Hd' & Hsub).
    assert (par' = par) as -> by congruence.
    assert (Hpar : exists a g, objs w !! par = Some (ParameterObj a g)).
    { unfold registry_wf in Hreg. rewrite Forall_forall in Hreg.
      by eapply Hreg, dict_get_elem. }
    destruct Hpar as (a & g & Hpar).
    assert (Hlt : par < length (objs w)) by (by eapply lookup_lt_Some).
    assert (Hlen : length (bufs w) = length (objs w)) by apply Hw.
    destruct (bufs w !! par) as [b|] eqn:Hb;
      [|apply lookup_ge_None in Hb; lia].
    exists a, ps', (new_view (ArrayObj a) b w).2.
    assert (Hdereg : deregister_parameter name ps w =
              (Ok arr, ps', (new_view (ArrayObj a) b w).2)).
    { unfold deregister_parameter. by rewrite Hpop, Hpar, Hb. }
    split; [by rewrite Hpar|]. split; [done|].
    split; [by unfold delattr; rewrite Hdereg|].
    split; [done|]. split.
    { simpl. rewrite lookup_app_r by lia.
      by replace (arr - length (bufs w)) with 0 by (unfold arr; lia). }
    split; [by unfold getattr; rewrite Hgone|].
    split; [by intros name' Hne; unfold getattr; rewrite Hother|].
    split; [by apply (world_wf_new_view w _ b par (ParameterObj a g))|].
    split; [|done].
    unfold registry_wf in *. rewrite Forall_forall in Hreg |- *.
    intros l Hl. destruct (Hreg l (Hsub l Hl)) as (a' & g' & Hl').
    exists a', g'. simpl. rewrite lookup_app_l; [done|].
    by eapply lookup_lt_Some.
Qed.

Lemma with_heap_same_length w (h : heap F) :
  length h = length (bufs w) -> with_heap w h = World h (bufs w).
Proof.
  intros Hlen. unfold with_heap. rewrite Hlen, Nat.sub_diag. simpl.
  by rewrite app_nil_r.
Qed.

Lemma lookup_write_buffer w b a l o b' :
  objs w !! l = Some o ->
  bufs w !! l = Some b' ->
  objs (write_buffer b a w) !! l =
    Some (if Nat.eqb b' b then set_array o a else o).
Proof.
  intros Ho Hb. unfold write_buffer. simpl.
  by rewrite lookup_zip_with, Ho, Hb.
Qed.

Lemma length_write_buffer w b a :
  length (bufs w) = length (objs w) ->
  length (objs (write_buffer b a w)) = length (objs w).
Proof.
  intros Hlen. unfold write_buffer. simpl. rewrite length_zip_with. lia.
Qed.

Lemma can_broadcast_scalar (s : list nat) : can_broadcast [] s = true.
Proof.
  unfold can_broadcast, lpad. simpl.
  rewrite Nat.sub_0_r, app_nil_r. apply dims_compatible_ones.
Qed.


(** The world after [par[...] = value] followed by [del par.grad], for a
    value that broadcasts. *)
Lemma setitem_then_del w par a (g : option loc) b value v :
  length (bufs w) = length (objs w) ->
  objs w !! par = Some (ParameterObj a g) ->
  bufs w !! par = Some b ->
  assigned_array (objs w) value = Ok v ->
  can_broadcast (shape v) (shape a) = true ->
  let a' := NdArray (shape a) (bcast v (shape a)) in
  let w1 := write_buffer b a' w in
  setitem_all par value w = (Ok (), w1) /\
  grad_del par (objs w1) =
    (Ok (), <[par := ParameterObj a' None]> (objs w1)) /\
  with_heap w1 (<[par := ParameterObj a' None]> (objs w1)) =
    World (<[par := ParameterObj a' None]> (objs w1)) (bufs w).
Proof.
  intros Hlen Hpar Hb Hv Hbc a' w1.
  assert (Hpar1 : objs w1 !! par = Some (ParameterObj a' g)).
  { unfold w1. rewrite (lookup_write_buffer w b a' par _ b Hpar Hb).
    by rewrite Nat.eqb_refl. }
  split; [|split].
  - unfold setitem_all. rewrite Hpar, Hb, Hv. simpl. by rewrite Hbc.
  - unfold grad_del. by rewrite Hpar1.
  - rewrite with_heap_same_length; [done|].
    rewrite length_insert. unfold w1. rewrite length_write_buffer by done.
    simpl. lia.
Qed.


End RegistryTheory.

Section RegistryLoops.
Context {F : Type} `{Scalar F} `{NoneValue F}.

Implicit Types (w : world F) (ps : pydict) (o : object F) (a : ndarray F).

Lemma objs_with_heap w (h : heap F) : objs (with_heap w h) = h.
Proof. done. Qed.

(** The loop of [Module.zero_grad] over valid parameters. *)
Lemma zero_grad_all_heap (params : list loc) : forall w,
  Forall (fun l => exists a g, objs w !! l = Some (ParameterObj a g)) params ->
  exists w',
    zero_grad_all params w = (Ok (), w') /\
    length (objs w) <= length (objs w') /\
    (forall l, l < length (objs w) -> l ∉ params ->
       objs w' !! l = objs w !! l) /\
    (forall l a (g : option loc),
       l ∈ params -> objs w !! l = Some (ParameterObj a g) ->
       exists g',
         objs w' !! l = Some (ParameterObj a (Some g')) /\
         length (objs w) <= g' /\
         objs w' !! g' = Some (ParameterObj (np_zeros (shape a)) None)).
Proof.
  induction params as [|p rest IH]; intros w Hall.
  - exists w. split; [done|]. split; [done|]. split; [done|].
    intros l a g Hl. by apply elem_of_nil in Hl.
  - apply Forall_cons in Hall as [(a0 & g0 & Hp) Hrest].
    assert (Hplt : p < length (objs w)) by (by eapply lookup_lt_Some).
    destruct (zero_grad_heap p (objs w) a0 g0 Hp)
      as (Hzg & Hlen1 & Hp1 & Hnew1 & Hother1 & _).
    set (h1 := <[p := ParameterObj a0 (Some (length (objs w)))]>
                 (objs w ++ [ParameterObj (np_zeros (shape a0)) None])) in *.
    assert (Hrest1 : Forall (fun l => exists a g,
              objs (with_heap w h1) !! l = Some (ParameterObj a g)) rest).
    { eapply Forall_impl; [exact Hrest|]. intros l (a & g & Hl). simpl.
      destruct (decide (l = p)) as [->|Hne]; [by eauto|].
      exists a, g. rewrite Hother1; [done..|]. by eapply lookup_lt_Some. }
    destruct (IH (with_heap w h1) Hrest1) as (w' & Hrun & Hle & Hframe & Hpar).
    rewrite objs_with_heap in Hle, Hframe, Hpar.
    assert (Hrest_lt : forall l, l ∈ rest -> l < length (objs w)).
    { intros l Hl. rewrite Forall_forall in Hrest.
      destruct (Hrest l Hl) as (a & g & Hl'). by eapply lookup_lt_Some. }
    exists w'. split; [by simpl; rewrite Hzg|]. split; [lia|]. split.
    + intros l Hl Hnot. apply not_elem_of_cons in Hnot as [Hne Hnot].
      rewrite Hframe by (done || lia). by apply Hother1.
    + intros l a g Hl Hobj.
      destruct (decide (l ∈ rest)) as [Hin|Hnot].
      * assert (Hl1 : exists g1, h1 !! l = Some (ParameterObj a g1)).
        { destruct (decide (l = p)) as [->|Hne].
          - rewrite Hp in Hobj. injection Hobj as <- <-. by eauto.
          - exists g. rewrite Hother1; [done..|]. by eapply lookup_lt_Some. }
        destruct Hl1 as [g1 Hl1].
        destruct (Hpar l a g1 Hin Hl1) as (g' & ? & ? & ?).
        exists g'. split; [done|]. split; [lia|done].
      * apply elem_of_cons in Hl as [->|Hl]; [|done].
        rewrite Hp in Hobj. injection Hobj as <- <-.
        exists (length (objs w)). split; [|split; [done|]].
        -- rewrite Hframe by (done || lia). done.
        -- rewrite Hframe; [done|lia|].
           intros Hin. apply Hrest_lt in Hin. lia.
Qed.

(** X16: [Module.zero_grad] on a registry whose names stand for
    [Parameter] objects succeeds; afterwards every registered parameter
    holds the values it held and has as gradient a new array of zeros of
    its shape, and every object that was there and is no registered
    parameter is as before. *)
Theorem Module_zero_grad_all ps w :
  registry_wf ps w ->
  exists w',
    Module_zero_grad ps w = (Ok (), w') /\
    (forall name par a (g : option loc),
       dict_get name ps = Some par ->
       objs w !! par = Some (ParameterObj a g) ->
       param_array name ps w' = Some a /\
       exists g',
         param_grad_slot name ps w' = Some (Some g') /\
         length (objs w) <= g' /\
         grad_array par (objs w') = Some (np_zeros (shape a))) /\
    (forall l, l < length (objs w) -> l ∉ parameters ps ->
       objs w' !! l = objs w !! l).
Proof.
  intros Hreg. unfold Module_zero_grad.
  destruct (zero_grad_all_heap (parameters ps) w Hreg)
    as (w' & Hrun & _ & Hframe & Hpar).
  exists w'. split; [done|]. split; [|done].
  intros name par a g Hget Hobj.
  destruct (Hpar par a g (dict_get_elem _ _ _ Hget) Hobj) as (g' & Hp' & Hge & Hz).
  unfold param_array, param_grad_slot, grad_slot, grad_array.
  rewrite Hget. simpl. rewrite Hp'. split; [done|].
  exists g'. split; [done|]. split; [done|]. by rewrite Hz.
Qed.

Lemma reset_of_refl o : reset_of o o.
Proof. split; [by left|]. destruct o; eauto. Qed.

Lemma reset_of_trans o1 o2 o3 : reset_of o1 o2 -> reset_of o2 o3 -> reset_of o1 o3.
Proof.
  intros [Ha K1] [Hb K2]. split.
  - destruct Ha as [Ha|Ha], Hb as [Hb|Hb]; rewrite Hb, Ha; auto.
  - destruct o1 as [a1|a1 g1].
    + destruct K1 as [a2 ->]. done.
    + destruct K1 as (a2 & g2 & -> & Hg2).
      destruct K2 as (a3 & g3 & -> & Hg3).
      exists a3, g3. split; [done|].
      destruct Hg2 as [->| ->], Hg3 as [->| ->]; auto.
Qed.

(** One step of [reset_parameters]: [self.__setattr__(name, 0)] for a
    registered name. *)
Lemma setattr_zero_step name ps w par a (g : option loc) :
  world_wf w ->
  dict_get name ps = Some par ->
  objs w !! par = Some (ParameterObj a g) ->
  exists w',
    setattr name (PyNum s0) ps w = (Ok ParameterAssigned, ps, w') /\
    world_wf w' /\
    objs w' !! par = Some (ParameterObj (np_zeros (shape a)) None) /\
    (forall l o, objs w !! l = Some o ->
       exists o', objs w' !! l = Some o' /\ reset_of o o').
Proof.
  intros Hw Hget Hpar.
  assert (Hlen : length (bufs w) = length (objs w)) by apply Hw.
  assert (Hlt : par < length (objs w)) by (by eapply lookup_lt_Some).
  destruct (bufs w !! par) as [b|] eqn:Hb; [|apply lookup_ge_None in Hb; lia].
  destruct (setitem_then_del w par a g b (PyNum s0) (np_scalar s0)
              Hlen Hpar Hb eq_refl (can_broadcast_scalar _))
    as (Hset & Hdel & Hwh).
  rewrite bcast_np_scalar in Hset, Hdel, Hwh.
  change (NdArray (shape a) (replicate (numel (shape a)) s0))
    with (np_zeros (shape a)) in Hset, Hdel, Hwh.
  set (Z := np_zeros (shape a)) in *.
  set (w1 := write_buffer b Z w) in *.
  assert (Hlen1 : length (objs w1) = length (objs w))
    by (by apply length_write_buffer).
  assert (Hlook : forall l o b',
    objs w !! l = Some o -> bufs w !! l = Some b' ->
    <[par := ParameterObj Z None]> (objs w1) !! l =
      Some (if decide (l = par) then ParameterObj Z None
            else if Nat.eqb b' b then set_array o Z else o)).
  { intros l o b' Ho Hb'. destruct (decide (l = par)) as [->|Hne].
    - apply list_lookup_insert_eq. lia.
    - rewrite list_lookup_insert_ne by done.
      by apply lookup_write_buffer. }
  eexists. split.
  { unfold setattr. rewrite Hget. simpl. rewrite Hset, Hdel, Hwh. reflexivity. }
  destruct Hw as (_ & Hbufs & Hsame).
  split; [|split].
  - unfold world_wf. cbn [objs bufs]. rewrite length_insert, Hlen1.
    split; [done|]. split; [done|].
    intros l1 l2 o1 o2 b' H1 H2 B1 B2.
    assert (Hl1 : l1 < length (objs w)).
    { apply lookup_lt_Some in H1. rewrite length_insert in H1. lia. }
    assert (Hl2 : l2 < length (objs w)).
    { apply lookup_lt_Some in H2. rewrite length_insert in H2. lia. }
    destruct (objs w !! l1) as [o1'|] eqn:E1; [|apply lookup_ge_None in E1; lia].
    destruct (objs w !! l2) as [o2'|] eqn:E2; [|apply lookup_ge_None in E2; lia].
    rewrite (Hlook l1 o1' b' E1 B1) in H1.
    rewrite (Hlook l2 o2' b' E2 B2) in H2.
    injection H1 as <-. injection H2 as <-.
    assert (Hpb1 : l1 = par -> b' = b) by (intros ->; congruence).
    assert (Hpb2 : l2 = par -> b' = b) by (intros ->; congruence).
    destruct (decide (l1 = par)) as [Hp1|Hp1];
      destruct (decide (l2 = par)) as [Hp2|Hp2]; simpl.
    + done.
    + rewrite (Hpb1 Hp1), Nat.eqb_refl. by rewrite obj_array_set_array.
    + rewrite (Hpb2 Hp2), Nat.eqb_refl. by rewrite obj_array_set_array.
    + destruct (Nat.eqb b' b); [by rewrite !obj_array_set_array|].
      by eapply Hsame.
  - cbn [objs bufs]. apply list_lookup_insert_eq. lia.
  - intros l o Ho. cbn [objs bufs].
    assert (Hl : l < length (objs w)) by (by eapply lookup_lt_Some).
    destruct (bufs w !! l) as [b'|] eqn:Hb'; [|apply lookup_ge_None in Hb'; lia].
    rewrite (Hlook l o b' Ho Hb'). eexists. split; [reflexivity|].
    destruct (decide (l = par)) as [->|Hne].
    + rewrite Hpar in Ho. injection Ho as <-. split; [by right|].
      exists Z, None. auto.
    + destruct (Nat.eqb_spec b' b) as [->|Hbb]; [|apply reset_of_refl].
      assert (Harr : obj_array o = a).
      { by apply (Hsame l par o (ParameterObj a g) b). }
      split; [right; by rewrite obj_array_set_array, Harr|].
      destruct o; simpl; eauto.
Qed.

Lemma np_zeros_reset a a' :
  a' = a \/ a' = np_zeros (shape a) -> np_zeros (shape a') = np_zeros (shape a).
Proof. by intros [->| ->]. Qed.

(** The loop of [reset_parameters]. *)
Lemma setattr_all_zero (names : list string) ps : forall w,
  world_wf w ->
  registry_wf ps w ->
  Forall (fun n => is_Some (dict_get n ps)) names ->
  exists w',
    setattr_all names (PyNum s0) ps w = (Ok (), ps, w') /\
    (forall l o, objs w !! l = Some o ->
       exists o', objs w' !! l = Some o' /\ reset_of o o') /\
    (forall n par a (g : option loc),
       n ∈ names -> dict_get n ps = Some par ->
       objs w !! par = Some (ParameterObj a g) ->
       objs w' !! par = Some (ParameterObj (np_zeros (shape a)) None)).
Proof.
  induction names as [|name rest IH]; intros w Hw Hreg Hnames.
  - exists w. split; [done|]. split.
    + intros l o Ho. exists o. split; [done|apply reset_of_refl].
    + intros n par a g Hn. by apply elem_of_nil in Hn.
  - apply Forall_cons in Hnames as [[par Hget] Hrest].
    assert (Hpar : exists a g, objs w !! par = Some (ParameterObj a g)).
    { unfold registry_wf in Hreg. rewrite Forall_forall in Hreg.
      by eapply Hreg, dict_get_elem. }
    destruct Hpar as (a & g & Hpar).
    destruct (setattr_zero_step name ps w par a g Hw Hget Hpar)
      as (w1 & Hstep & Hw1 & Hpar1 & Hres1).
    assert (Hreg1 : registry_wf ps w1).
    { unfold registry_wf in *. eapply Forall_impl; [exact Hreg|].
      intros l (al & gl & Hl). destruct (Hres1 l _ Hl) as (o' & Ho' & _ & K).
      destruct K as (a' & g' & -> & _). eauto. }
    destruct (IH w1 Hw1 Hreg1 Hrest) as (w' & Hrun & Hres & Hdone).
    exists w'. split; [by simpl; rewrite Hstep|]. split.
    + intros l o Ho. destruct (Hres1 l o Ho) as (o1 & Ho1 & R1).
      destruct (Hres l o1 Ho1) as (o' & Ho' & R2).
      exists o'. split; [done|]. by eapply reset_of_trans.
    + intros n par' a' g' Hn Hget' Hobj.
      destruct (Hres1 par' _ Hobj) as (o1 & Ho1 & [Harr1 K1]).
      destruct K1 as (a1 & g1 & -> & _). simpl in Harr1.
      destruct (decide (n ∈ rest)) as [Hin|Hnot].
      * rewrite (Hdone n par' a1 g1 Hin Hget' Ho1).
        by rewrite (np_zeros_reset a' a1).
      * apply elem_of_cons in Hn as [->|Hn]; [|done].
        assert (par' = par) as -> by congruence.
        rewrite Hpar in Hobj. injection Hobj as <- <-.
        destruct (Hres par _ Hpar1) as (o' & Ho' & [Harr K]).
        destruct K as (a2 & g2 & -> & Hg2). simpl in Harr.
        rewrite Ho'. f_equal. f_equal.
        -- by destruct Harr as [->| ->].
        -- by destruct Hg2 as [->| ->].
Qed.

(** X17: [reset_parameters] on a well-formed registry succeeds and leaves
    the registry as it is; afterwards every registered parameter is the
    same object, holds zeros of its shape and has no gradient; every
    other object keeps its class and holds either what it held or,
    when it is a view on the buffer of a parameter, zeros of its shape. *)
Theorem reset_parameters_all_zero ps w :
  world_wf w ->
  registry_wf ps w ->
  exists w',
    reset_parameters ps w = (Ok (), ps, w') /\
    (forall name par a (g : option loc),
       dict_get name ps = Some par ->
       objs w !! par = Some (ParameterObj a g) ->
       param_array name ps w' = Some (np_zeros (shape a)) /\
       param_grad_slot name ps w' = Some None) /\
    (forall l o, objs w !! l = Some o ->
       exists o', objs w' !! l = Some o' /\ reset_of o o').
Proof.
  intros Hw Hreg. unfold reset_parameters, named_parameters.
  assert (Hnames : Forall (fun n => is_Some (dict_get n ps)) ps.*1).
  { rewrite Forall_forall. intros n Hn.
    destruct (dict_get n ps) eqn:E; [by eauto|].
    by apply dict_get_None in E. }
  destruct (setattr_all_zero ps.*1 ps w Hw Hreg Hnames)
    as (w' & Hrun & Hres & Hdone).
  exists w'. split; [done|]. split; [|done].
  intros name par a g Hget Hobj.
  assert (Hin : name ∈ ps.*1).
  { destruct (decide (name ∈ ps.*1)) as [?|Hnot]; [done|].
    apply dict_get_None in Hnot. congruence. }
  unfold param_array, param_grad_slot, grad_slot. rewrite Hget. simpl.
  by rewrite (Hdone name par a g Hin Hget Hobj).
Qed.
End RegistryLoops.


(** ** [LossFunction] and [MSE] *)

Section LossTheory.
Context {F : Type} `{Scalar F} {W Cache : Type}.
Variable r : reduction_module.
Variable loss_outputs :
  list (ndarray F) -> W -> result (ndarray F * Cache) * W.
Variable loss_grads : Cache -> W -> result (grads_val F) * W.

Abbreviation loss_obj := (LossObj W Cache r).
Abbreviation Loss_forward := (Loss_forward r loss_outputs).
Abbreviation Loss_call := (Loss_call r loss_outputs).
Abbreviation Loss_backward := (Loss_backward r loss_grads).

(** X18: [LossFunction.forward] runs two modules one after the other and
    is not atomic either.  When both [compute_outputs] succeed, the loss
    object and its reduction module each record one entry: the shapes of
    the predictions and the targets with the cache of the loss, and the
    shape of the unreduced loss with the cache of the reduction.  When
    the reduction fails, the entry of the loss object is recorded all the
    same, and the reduction module is left with the shape it recorded and
    no cache. *)
Theorem loss_forward_records (st : loss_obj) predictions targets out cache w :
  loss_outputs [predictions; targets] (_parameters (loss_base st))
    = (Ok (out, cache), w) ->
  let st' := (Loss_forward predictions targets st).2 in
  _shape_cache (loss_base st') =
    _shape_cache (loss_base st) ++ [[shape predictions; shape targets]] /\
  _forward_cache (loss_base st') = _forward_cache (loss_base st) ++ [cache] /\
  _shape_cache (reduction st') = _shape_cache (reduction st) ++ [[shape out]] /\
  (forall res rc u,
     reduction_compute_outputs r [out] (_parameters (reduction st))
       = (Ok (res, rc), u) ->
     (Loss_forward predictions targets st).1 = Ok res /\
     _forward_cache (reduction st') = _forward_cache (reduction st) ++ [rc]) /\
  (forall e u,
     reduction_compute_outputs r [out] (_parameters (reduction st))
       = (Raise e, u) ->
     (Loss_forward predictions targets st).1 = Raise e /\
     _forward_cache (reduction st') = _forward_cache (reduction st)).
Proof.
  intros Hout st'. unfold st', Loss_forward.
  rewrite (forward_Ok loss_outputs _ _ _ _ _ Hout).
  destruct (reduction_compute_outputs r [out] (_parameters (reduction st)))
    as [[[res rc]|e] u] eqn:E.
  - rewrite (forward_Ok _ _ _ _ _ _ E). simpl.
    do 3 (split; [done|]). split.
    + by intros res' rc' u' [= <- <- <-].
    + by intros e' u' [=].
  - rewrite (forward_Raise _ _ _ _ _ E). simpl.
    do 3 (split; [done|]). split.
    + by intros res' rc' u' [=].
    + by intros e' u' [= <- <-].
Qed.

(** X19: evaluation mode of a loss object does not reach its reduction
    module.  With the loss object in evaluation mode, a call returns the
    reduced loss and records nothing in either module; [backward] first
    runs [backward] of the reduction module, which is still in training
    mode and gives up its last entries, and only then raises the
    [ValueError] of the loss object. *)
Theorem loss_eval_mode (st : loss_obj) predictions targets grads :
  predicting (loss_base st) = true ->
  let st' := (Loss_call predictions targets st).2 in
  (_shape_cache (loss_base st') = _shape_cache (loss_base st) /\
   _forward_cache (loss_base st') = _forward_cache (loss_base st) /\
   _shape_cache (reduction st') = _shape_cache (reduction st) /\
   _forward_cache (reduction st') = _forward_cache (reduction st)) /\
  (forall gr m,
     predicting (reduction st) = false ->
     backward (reduction_compute_grads r) grads (reduction st) = (Ok gr, m) ->
     Loss_backward grads st =
       (raise ValueError "module not in training mode", set_reduction m st) /\
     length (_shape_cache m) + 1 = length (_shape_cache (reduction st)) /\
     length (_forward_cache m) + 1 = length (_forward_cache (reduction st))).
Proof.
  intros Hp st'. split.
  - unfold st', Loss_call. rewrite Hp.
    destruct (loss_outputs _ _) as [[[out c]|e] w]; [|done].
    by destruct (reduction_compute_outputs r [out] _) as [[[res rc]|e] u].
  - intros gr m Hpr Hb. split.
    + unfold Loss_backward. rewrite Hb. unfold backward at 1. by rewrite Hp.
    + destruct (backward_inv _ _ _ _ _ Hpr Hb) as (shapes & c & Hs & Hf & _).
      rewrite Hs, Hf, !length_app. simpl. done.
Qed.
End LossTheory.

Section MSETheory.
Context {F : Type} `{Scalar F} `{!ScalarLaws F} {W : Type}.

(** What [MSE.compute_grads] returns for a batch of [N] samples. *)
Lemma MSE_compute_grads_batch (logits targets : ndarray F) N s' (w : W) :
  wf_array logits -> wf_array targets ->
  shape logits = N :: s' -> shape targets = N :: s' -> N <> 0 ->
  let d := NdArray (N :: s')
             ((fun x => smul (sdiv (sof_nat 2) (sof_nat N)) x)
                <$> zip_with ssub (data logits) (data targets)) in
  MSE_compute_grads (MkMSECache targets logits) w = (Ok (GTuple [d; d]), w) /\
  wf_array d.
Proof.
  intros Hl Ht Hsl Hst HN d. split.
  - unfold MSE_compute_grads, MSE_factor, tuple_index. simpl.
    rewrite Hsl. simpl.
    destruct (Nat.eqb_spec N 0) as [?|_]; [done|]. simpl.
    rewrite np_binop_same_shape by (done || congruence). simpl.
    by rewrite Hsl.
  - unfold wf_array, d. simpl. fold (numel s').
    rewrite length_fmap, length_zip_with.
    unfold wf_array in Hl, Ht. rewrite Hl, Ht, Hsl, Hst. simpl.
    fold (numel s'). lia.
Qed.

(** X20: the gradients that [MSE] returns do not depend on the gradient
    it is given, on the reduction, or on [target_grads].  For predictions
    and targets of one shape with [N > 0] samples, after a successful
    [forward], a [backward] whose reduction step succeeds returns the same
    array twice, as gradient of the predictions and of the targets:
    [2/N * (logits - targets)], element by element; the caches of the
    loss object are as before the [forward]. *)
Theorem MSE_backward_ignores_gradient (r : reduction_module)
    (logits targets g : ndarray F) N s'
    (st st1 : LossObj W (MSE_cache F) r) out gr m :
  predicting (loss_base st) = false ->
  wf_array logits -> wf_array targets ->
  shape logits = N :: s' -> shape targets = N :: s' -> N <> 0 ->
  Loss_forward r MSE_compute_outputs logits targets st = (Ok out, st1) ->
  backward (reduction_compute_grads r) [g] (reduction st1) = (Ok gr, m) ->
  let d := NdArray (N :: s')
             ((fun x => smul (sdiv (sof_nat 2) (sof_nat N)) x)
                <$> zip_with ssub (data logits) (data targets)) in
  Loss_backward r MSE_compute_grads [g] st1 =
    (Ok (GTuple [d; d]),
     MkLoss (loss_base st) (disable_target_grads st) m).
Proof.
  intros Hp Hl Ht Hsl Hst HN Hfw Hbw d.
  destruct (MSE_compute_grads_batch logits targets N s'
              (_parameters (loss_base st)) Hl Ht Hsl Hst HN) as [Hcg Hd].
  fold d in Hcg, Hd.
  assert (Hout : MSE_compute_outputs [logits; targets] (_parameters (loss_base st)) =
    (Ok (np_square (NdArray (shape logits)
                      (zip_with ssub (data logits) (data targets))),
         MkMSECache targets logits), _parameters (loss_base st))).
  { unfold MSE_compute_outputs.
    by rewrite np_binop_same_shape by (done || congruence). }
  unfold Loss_forward in Hfw. rewrite (forward_Ok _ _ _ _ _ _ Hout) in Hfw.
  destruct (forward (reduction_compute_outputs r) _ (reduction st))
    as [res m1] eqn:Em. injection Hfw as -> <-.
  unfold Loss_backward. simpl in Hbw |- *. rewrite Hbw.
  erewrite backward_by_loop; [|done|reflexivity|reflexivity].
  cbn -[MSE_compute_grads np_iadd np_zeros]. rewrite Hcg.
  cbn -[np_iadd np_zeros]. rewrite Hsl, Hst.
  assert (Hz : np_iadd (np_zeros (N :: s')) d = Ok d)
    by exact (np_iadd_zeros d Hd).
  rewrite !Hz. cbn -[np_iadd np_zeros].
  unfold set_loss_base, set_reduction. simpl. do 2 f_equal.
  destruct st as [[p w fc sc] dt rm]. simpl in *. by subst.
Qed.

(** X21: [MSE.compute_grads] divides by the number of samples it reads
    from the shape of the cached predictions.  In [backward], predictions
    without an axis raise [IndexError] and an empty batch raises
    [ZeroDivisionError]; neither is a [TypeError], so the entries that
    [backward] popped are not put back. *)
Theorem MSE_backward_no_samples (st : ModuleObj W (MSE_cache F))
    sc fc shapes cache g :
  predicting st = false ->
  _shape_cache st = sc ++ [shapes] ->
  _forward_cache st = fc ++ [cache] ->
  (shape (cache_logits cache) = [] ->
   backward (fun _ => MSE_compute_grads) [g] st =
     (raise IndexError "tuple index out of range",
      MkModule false (_parameters st) fc sc)) /\
  (forall s', shape (cache_logits cache) = 0 :: s' ->
   backward (fun _ => MSE_compute_grads) [g] st =
     (Raise (Exn (OtherError "ZeroDivisionError") [ArgStr "division by zero"]),
      MkModule false (_parameters st) fc sc)).
Proof.
  intros Hp Hs Hf. split.
  - intros H0. erewrite backward_by_loop; [|done..].
    cbn -[MSE_compute_grads]. unfold MSE_compute_grads, MSE_factor, tuple_index.
    by rewrite H0.
  - intros s' H0. erewrite backward_by_loop; [|done..].
    cbn -[MSE_compute_grads]. unfold MSE_compute_grads, MSE_factor, tuple_index.
    by rewrite H0.
Qed.
End MSETheory.

(** ** [CachedDownload] *)

Section DownloadTheory.

Lemma rstrip_slash_snoc (s : string) :
  rstrip_slash (s +:+ "/") = rstrip_slash s.
Proof.
  induction s as [|c s IH]; [done|].
  change (String c s +:+ "/") with (String c (s +:+ "/")).
  cbn [rstrip_slash]. by rewrite IH.
Qed.

Lemma str_last_rstrip_slash (s : string) :
  str_last (rstrip_slash s) <> Some slash.
Proof.
  induction s as [|c s IH]; [done|].
  cbn [rstrip_slash].
  destruct (rstrip_slash s) as [|c' t] eqn:E.
  - destruct (Ascii.eqb_spec c slash) as [->|Hne]; [done|].
    simpl. congruence.
  - cbn [str_last]. cbn [str_last] in IH.
    by destruct (str_last t).
Qed.

Lemma rstrip_slash_no_slash (s : string) :
  str_last s <> Some slash -> rstrip_slash s = s.
Proof.
  induction s as [|c s IH]; [done|].
  cbn [rstrip_slash str_last]. intros Hl.
  destruct (str_last s) as [c'|] eqn:E.
  - rewrite IH by done. destruct s; [done|done].
  - assert (s = EmptyString) as ->.
    { destruct s as [|c2 s2]; [done|]. simpl in E.
      by destruct (str_last s2). }
    simpl. destruct (Ascii.eqb_spec c slash) as [->|Hne]; [done|done].
Qed.

(** X22: slashes at the end of the base URL make no difference to the
    URL of a [CachedDownload]: the URL is the base without them, one
    slash and the file name.  A base that does not end in a slash is
    taken as it is. *)
Theorem CachedDownload_url_slashes (base_url file_name : string) :
  CachedDownload_url (base_url +:+ "/") file_name
    = CachedDownload_url base_url file_name /\
  str_last (rstrip_slash base_url) <> Some slash /\
  (str_last base_url <> Some slash ->
   CachedDownload_url base_url file_name = base_url +:+ "/" +:+ file_name).
Proof.
  unfold CachedDownload_url. split; [by rewrite rstrip_slash_snoc|].
  split; [apply str_last_rstrip_slash|].
  intros Hl. by rewrite rstrip_slash_no_slash.
Qed.

(** [fp.read] succeeds for every size from -1 on. *)
Lemma file_read_Ok n (content : list Byte.byte) :
  (-1 <= n)%Z ->
  exists chunk rest,
    file_read n content = Ok (chunk, rest) /\
    length rest <= length content /\
    (n <> 0%Z -> chunk ++ rest = content) /\
    (n <> 0%Z -> chunk = [] -> content = []) /\
    (chunk <> [] -> length rest < length content) /\
    ((0 <= n)%Z ->
     length chunk = Nat.min (Z.to_nat n) (length content) /\
     length rest = length content - Z.to_nat n).
Proof.
  intros Hn. unfold file_read.
  destruct (Z.ltb_spec n (-1)) as [?|_]; [lia|].
  destruct (Z.ltb_spec n 0) as [Hneg|Hpos].
  - exists content, []. split; [done|]. split; [simpl; lia|].
    split; [by rewrite app_nil_r|]. split; [done|]. split; [|lia].
    intros Hc. destruct content; [done|simpl; lia].
  - exists (take (Z.to_nat n) content), (drop (Z.to_nat n) content).
    split; [done|]. rewrite length_drop, length_take.
    split; [lia|]. split; [by rewrite take_drop|]. split; [|split].
    + intros Hn0 Ht. destruct content as [|b content]; [done|].
      destruct (Z.to_nat n) eqn:En; [lia|done].
    + intros Ht. destruct (Z.to_nat n) eqn:En; [by destruct Ht|].
      destruct content as [|b content]; [by destruct Ht|]. simpl. lia.
    + intros _. split; lia.
Qed.

Lemma div_minus_one (b : Z) : (0 < b)%Z -> ((0 - 1) / b = -1)%Z.
Proof.
  intros Hb. symmetry.
  apply (Z.div_unique_pos _ _ _ (b - 1)); lia.
Qed.

(** The loop of [_read_file] ends for every block size from -1 on: fuel
    above the length of the file is enough, and the chunks are the file
    cut into non-empty blocks of at most [block_size] bytes. *)
Lemma read_file_loop_chunks (block_size : Z) :
  (-1 <= block_size)%Z ->
  forall fuel (content : list Byte.byte),
    length content < fuel ->
    exists chunks,
      read_file_loop fuel block_size content = Some (Ok chunks) /\
      Forall (fun c => c <> []) chunks /\
      (block_size <> 0%Z -> concat chunks = content) /\
      (block_size = 0%Z -> chunks = []) /\
      ((0 < block_size)%Z ->
       Forall (fun c => (Z.of_nat (length c) <= block_size)%Z) chunks /\
       Z.of_nat (length chunks)
         = (1 + (Z.of_nat (length content) - 1) / block_size)%Z).
Proof.
  intros Hbs. induction fuel as [|fuel IH]; intros content Hlen; [lia|].
  cbn [read_file_loop].
  destruct (file_read_Ok block_size content Hbs)
    as (chunk & rest & -> & Hrest & Happ & Hnil & Hlt & Hlens).
  destruct chunk as [|b chunk].
  - exists []. split; [done|]. split; [constructor|].
    split; [intros Hn; by rewrite (Hnil Hn)|]. split; [done|].
    intros Hpos. split; [constructor|].
    rewrite Hnil by (done || lia). cbn [length Z.of_nat].
    by rewrite div_minus_one.
  - assert (Hlt' : length rest < fuel).
    { specialize (Hlt ltac:(done)). lia. }
    destruct (IH rest Hlt') as (chunks & -> & Hne & Hcat & Hz & Hpos).
    exists ((b :: chunk) :: chunks). split; [done|].
    split; [by constructor|].
    split; [intros Hn; simpl; rewrite (Hcat Hn); by apply Happ|].
    split.
    { intros ->. destruct (Hlens ltac:(lia)) as [Hcl _]. done. }
    intros Hp. destruct (Hpos Hp) as [Hle Hcnt].
    destruct (Hlens ltac:(lia)) as [Hcl Hrl].
    split.
    + constructor; [lia|done].
    + cbn [length]. rewrite Nat2Z.inj_succ, Hcnt, Hrl.
      destruct (Nat.le_gt_cases (Z.to_nat block_size) (length content)) as [Hge|Hsm].
      * rewrite Nat2Z.inj_sub by done. rewrite Z2Nat.id by lia.
        replace (Z.of_nat (length content) - 1)%Z
          with ((Z.of_nat (length content) - block_size - 1)
                + 1 * block_size)%Z by lia.
        rewrite Z.div_add by lia. lia.
      * replace (length content - Z.to_nat block_size) with 0 by lia.
        cbn [Z.of_nat]. rewrite div_minus_one by done.
        rewrite Z.div_small; [lia|].
        simpl in Hcl. lia.
Qed.

(** X23: reading a cached file block by block gives the file back.  For
    a positive block size, and for the block size -1, the loop of
    [_read_file] ends (fuel above the length of the file is enough), no
    chunk it yields is empty, and the chunks put together are the
    content of the file; with the block size -1 a file that is not empty
    comes as one chunk.  For a block size below -1 the first [read] raises
    [ValueError] and nothing is yielded. *)
Theorem read_file_round_trip (block_size : Z) fuel (content : list Byte.byte) :
  length content < fuel ->
  ((0 < block_size)%Z \/ block_size = (-1)%Z ->
   exists chunks,
     read_file_loop fuel block_size content = Some (Ok chunks) /\
     Forall (fun c => c <> []) chunks /\
     concat chunks = content /\
     (block_size = (-1)%Z -> content <> [] -> chunks = [content])) /\
  ((block_size < -1)%Z ->
   exists e,
     read_file_loop fuel block_size content = Some (Raise e) /\
     exn_cls e = ValueError).
Proof.
  intros Hlen. split.
  - intros Hbs.
    destruct (read_file_loop_chunks block_size ltac:(lia) fuel content Hlen)
      as (chunks & Hr & Hne & Hcat & _).
    exists chunks. split; [done|]. split; [done|].
    split; [apply Hcat; lia|].
    intros -> Hc. destruct fuel as [|fuel]; [lia|].
    cbn [read_file_loop] in Hr. unfold file_read in Hr. simpl in Hr.
    destruct content as [|b content]; [done|].
    destruct fuel as [|fuel]; [simpl in Hlen; lia|].
    simpl in Hr. by injection Hr as <-.
  - intros Hbs. destruct fuel as [|fuel]; [lia|].
    eexists. split.
    + cbn [read_file_loop]. unfold file_read.
      destruct (Z.ltb_spec block_size (-1)) as [_|?]; [|lia]. reflexivity.
    + reflexivity.
Qed.

(** X24: [__len__] is the number of chunks of an iteration.  For a
    positive block size and a [Content-Length] that is the length of the
    file, [_read_file] yields [1 + (content_length - 1) // block_size]
    chunks, none longer than a block; this holds for the empty file too,
    where it yields none.  With block size 0 the two part: the iteration
    yields nothing, [__len__] raises [ZeroDivisionError]. *)
Theorem len_counts_chunks (block_size content_length : Z) fuel
    (content : list Byte.byte) :
  content_length = Z.of_nat (length content) ->
  length content < fuel ->
  ((0 < block_size)%Z ->
   exists chunks,
     read_file_loop fuel block_size content = Some (Ok chunks) /\
     Forall (fun c => (Z.of_nat (length c) <= block_size)%Z) chunks /\
     CachedDownload_len content_length block_size
       = Ok (Z.of_nat (length chunks))) /\
  (block_size = 0%Z ->
   read_file_loop fuel block_size content = Some (Ok []) /\
   exists e, CachedDownload_len content_length block_size = Raise e /\
             exn_cls e = OtherError "ZeroDivisionError").
Proof.
  intros Hcl Hlen. split.
  - intros Hp.
    destruct (read_file_loop_chunks block_size ltac:(lia) fuel content Hlen)
      as (chunks & Hr & _ & _ & _ & Hpos).
    destruct (Hpos Hp) as [Hle Hcnt].
    exists chunks. split; [done|]. split; [done|].
    unfold CachedDownload_len.
    destruct (Z.eqb_spec block_size 0); [lia|].
    by rewrite Hcnt, Hcl.
  - intros ->.
    destruct (read_file_loop_chunks 0 ltac:(lia) fuel content Hlen)
      as (chunks & Hr & _ & _ & Hz & _).
    rewrite Hr, (Hz eq_refl). split; [done|].
    by eexists.
Qed.
End DownloadTheory.

(** ** The example worlds are well formed *)

Lemma ex_world_wf : world_wf ex_world.
Proof.
  split; [done|]. split; [by repeat constructor|].
  intros l1 l2 o1 o2 b H1 H2 _ _.
  assert (Ho : forall l o, objs ex_world !! l = Some o -> obj_array o = ex_logits).
  { intros [|l] o Hl; simpl in Hl; [by injection Hl as <-|done]. }
  by rewrite (Ho _ _ H1), (Ho _ _ H2).
Qed.

Lemma ex_world_1_wf : world_wf ex_world_1.
Proof.
  split; [done|]. split; [by repeat constructor|].
  intros l1 l2 o1 o2 b H1 H2 _ _.
  assert (Ho : forall l o, objs ex_world_1 !! l = Some o -> obj_array o = ex_logits).
  { intros [|[|l]] o Hl; simpl in Hl; [by injection Hl as <-..|done]. }
  by rewrite (Ho _ _ H1), (Ho _ _ H2).
Qed.

Lemma ex_registry_wf : registry_wf ex_registry ex_world_1.
Proof. repeat constructor. by exists ex_logits, None. Qed.

Lemma ex_registry_dict_wf : dict_wf ex_registry.
Proof. unfold dict_wf. simpl. apply NoDup_singleton. Qed.

(** ** The further properties on integer arrays *)

(** X1 on a new [Tanh] put in evaluation mode. *)
Lemma eval_mode_keeps_caches_witness :
  predicting ex_tanh = false /\
  (call Tanh_compute_outputs [ex_s] (eval ex_tanh)).1 = Ok (np_tanh ex_s) /\
  _shape_cache (call Tanh_compute_outputs [ex_s] (eval ex_tanh)).2 = [] /\
  _forward_cache (call Tanh_compute_outputs [ex_s] (eval ex_tanh)).2 = [].
Proof.
  split; [reflexivity|].
  destruct (eval_mode_keeps_caches Tanh_compute_outputs Tanh_compute_grads
              ex_tanh [ex_s] eq_refl) as (Hc & Hs & Hf & _).
  split; [exact Hc|]. split; [exact Hs|exact Hf].
Defined.

(** X2 on [ex_tanh_1]: a gradient of two elements for an input of three. *)
Lemma backward_other_error_drops_entries_witness :
  predicting ex_tanh_1 = false /\
  _shape_cache ex_tanh_1 = [[[3]]] /\
  _forward_cache ex_tanh_1 = [ex_s] /\
  backward Tanh_compute_grads [ex_g] ex_tanh_1 =
    (raise ValueError "operands could not be broadcast together", ex_tanh).
Proof.
  do 3 (split; [reflexivity|]).
  destruct (backward_other_error_drops_entries Tanh_compute_grads
              [ex_g] ex_tanh_1 [] [] [[3]] ex_s
              (Exn ValueError [ArgStr "operands could not be broadcast together"])
              () eq_refl eq_refl eq_refl eq_refl eq_refl) as (Hb & _).
  exact Hb.
Defined.

(** X3 on [ex_tanh_2], whose caches are out of step. *)
Lemma backward_TypeError_any_args_witness :
  predicting ex_tanh_2 = false /\
  exists e',
    backward Tanh_compute_grads [np_scalar 1%Z] ex_tanh_2 =
      (Raise e', ex_tanh_2) /\
    e' = Exn TypeError [ArgStr ("iteration over a 0-d array" +:+ zero_grad_hint)].
Proof.
  split; [reflexivity|].
  destruct (backward_TypeError_any_args Tanh_compute_grads
              [np_scalar 1%Z] ex_tanh_2 [[[]]] [] [[]; []] (np_scalar 2%Z)
              (Exn TypeError [ArgStr "iteration over a 0-d array"]) ()
              eq_refl eq_refl eq_refl eq_refl eq_refl) as (e' & Hb & He).
  exists e'. split; [exact Hb|exact He].
Defined.

(** X4 on [ex_tanh_1]: a [forward] on two inputs fails, and the next
    [backward] reads their two shapes with the cache of [ex_s]. *)
Lemma failed_forward_misaligns_backward_witness :
  predicting ex_tanh_1 = false /\
  Tanh_compute_outputs [ex_g; ex_g] (_parameters ex_tanh_1)
    = (@arity_error (ndarray Z * ndarray Z), ()) /\
  backward Tanh_compute_grads [np_ones [3]]
      (forward Tanh_compute_outputs [ex_g; ex_g] ex_tanh_1).2 =
    backward_with Tanh_compute_grads [[2]; [2]] ex_s [np_ones [3]]
      (MkModule false () [] [[[3]]]).
Proof.
  split; [reflexivity|]. split; [reflexivity|].
  destruct (failed_forward_misaligns_backward Tanh_compute_outputs
              Tanh_compute_grads ex_tanh_1 [ex_g; ex_g]
              (Exn TypeError [ArgStr "compute_outputs() takes 2 positional arguments"])
              () [np_ones [3]] eq_refl eq_refl) as [Hb _].
  exact (Hb [] ex_s eq_refl).
Defined.

(** X5 on [ex_identity_1]: the two gradients are added up. *)
Lemma backward_sums_over_gradients_witness :
  predicting ex_identity_1 = false /\
  _shape_cache ex_identity_1 = [[[3]]] /\
  _forward_cache ex_identity_1 = [()] /\
  backward Identity_compute_grads [ex_s; np_ones [3]] ex_identity_1 =
    (Ok (GArray (NdArray [3] [-1; 1; 6]%Z)), ex_module).
Proof.
  do 3 (split; [reflexivity|]).
  assert (Hsh : forall g : ndarray Z, g ∈ [ex_s; np_ones [3]] ->
            shape (id g) = [3] /\ wf_array (id g)).
  { intros g Hg. apply elem_of_cons in Hg as [->|Hg]; [by split|].
    apply list_elem_of_singleton in Hg as ->. by split. }
  destruct (backward_sums_over_gradients Identity_compute_grads id
              ex_identity_1 [] [] [3] () [ex_s; np_ones [3]]
              eq_refl eq_refl eq_refl (fun g _ => eq_refl) Hsh) as (Hb & _).
  exact Hb.
Defined.

(** X6 on [ex_mse_1], a module with two inputs: one gradient for each. *)
Lemma backward_zips_inputs_and_gradients_witness :
  predicting ex_mse_1 = false /\
  _shape_cache ex_mse_1 = [[[2]; [2]]] /\
  backward (fun _ => MSE_compute_grads) [np_scalar 1%Z] ex_mse_1 =
    (Ok (GTuple [NdArray [2] [4; 2]%Z; NdArray [2] [4; 2]%Z]),
     Module_init ()).
Proof.
  do 2 (split; [reflexivity|]).
  assert (Hall : Forall2 (fun (d : ndarray Z) s => shape d = s /\ wf_array d)
            (take 2 [NdArray [2] [4; 2]%Z; NdArray [2] [4; 2]%Z])
            (take 2 [[2]; [2]])).
  { repeat constructor. }
  assert (Hcg : MSE_compute_grads (MkMSECache ex_targets ex_logits)
                  (_parameters ex_mse_1) =
                (Ok (GTuple [NdArray [2] [4; 2]%Z; NdArray [2] [4; 2]%Z]), ())).
  { vm_compute. reflexivity. }
  destruct (backward_zips_inputs_and_gradients (fun _ => MSE_compute_grads)
              ex_mse_1 [] [] [[2]; [2]] (MkMSECache ex_targets ex_logits)
              (np_scalar 1%Z) [NdArray [2] [4; 2]%Z; NdArray [2] [4; 2]%Z] ()
              eq_refl eq_refl eq_refl (fun H => Nat.neq_succ_diag_l 1 H)
              Hcg Hall) as (_ & Hb).
  exact (Hb eq_refl).
Defined.

(** X7 on a new [Tanh]: [1 - sgn(x)^2] is 1 at 0 and 0 elsewhere. *)
Lemma tanh_backward_chain_rule_witness :
  predicting ex_tanh = false /\
  wf_array ex_s /\
  exists st1,
    forward Tanh_compute_outputs [ex_s] ex_tanh = (Ok (np_tanh ex_s), st1) /\
    backward Tanh_compute_grads [NdArray [3] [2; 3; 4]%Z] st1 =
      (Ok (GArray (NdArray [3] [0; 3; 0]%Z)), ex_tanh) /\
    backward Tanh_compute_grads [np_scalar 5%Z] st1 =
      (Ok (GArray (NdArray [3] [0; 5; 0]%Z)), ex_tanh).
Proof.
  split; [reflexivity|]. split; [reflexivity|].
  exact (tanh_backward_chain_rule ex_s (NdArray [3] [2; 3; 4]%Z) 5%Z ex_tanh
           eq_refl eq_refl eq_refl eq_refl).
Defined.

(** X8 on a new [Identity]: a number as gradient is broadcast. *)
Lemma identity_forward_backward_witness :
  predicting ex_module = false /\
  wf_array (np_scalar 7%Z) /\
  exists st1,
    forward Identity_compute_outputs [ex_s] ex_module = (Ok ex_s, st1) /\
    backward Identity_compute_grads [np_scalar 7%Z] st1 =
      (Ok (GArray (NdArray [3] [7; 7; 7]%Z)), ex_module).
Proof.
  split; [reflexivity|]. split; [reflexivity|].
  destruct (identity_forward_backward ex_s (np_scalar 7%Z) ex_module
              eq_refl eq_refl) as (st1 & Hf & Hb & _).
  exists st1. split; [exact Hf|exact (Hb eq_refl)].
Defined.

(** X9 on a new [Mean(0)] and a vector of three elements. *)
Lemma sum_mean_backward_scalar_witness :
  predicting ex_reduction = false /\
  normalize_axis 0 1 = Some 0 /\
  shape ex_s !! 0 = Some 3 /\
  exists out st1,
    forward (Mean_compute_outputs 0) [ex_s] ex_reduction = (Ok out, st1) /\
    backward (Mean_compute_grads 0) [np_scalar 6%Z] st1 =
      (Ok (GArray (NdArray [3] [2; 2; 2]%Z)), ex_reduction).
Proof.
  do 3 (split; [reflexivity|]).
  destruct (sum_mean_backward_scalar ex_s 6%Z 0 0 3 ex_reduction
              eq_refl eq_refl eq_refl eq_refl) as [_ HMean].
  exact HMean.
Defined.

(** X10 on [ex_heap]: the new gradient array is at location 2. *)
Lemma zero_grad_allocates_witness :
  ex_heap !! 0 = Some (ParameterObj (NdArray [2] [5; 6]%Z) (Some 1)) /\
  exists h',
    zero_grad 0 ex_heap = (Ok (), h') /\
    h' !! 0 = Some (ParameterObj (NdArray [2] [5; 6]%Z) (Some 2)) /\
    h' !! 2 = Some (ParameterObj (np_zeros [2]) None).
Proof.
  split; [reflexivity|].
  destruct (zero_grad_allocates 0 ex_heap (NdArray [2] [5; 6]%Z) (Some 1)
              eq_refl) as (h' & Hz & _ & H0 & H2 & _).
  exists h'. split; [exact Hz|]. split; [exact H0|exact H2].
Defined.

(** X11 on [ex_heap]: [p.grad = p.grad + 2] turns the gradient [[1, 2]]
    into [[4, 6]]. *)
Lemma grad_assign_plus_doubles_witness :
  ex_heap !! 0 = Some (ParameterObj (NdArray [2] [5; 6]%Z) (Some 1)) /\
  ex_heap !! 1 = Some (ParameterObj ex_grad None) /\
  wf_array ex_grad /\
  exists h',
    grad_assign_plus 0 2%Z ex_heap = (Ok (), h') /\
    grad_array 0 h' = Some (NdArray [2] [4; 6]%Z).
Proof.
  do 3 (split; [reflexivity|]).
  destruct (grad_assign_plus_doubles 0 2%Z ex_heap (NdArray [2] [5; 6]%Z) 1
              (ParameterObj ex_grad None) eq_refl eq_refl eq_refl)
    as (h' & Hg & Hne & _).
  exists h'. split; [exact Hg|].
  destruct (Hne eq_refl) as [_ Ha]. exact Ha.
Defined.

(** X12 on [ex_world]: registering the array at location 0 as ["w"]. *)
Lemma register_parameter_getattr_witness :
  world_wf ex_world /\
  registry_wf [] ex_world /\
  dict_wf [] /\
  is_Some (objs ex_world !! 0) /\
  exists ps' w',
    register_parameter "w" (ALRef 0) [] ex_world = (Ok 1, ps', w') /\
    objs w' = objs ex_world ++ [ParameterObj ex_logits None] /\
    bufs w' !! 1 = bufs ex_world !! 0 /\
    getattr "Module" "w" ps' = Ok 1.
Proof.
  split; [exact ex_world_wf|]. split; [constructor|].
  split; [constructor|]. split; [by eexists|].
  destruct (register_parameter_getattr "Module" "w" (ALRef 0) [] ex_world
              ex_world_wf (Forall_nil_2 _) (NoDup_nil_2 (A := string))
              (ex_intro _ _ eq_refl))
    as (a & ps' & w' & [Ha Hb] & Hr & Ho & Hg & _).
  exists ps', w'. split; [exact Hr|]. split.
  - rewrite Ho. injection Ha as <-. reflexivity.
  - split; [exact Hb|exact Hg].
Defined.

(** X13 on [ex_world_1]: deleting ["w"] deregisters it and returns a
    plain array that is a view of the parameter. *)
Lemma deregister_parameter_cases_witness :
  world_wf ex_world_1 /\
  registry_wf ex_registry ex_world_1 /\
  dict_wf ex_registry /\
  dict_get "w" ex_registry = Some 1 /\
  exists ps' w',
    deregister_parameter "w" ex_registry ex_world_1 = (Ok 2, ps', w') /\
    delattr "Module" "w" ex_registry ex_attrs ex_world_1 =
      (Ok (ParameterDeregistered 2), ps', ex_attrs, w') /\
    objs w' = objs ex_world_1 ++ [ArrayObj ex_logits] /\
    bufs w' !! 2 = bufs ex_world_1 !! 1.
Proof.
  split; [exact ex_world_1_wf|]. split; [exact ex_registry_wf|].
  split; [exact ex_registry_dict_wf|]. split; [reflexivity|].
  destruct (deregister_parameter_cases "Module" "w" ex_registry ex_attrs
              ex_world_1 ex_world_1_wf ex_registry_wf ex_registry_dict_wf)
    as [_ Hreg].
  destruct (Hreg 1 eq_refl) as (a & ps' & w' & Ha & Hd & Hdel & Ho & Hb & _).
  exists ps', w'. split; [exact Hd|]. split; [exact Hdel|].
  split; [|exact Hb].
  rewrite Ho. injection Ha as <-. reflexivity.
Defined.



(** X16 on [ex_world_1]: the parameter gets a gradient of zeros. *)
Lemma Module_zero_grad_all_witness :
  registry_wf ex_registry ex_world_1 /\
  exists w',
    Module_zero_grad ex_registry ex_world_1 = (Ok (), w') /\
    param_array "w" ex_registry w' = Some ex_logits /\
    grad_array 1 (objs w') = Some (np_zeros [2]).
Proof.
  split; [exact ex_registry_wf|].
  destruct (Module_zero_grad_all ex_registry ex_world_1 ex_registry_wf)
    as (w' & Hz & Hpar & _).
  exists w'. split; [exact Hz|].
  destruct (Hpar "w" 1 ex_logits None eq_refl eq_refl)
    as (Ha & g' & _ & _ & Hg).
  split; [exact Ha|exact Hg].
Defined.

(** X17 on [ex_world_1]: the parameter is reset to zeros. *)
Lemma reset_parameters_all_zero_witness :
  world_wf ex_world_1 /\
  registry_wf ex_registry ex_world_1 /\
  exists w',
    reset_parameters ex_registry ex_world_1 = (Ok (), ex_registry, w') /\
    param_array "w" ex_registry w' = Some (np_zeros [2]) /\
    param_grad_slot "w" ex_registry w' = Some None.
Proof.
  split; [exact ex_world_1_wf|]. split; [exact ex_registry_wf|].
  destruct (reset_parameters_all_zero ex_registry ex_world_1
              ex_world_1_wf ex_registry_wf) as (w' & Hr & Hpar & _).
  exists w'. split; [exact Hr|].
  exact (Hpar "w" 1 ex_logits None eq_refl eq_refl).
Defined.

(** X18 on a new [MSE] with the reduction [Mean(0)]. *)
Lemma loss_forward_records_witness :
  MSE_compute_outputs [ex_logits; ex_targets] (_parameters (loss_base ex_loss))
    = (Ok (NdArray [2] [16; 4]%Z, MkMSECache ex_targets ex_logits), ()) /\
  (Loss_forward (Mean 0) MSE_compute_outputs ex_logits ex_targets ex_loss).1
    = Ok (np_scalar 10%Z) /\
  _shape_cache (loss_base
      (Loss_forward (Mean 0) MSE_compute_outputs ex_logits ex_targets ex_loss).2)
    = [[[2]; [2]]] /\
  _shape_cache (reduction
      (Loss_forward (Mean 0) MSE_compute_outputs ex_logits ex_targets ex_loss).2)
    = [[[2]]].
Proof.
  assert (Hout : MSE_compute_outputs [ex_logits; ex_targets]
                   (_parameters (loss_base ex_loss))
      = (Ok (NdArray [2] [16; 4]%Z, MkMSECache ex_targets ex_logits), ()))
    by reflexivity.
  split; [exact Hout|].
  destruct (loss_forward_records (Mean 0) MSE_compute_outputs ex_loss
              ex_logits ex_targets (NdArray [2] [16; 4]%Z)
              (MkMSECache ex_targets ex_logits) () Hout)
    as (Hs & _ & Hrs & Hok & _).
  assert (Hred : reduction_compute_outputs (Mean 0) [NdArray [2] [16; 4]%Z]
                   (_parameters (reduction ex_loss))
      = (Ok (np_scalar 10%Z, [2]), ())) by reflexivity.
  destruct (Hok (np_scalar 10%Z) [2] () Hred) as [Hres _].
  split; [exact Hres|]. split; [exact Hs|exact Hrs].
Defined.

(** X19 on a new [MSE] put in evaluation mode. *)
Lemma loss_eval_mode_witness :
  predicting (loss_base (Loss_eval (Mean 0) ex_loss)) = true /\
  _shape_cache (loss_base
      (Loss_call (Mean 0) MSE_compute_outputs ex_logits ex_targets
         (Loss_eval (Mean 0) ex_loss)).2) = [] /\
  _shape_cache (reduction
      (Loss_call (Mean 0) MSE_compute_outputs ex_logits ex_targets
         (Loss_eval (Mean 0) ex_loss)).2) = [].
Proof.
  split; [reflexivity|].
  destruct (loss_eval_mode (Mean 0) MSE_compute_outputs MSE_compute_grads
              (Loss_eval (Mean 0) ex_loss) ex_logits ex_targets
              [np_scalar 1%Z] eq_refl) as [(Hs & _ & Hrs & _) _].
  split; [exact Hs|exact Hrs].
Defined.

(** X20 on a new [MSE] with the reduction [Mean(0)]: the gradient 100 is
    not seen in the result. *)
Lemma MSE_backward_ignores_gradient_witness :
  predicting (loss_base ex_loss) = false /\
  wf_array ex_logits /\ wf_array ex_targets /\
  Loss_backward (Mean 0) MSE_compute_grads [np_scalar 100%Z]
      (Loss_forward (Mean 0) MSE_compute_outputs ex_logits ex_targets ex_loss).2
    = (Ok (GTuple [NdArray [2] [4; 2]%Z; NdArray [2] [4; 2]%Z]), ex_loss).
Proof.
  do 3 (split; [reflexivity|]).
  assert (Hfw : Loss_forward (Mean 0) MSE_compute_outputs ex_logits ex_targets
                  ex_loss
      = (Ok (np_scalar 10%Z),
         (Loss_forward (Mean 0) MSE_compute_outputs ex_logits ex_targets
            ex_loss).2)) by reflexivity.
  assert (Hbw : backward (reduction_compute_grads (Mean 0)) [np_scalar 100%Z]
                  (reduction (Loss_forward (Mean 0) MSE_compute_outputs
                                ex_logits ex_targets ex_loss).2)
      = (Ok (GArray (NdArray [2] [50; 50]%Z)), Module_init ()))
    by reflexivity.
  exact (MSE_backward_ignores_gradient (Mean 0) ex_logits ex_targets
           (np_scalar 100%Z) 2 [] ex_loss
           (Loss_forward (Mean 0) MSE_compute_outputs ex_logits ex_targets ex_loss).2
           (np_scalar 10%Z) (GArray (NdArray [2] [50; 50]%Z))
           (Module_init ())
           eq_refl eq_refl eq_refl eq_refl eq_refl
           (fun H => Nat.neq_succ_0 1 H) Hfw Hbw).
Defined.

(** X21 on [ex_mse_0d], whose predictions were a number. *)
Lemma MSE_backward_no_samples_witness :
  predicting ex_mse_0d = false /\
  _shape_cache ex_mse_0d = [[[]; []]] /\
  backward (fun _ => MSE_compute_grads) [np_scalar 1%Z] ex_mse_0d =
    (raise IndexError "tuple index out of range", Module_init ()).
Proof.
  do 2 (split; [reflexivity|]).
  destruct (MSE_backward_no_samples (W := unit) ex_mse_0d [] [] [[]; []]
              (MkMSECache (np_scalar 1%Z) (np_scalar 2%Z)) (np_scalar 1%Z)
              eq_refl eq_refl eq_refl) as [H0 _].
  exact (H0 eq_refl).
Defined.

(** X23 on a file of five bytes read in blocks of two. *)
Lemma read_file_round_trip_witness :
  length ex_content < 6 /\
  exists chunks,
    read_file_loop 6 2 ex_content = Some (Ok chunks) /\
    concat chunks = ex_content.
Proof.
  split; [repeat constructor|].
  destruct (read_file_round_trip 2 6 ex_content ltac:(repeat constructor))
    as [Hok _].
  destruct (Hok (or_introl eq_refl)) as (chunks & Hr & _ & Hc & _).
  exists chunks. split; [exact Hr|exact Hc].
Defined.

(** X24 on a file of five bytes read in blocks of two: three chunks. *)
Lemma len_counts_chunks_witness :
  5%Z = Z.of_nat (length ex_content) /\
  length ex_content < 6 /\
  exists chunks,
    read_file_loop 6 2 ex_content = Some (Ok chunks) /\
    CachedDownload_len 5 2 = Ok (Z.of_nat (length chunks)).
Proof.
  split; [reflexivity|]. split; [repeat constructor|].
  destruct (len_counts_chunks 2 5 6 ex_content eq_refl
              ltac:(repeat constructor)) as [Hpos _].
  destruct (Hpos eq_refl) as (chunks & Hr & _ & Hl).
  exists chunks. split; [exact Hr|exact Hl].
Defined.
